(** * OpenManus core: agent execution engine, planning flow, model gateway

    A shallow embedding of [app/agent/base.py], [app/flow/planning.py] and
    [app/llm.py], followed by the properties established about them.

    Conventions of the embedding:
    - a Python [int] is a [Z]; a Python [str] is a [string] holding UTF-8;
    - a Python [float] is a binary64 value, [spec_float] at precision 53;
    - code that mutates [self] is a function in the state-and-exception
      monad [M]: it takes the state before and gives an outcome together
      with the state after;
    - a [while] loop takes a fuel argument and gives [OutOfFuel] when the
      fuel does not suffice. *)

From Stdlib Require Import ZArith QArith Qround String Ascii List Bool Lia.
From Stdlib Require Import Floats.SpecFloat.
From stdpp Require Import base option list strings gmap pretty.

Local Open Scope string_scope.
Local Open Scope Z_scope.

(** ** Python values shared by the three source files *)

Module Py.

(** Exception classes that the three files raise, catch or name. The
    last one stands for classes that derive from [BaseException] without
    deriving from [Exception] (a cancelled task, a keyboard interrupt). *)
Inductive exn_class :=
  | ValueError | TypeError | RuntimeError | KeyError
  | ZeroDivisionError | OverflowError | AttributeError
  | TokenLimitExceeded
  | OpenAIError | AuthenticationError | RateLimitError | APIError
  | OtherException
  | NonException.

(** An exception: a class and a message ([str(e)]), or tenacity's
    [RetryError] around the exception of the last attempt. *)
Inductive exn :=
  | Exn (c : exn_class) (msg : string)
  | RetryError (last : exn).

Global Instance exn_class_eq_dec : EqDecision exn_class.
Proof. solve_decision. Defined.

Global Instance exn_eq_dec : EqDecision exn.
Proof. solve_decision. Defined.

(** [isinstance(e, Exception)]. [app/exceptions.py], which declares
    [TokenLimitExceeded], is not among the sources: whether that class
    derives from [Exception] is the argument [tle]. *)
Definition isinstance_Exception (tle : bool) (e : exn) : bool :=
  match e with
  | Exn NonException _ => false
  | Exn TokenLimitExceeded _ => tle
  | Exn _ _ => true
  | RetryError _ => true
  end.

Definition exn_has_class (c : exn_class) (e : exn) : bool :=
  match e with
  | Exn c' _ => bool_decide (c' = c)
  | RetryError _ => false
  end.

(** [str(e)] *)
Definition str_exn (e : exn) : string :=
  match e with
  | Exn _ msg => msg
  | RetryError _ => "RetryError"
  end.

(** The outcome of running a piece of code. *)
Inductive outcome (A : Type) :=
  | Return (a : A)
  | Raise (e : exn)
  | OutOfFuel.
Arguments Return {A} a.
Arguments Raise {A} e.
Arguments OutOfFuel {A}.

(** State-and-exception monad over a state [S]. *)
Definition M (S A : Type) : Type := S -> outcome A * S.

Definition ret {S A} (a : A) : M S A := fun s => (Return a, s).

Definition bind {S A B} (m : M S A) (k : A -> M S B) : M S B :=
  fun s =>
    match m s with
    | (Return a, s') => k a s'
    | (Raise e, s') => (Raise e, s')
    | (OutOfFuel, s') => (OutOfFuel, s')
    end.

Definition raise {S A} (e : exn) : M S A := fun s => (Raise e, s).
Definition out_of_fuel {S A} : M S A := fun s => (OutOfFuel, s).
Definition get {S} : M S S := fun s => (Return s, s).
Definition put {S} (s : S) : M S unit := fun _ => (Return tt, s).
Definition modify {S} (f : S -> S) : M S unit := fun s => (Return tt, f s).

(** [try: body  except <classes accepted by catches> as e: handler e] *)
Definition try_except {S A} (body : M S A) (catches : exn -> bool)
    (handler : exn -> M S A) : M S A :=
  fun s =>
    match body s with
    | (Raise e, s') => if catches e then handler e s' else (Raise e, s')
    | r => r
    end.

(** [try: body  finally: fin]. The [finally] block runs on a normal exit
    and on an exception; an exception of its own replaces the pending
    one. Nothing runs after a body that does not terminate. *)
Definition try_finally {S A} (body : M S A) (fin : M S unit) : M S A :=
  fun s =>
    match body s with
    | (Return a, s') =>
        match fin s' with
        | (Return _, s'') => (Return a, s'')
        | (Raise e, s'') => (Raise e, s'')
        | (OutOfFuel, s'') => (OutOfFuel, s'')
        end
    | (Raise e, s') =>
        match fin s' with
        | (Return _, s'') => (Raise e, s'')
        | (Raise e', s'') => (Raise e', s'')
        | (OutOfFuel, s'') => (OutOfFuel, s'')
        end
    | (OutOfFuel, s') => (OutOfFuel, s')
    end.

(** Truth value of a [str] and of an [Optional[str]]. *)
Definition truthy (s : string) : bool := negb (String.eqb s "").

Definition truthy_opt (o : option string) : bool :=
  match o with
  | Some s => truthy s
  | None => false
  end.

(** [str(o)] of an [Optional[str]], as an f-string formats it. *)
Definition str_opt (o : option string) : string :=
  match o with
  | Some s => s
  | None => "None"
  end.

(** [str(n)] of an [int]. *)
Definition str_int (n : Z) : string := pretty n.

(** [sep.join(l)] *)
Fixpoint join (sep : string) (l : list string) : string :=
  match l with
  | [] => ""
  | [x] => x
  | x :: rest => x +:+ sep +:+ join sep rest
  end.

(** The newline character. *)
Definition nl : string := String (ascii_of_nat 10) "".

(** [sum(1 for x in l if p x)] *)
Fixpoint count_if {A} (p : A -> bool) (l : list A) : Z :=
  match l with
  | [] => 0
  | x :: rest => (if p x then 1 else 0) + count_if p rest
  end.

(** The double-quote character. *)
Definition dquote : string := String (ascii_of_nat 34) "".

(** A UTF-8 continuation byte, [10xxxxxx]. *)
Definition is_continuation (c : ascii) : bool :=
  match c with
  | Ascii _ _ _ _ _ _ b6 b7 => b7 && negb b6
  end.

(** [len(s)]: the number of code points of the text. *)
Fixpoint len (s : string) : nat :=
  match s with
  | EmptyString => 0%nat
  | String c rest => if is_continuation c then len rest else S (len rest)
  end.

(** [c * n] for a one-character string [c]. *)
Fixpoint repeat_str (c : string) (n : nat) : string :=
  match n with
  | O => ""
  | S n' => c +:+ repeat_str c n'
  end.

(** [s[:n]]: the first [n] code points. *)
Fixpoint prefix_chars (n : nat) (s : string) : string :=
  match s with
  | EmptyString => ""
  | String c rest =>
      if is_continuation c then String c (prefix_chars n rest)
      else
        match n with
        | O => ""
        | S n' => String c (prefix_chars n' rest)
        end
  end.

End Py.

Notation "x <- m ;; k" := (Py.bind m (fun x => k))
  (at level 100, m at next level, right associativity).
Notation "m ;;; k" := (Py.bind m (fun _ => k))
  (at level 100, right associativity).

(** ** Python numbers: [int] and binary64 [float] *)

Module PyFloat.
Import Py.

Definition prec : Z := 53.
Definition emax : Z := 1024.

(** [float(n)], as the mixed operations of an [int] with a [float]
    convert it: rounded to the nearest, ties to even. *)
Definition of_int (n : Z) : outcome spec_float :=
  match binary_normalize prec emax n 0 false with
  | S754_infinity _ =>
      Raise (Exn OverflowError "int too large to convert to float")
  | f => Return f
  end.

(** [a / b] of two [int]: the quotient rounded once to the nearest. *)
Definition true_div (a b : Z) : outcome spec_float :=
  if b =? 0 then Raise (Exn ZeroDivisionError "division by zero")
  else
    let sign := xorb (a <? 0) (b <? 0) in
    if a =? 0 then Return (S754_zero sign)
    else
      let '(q, e, l) := SFdiv_core_binary prec emax (Z.abs a) 0 (Z.abs b) 0 in
      match binary_round_aux prec emax sign q e l with
      | S754_infinity _ =>
          Raise (Exn OverflowError "integer division result too large for a float")
      | f => Return f
      end.

(** [n * x] of an [int] and a [float]. *)
Definition int_mul (n : Z) (x : spec_float) : outcome spec_float :=
  match of_int n with
  | Return f => Return (SFmul prec emax f x)
  | Raise e => Raise e
  | OutOfFuel => OutOfFuel
  end.

(** [int(x)]: truncation towards zero. *)
Definition to_int (x : spec_float) : outcome Z :=
  match x with
  | S754_zero _ => Return 0
  | S754_finite s m e =>
      let magnitude :=
        if 0 <=? e then Z.pos m * 2 ^ e else Z.pos m / 2 ^ (- e) in
      Return (if s then - magnitude else magnitude)
  | S754_infinity _ =>
      Raise (Exn OverflowError "cannot convert float infinity to integer")
  | S754_nan => Raise (Exn ValueError "cannot convert float NaN to integer")
  end.

(** [math.ceil(x)] *)
Definition ceil (x : spec_float) : outcome Z :=
  match x with
  | S754_zero _ => Return 0
  | S754_finite s m e =>
      let n := if s then Z.neg m else Z.pos m in
      Return (if 0 <=? e then n * 2 ^ e else - ((- n) / 2 ^ (- e)))
  | S754_infinity _ =>
      Raise (Exn OverflowError "cannot convert float infinity to integer")
  | S754_nan => Raise (Exn ValueError "cannot convert float NaN to integer")
  end.

(** A number that is an [int] or a [float]. *)
Inductive number :=
  | NInt (n : Z)
  | NFloat (x : spec_float).

(** Nearest integer of [n / d] for [0 <= n] and [0 < d], ties to even. *)
Definition round_half_even (n d : Z) : Z :=
  let q := n / d in
  let r := n mod d in
  match 2 * r ?= d with
  | Lt => q
  | Gt => q + 1
  | Eq => if Z.even q then q else q + 1
  end.

(** The digits of [tenths / 10] with one decimal. *)
Definition one_decimal (negative : bool) (tenths : Z) : string :=
  (if negative then "-" else "")
  +:+ str_int (tenths / 10) +:+ "." +:+ str_int (tenths mod 10).

(** [f"{x:.1f}"]: the exact value of [x] rounded to one decimal. *)
Definition format_1f (x : number) : string :=
  match x with
  | NInt n => one_decimal (n <? 0) (Z.abs n * 10)
  | NFloat (S754_zero s) => one_decimal s 0
  | NFloat (S754_finite s m e) =>
      let tenths :=
        if 0 <=? e then Z.pos m * 2 ^ e * 10
        else round_half_even (Z.pos m * 10) (2 ^ (- e)) in
      one_decimal s tenths
  | NFloat (S754_infinity s) => if s then "-inf" else "inf"
  | NFloat S754_nan => "nan"
  end.

End PyFloat.

(** ** app/agent/base.py *)

Module Agent.
Import Py.

(** [AgentState] and [Message] are declared in [app/schema.py], which is
    not among the sources; they are rendered from their uses here and
    from the data model of the specification. *)
Inductive AgentState := IDLE | RUNNING | FINISHED | ERROR.

Global Instance AgentState_eq_dec : EqDecision AgentState.
Proof. solve_decision. Defined.

(** The text of a state inside a message, taken to be its name. *)
Definition str_state (s : AgentState) : string :=
  match s with
  | IDLE => "IDLE"
  | RUNNING => "RUNNING"
  | FINISHED => "FINISHED"
  | ERROR => "ERROR"
  end.

Inductive Role := user | system | assistant | tool.

Global Instance Role_eq_dec : EqDecision Role.
Proof. solve_decision. Defined.

Record Message := {
  role : Role;
  content : option string;
  tool_call_id : option string;
  base64_image : option string
}.

(** Modelled from the spec: the four message constructors of
    [app/schema.py]; a [tool] message requires its [tool_call_id]. *)
Definition role_message (r : Role) (text : string)
    (image : option string) : Message :=
  {| role := r; content := Some text; tool_call_id := None;
     base64_image := image |}.

Definition tool_message (text : string) (image : option string)
    (call_id : option string) : outcome Message :=
  match call_id with
  | Some i =>
      Return {| role := tool; content := Some text; tool_call_id := Some i;
                base64_image := image |}
  | None => Raise (Exn TypeError "tool_message() missing tool_call_id")
  end.

(** The fields of [BaseAgent] that the file reads or writes. The [llm]
    binding is only created by the validator and is left out. *)
Record BaseAgent := {
  name : string;
  description : option string;
  system_prompt : option string;
  next_step_prompt : option string;
  memory : list Message;
  state : AgentState;
  max_steps : Z;
  current_step : Z;
  duplicate_threshold : Z
}.

Definition set_state (s : AgentState) (a : BaseAgent) : BaseAgent :=
  {| name := name a; description := description a;
     system_prompt := system_prompt a;
     next_step_prompt := next_step_prompt a; memory := memory a;
     state := s; max_steps := max_steps a; current_step := current_step a;
     duplicate_threshold := duplicate_threshold a |}.

Definition set_current_step (n : Z) (a : BaseAgent) : BaseAgent :=
  {| name := name a; description := description a;
     system_prompt := system_prompt a;
     next_step_prompt := next_step_prompt a; memory := memory a;
     state := state a; max_steps := max_steps a; current_step := n;
     duplicate_threshold := duplicate_threshold a |}.

Definition set_next_step_prompt (p : option string) (a : BaseAgent)
    : BaseAgent :=
  {| name := name a; description := description a;
     system_prompt := system_prompt a;
     next_step_prompt := p; memory := memory a;
     state := state a; max_steps := max_steps a;
     current_step := current_step a;
     duplicate_threshold := duplicate_threshold a |}.

(** [self.memory.add_message(m)] *)
Definition add_message (m : Message) (a : BaseAgent) : BaseAgent :=
  {| name := name a; description := description a;
     system_prompt := system_prompt a;
     next_step_prompt := next_step_prompt a; memory := (memory a ++ [m])%list;
     state := state a; max_steps := max_steps a;
     current_step := current_step a;
     duplicate_threshold := duplicate_threshold a |}.

(** What a call of [run] acts on: the agent, the number of calls made to
    [SANDBOX_CLIENT.cleanup], and, newest first, the agent as it stood
    after each assignment to it ([history] is a ghost field). *)
Record World := {
  agent : BaseAgent;
  sandbox_cleanups : nat;
  history : list BaseAgent
}.

Definition init_world (a : BaseAgent) : World :=
  {| agent := a; sandbox_cleanups := 0; history := [a] |}.

(** An assignment to the agent. *)
Definition assign (f : BaseAgent -> BaseAgent) : M World unit :=
  fun w =>
    let a' := f (agent w) in
    (Return tt,
     {| agent := a'; sandbox_cleanups := sandbox_cleanups w;
        history := a' :: history w |}).

Definition self : M World BaseAgent := fun w => (Return (agent w), w).

(** [await SANDBOX_CLIENT.cleanup()] *)
Definition cleanup : M World unit :=
  fun w =>
    (Return tt,
     {| agent := agent w; sandbox_cleanups := S (sandbox_cleanups w);
        history := history w |}).

(** [state_context]: the [new_state] argument is an [AgentState] by its
    type, so the [isinstance] test passes. Its [except Exception] clause
    catches every class but a bare [BaseException]. *)
Definition state_context {A} (new_state : AgentState) (body : M World A)
    : M World A :=
  a <- self ;;
  let previous_state := state a in
  assign (set_state new_state) ;;;
  try_finally
    (try_except body (isinstance_Exception true)
       (fun e => assign (set_state ERROR) ;;; raise e))
    (assign (set_state previous_state)).

(** [update_memory]; [call_id] stands for the keyword arguments. *)
Definition update_memory (r : string) (text : string)
    (image : option string) (call_id : option string) : M World unit :=
  if String.eqb r "user" then assign (add_message (role_message user text image))
  else if String.eqb r "system" then
    assign (add_message (role_message system text image))
  else if String.eqb r "assistant" then
    assign (add_message (role_message assistant text image))
  else if String.eqb r "tool" then
    match tool_message text image call_id with
    | Return m => assign (add_message m)
    | Raise e => raise e
    | OutOfFuel => out_of_fuel
    end
  else raise (Exn ValueError ("Unsupported message role: " +:+ r)).

Definition stuck_prompt : string :=
  "        Observed duplicate responses. Consider new strategies and avoid repeating ineffective paths already attempted.".

Definition handle_stuck_state : M World unit :=
  assign (fun a =>
    set_next_step_prompt
      (Some (stuck_prompt +:+ nl +:+ str_opt (next_step_prompt a))) a).

Definition is_duplicate_of (last_message msg : Message) : bool :=
  bool_decide (role msg = assistant)
  && bool_decide (content msg = content last_message).

Definition is_stuck (a : BaseAgent) : bool :=
  if (length (memory a) <? 2)%nat then false
  else
    match last (memory a) with
    | None => false
    | Some last_message =>
        if negb (truthy_opt (content last_message)) then false
        else
          let duplicate_count :=
            count_if (is_duplicate_of last_message)
              (rev (removelast (memory a))) in
          duplicate_threshold a <=? duplicate_count
    end.

Section Run.

(** The abstract [step] of the subclass: from the agent it gives its
    text, or an exception, and the agent as it leaves it. *)
Variable step : BaseAgent -> outcome string * BaseAgent.

Definition do_step : M World string :=
  fun w =>
    let '(r, a') := step (agent w) in
    (r, {| agent := a'; sandbox_cleanups := sandbox_cleanups w;
           history := a' :: history w |}).

Definition loop_condition (a : BaseAgent) : bool :=
  (current_step a <? max_steps a) && negb (bool_decide (state a = FINISHED)).

(** The [while] loop of [run]; [results] is the list built so far. *)
Fixpoint run_loop (fuel : nat) (results : list string)
    : M World (list string) :=
  a <- self ;;
  if loop_condition a then
    match fuel with
    | O => out_of_fuel
    | S fuel' =>
        assign (fun a => set_current_step (current_step a + 1) a) ;;;
        step_result <- do_step ;;
        a1 <- self ;;
        (if is_stuck a1 then handle_stuck_state else ret tt) ;;;
        a2 <- self ;;
        run_loop fuel'
          (results ++
             ["Step " +:+ str_int (current_step a2) +:+ ": " +:+ step_result])%list
    end
  else ret results.

(** The body of the [async with] block. *)
Definition run_body (fuel : nat) : M World (list string) :=
  results <- run_loop fuel [] ;;
  a <- self ;;
  if max_steps a <=? current_step a then
    assign (set_current_step 0) ;;;
    assign (set_state IDLE) ;;;
    ret (results ++
           ["Terminated: Reached max steps (" +:+ str_int (max_steps a) +:+ ")"])%list
  else ret results.

Definition run (fuel : nat) (request : option string) : M World string :=
  a <- self ;;
  if negb (bool_decide (state a = IDLE)) then
    raise (Exn RuntimeError
             ("Cannot run agent from state: " +:+ str_state (state a)))
  else
    (match request with
     | Some text =>
         if truthy text then update_memory "user" text None None else ret tt
     | None => ret tt
     end) ;;;
    results <- state_context RUNNING (run_body fuel) ;;
    cleanup ;;;
    ret (match results with
         | [] => "No steps executed"
         | _ => join nl results
         end).

(** The world in which the loop of [run] starts: the request is in the
    memory and the state is [RUNNING]. *)
Definition loop_entry (request : option string) (w : World) : World :=
  snd (((match request with
         | Some text =>
             if truthy text then update_memory "user" text None None else ret tt
         | None => ret tt
         end) ;;;
        assign (set_state RUNNING)) w).

End Run.

End Agent.

(** ** app/llm.py: the token counter *)

Module TokenCounter.
Import Py.

Definition BASE_MESSAGE_TOKENS : Z := 4.
Definition FORMAT_TOKENS : Z := 2.
Definition LOW_DETAIL_IMAGE_TOKENS : Z := 85.
Definition HIGH_DETAIL_TILE_TOKENS : Z := 170.

Definition MAX_SIZE : Z := 2048.
Definition HIGH_DETAIL_TARGET_SHORT_SIDE : Z := 768.
Definition TILE_SIZE : Z := 512.

(** Sequencing of computations that may raise. *)
Definition and_then {A B} (m : outcome A) (k : A -> outcome B) : outcome B :=
  match m with
  | Return a => k a
  | Raise e => Raise e
  | OutOfFuel => OutOfFuel
  end.

(** A [dict] inside a content list, by the keys that are read. *)
Record DictItem := {
  item_text : option string;
  item_image_url : option string;
  item_detail : option string;
  item_dimensions : option (Z * Z)
}.

Inductive ContentItem :=
  | ItemStr (s : string)
  | ItemDict (d : DictItem)
  | ItemOther.

Inductive Content :=
  | ContentStr (s : string)
  | ContentList (l : list ContentItem).

Record FunctionDict := {
  function_name : option string;
  function_arguments : option string
}.

Record ToolCallDict := { tool_call_function : option FunctionDict }.

(** A message in the provider format; [None] is an absent key. *)
Record MessageDict := {
  msg_role : option string;
  msg_content : option Content;
  msg_tool_calls : option (list ToolCallDict);
  msg_name : option string;
  msg_tool_call_id : option string;
  msg_base64_image : option string
}.

(** One scaling step: both sides times [scale], truncated. *)
Definition scale_sides (width height : Z) (scale : spec_float)
    : outcome (Z * Z) :=
  and_then (PyFloat.int_mul width scale) (fun w =>
  and_then (PyFloat.to_int w) (fun w' =>
  and_then (PyFloat.int_mul height scale) (fun h =>
  and_then (PyFloat.to_int h) (fun h' =>
  Return (w', h'))))).

(** Step 1 of [_calculate_high_detail_tokens]. *)
Definition fit_max_size (width height : Z) : outcome (Z * Z) :=
  if (MAX_SIZE <? width) || (MAX_SIZE <? height) then
    and_then (PyFloat.true_div MAX_SIZE (Z.max width height)) (fun scale =>
    scale_sides width height scale)
  else Return (width, height).

(** Step 2 of [_calculate_high_detail_tokens]. *)
Definition fit_short_side (width height : Z) : outcome (Z * Z) :=
  and_then
    (PyFloat.true_div HIGH_DETAIL_TARGET_SHORT_SIDE (Z.min width height))
    (fun scale => scale_sides width height scale).

(** [math.ceil(side / TILE_SIZE)] *)
Definition tiles (side : Z) : outcome Z :=
  and_then (PyFloat.true_div side TILE_SIZE) PyFloat.ceil.

Definition _calculate_high_detail_tokens (width height : Z) : outcome Z :=
  and_then (fit_max_size width height) (fun '(width, height) =>
  and_then (fit_short_side width height)
    (fun '(scaled_width, scaled_height) =>
  and_then (tiles scaled_width) (fun tiles_x =>
  and_then (tiles scaled_height) (fun tiles_y =>
  let total_tiles := tiles_x * tiles_y in
  Return (total_tiles * HIGH_DETAIL_TILE_TOKENS + LOW_DETAIL_IMAGE_TOKENS))))).

Definition count_image (image_item : DictItem) : outcome Z :=
  let detail := default "medium" (item_detail image_item) in
  if String.eqb detail "low" then Return LOW_DETAIL_IMAGE_TOKENS
  else
    match
      (if String.eqb detail "high" || String.eqb detail "medium"
       then item_dimensions image_item else None)
    with
    | Some (width, height) => _calculate_high_detail_tokens width height
    | None =>
        if String.eqb detail "high" then
          _calculate_high_detail_tokens 1024 1024
        else if String.eqb detail "medium" then Return 1024
        else Return 1024
    end.

Section Counter.

(** [tokenizer.encode] *)
Variable encode : string -> list nat.

Definition count_text (text : string) : Z :=
  if truthy text then Z.of_nat (length (encode text)) else 0.

Definition count_item (item : ContentItem) : outcome Z :=
  match item with
  | ItemStr text => Return (count_text text)
  | ItemDict d =>
      match item_text d with
      | Some text => Return (count_text text)
      | None =>
          match item_image_url d with
          | Some _ => count_image d
          | None => Return 0
          end
      end
  | ItemOther => Return 0
  end.

Fixpoint count_items (items : list ContentItem) (token_count : Z)
    : outcome Z :=
  match items with
  | [] => Return token_count
  | item :: rest =>
      and_then (count_item item) (fun n => count_items rest (token_count + n))
  end.

Definition count_content (content : Content) : outcome Z :=
  match content with
  | ContentStr text => Return (count_text text)
  | ContentList items => count_items items 0
  end.

Definition count_tool_call (tool_call : ToolCallDict) : Z :=
  match tool_call_function tool_call with
  | Some function =>
      count_text (default "" (function_name function))
      + count_text (default "" (function_arguments function))
  | None => 0
  end.

Fixpoint count_tool_calls (tool_calls : list ToolCallDict) : Z :=
  match tool_calls with
  | [] => 0
  | tool_call :: rest => count_tool_call tool_call + count_tool_calls rest
  end.

Definition count_one_message (message : MessageDict) : outcome Z :=
  and_then
    (match msg_content message with
     | Some content => count_content content
     | None => Return 0
     end)
    (fun content_tokens =>
       Return
         (BASE_MESSAGE_TOKENS
          + count_text (default "" (msg_role message))
          + content_tokens
          + match msg_tool_calls message with
            | Some tool_calls => count_tool_calls tool_calls
            | None => 0
            end
          + count_text (default "" (msg_name message))
          + count_text (default "" (msg_tool_call_id message)))).

Fixpoint count_messages_from (messages : list MessageDict)
    (total_tokens : Z) : outcome Z :=
  match messages with
  | [] => Return total_tokens
  | message :: rest =>
      and_then (count_one_message message) (fun tokens =>
      count_messages_from rest (total_tokens + tokens))
  end.

Definition count_message_tokens (messages : list MessageDict) : outcome Z :=
  count_messages_from messages FORMAT_TOKENS.

End Counter.

End TokenCounter.

(** ** app/llm.py: the model request gateway *)

Module LLM.
Import Py TokenCounter.

Definition REASONING_MODELS : list string := ["o1"; "o3-mini"].

Definition MULTIMODAL_MODELS : list string :=
  ["gpt-4-vision-preview"; "gpt-4o"; "gpt-4o-mini";
   "claude-3-opus-20240229"; "claude-3-sonnet-20240229";
   "claude-3-haiku-20240307"].

(** Modelled from the spec: [ROLE_VALUES] and [TOOL_CHOICE_VALUES] of
    [app/schema.py], the recognised roles and tool-choice strategies. *)
Definition ROLE_VALUES : list string := ["system"; "user"; "assistant"; "tool"].
Definition TOOL_CHOICE_VALUES : list string := ["none"; "auto"; "required"].

(** [x in l] for strings. *)
Definition mem (x : string) (l : list string) : bool :=
  existsb (String.eqb x) l.

Definition Tokenizer : Type := string -> list nat.

(** Modelled from the spec: [LLMSettings] of [app/config.py], by the
    fields that [__init__] reads. *)
Record LLMSettings := {
  settings_model : string;
  settings_max_tokens : Z;
  settings_temperature : spec_float;
  settings_api_type : string;
  settings_api_key : string;
  settings_api_version : string;
  settings_base_url : string;
  settings_max_input_tokens : option Z
}.

Inductive Client :=
  | AsyncAzureOpenAI (base_url api_key api_version : string)
  | BedrockClient
  | AsyncOpenAI (api_key base_url : string).

(** The attributes of an initialised [LLM]. *)
Record LLM := {
  model : string;
  max_tokens : Z;
  temperature : spec_float;
  api_type : string;
  api_key : string;
  api_version : string;
  base_url : string;
  total_input_tokens : Z;
  total_completion_tokens : Z;
  max_input_tokens : option Z;
  tokenizer : Tokenizer
}.

Definition set_totals (input_total completion_total : Z) (l : LLM) : LLM :=
  {| model := model l; max_tokens := max_tokens l;
     temperature := temperature l; api_type := api_type l;
     api_key := api_key l; api_version := api_version l;
     base_url := base_url l;
     total_input_tokens := input_total;
     total_completion_tokens := completion_total;
     max_input_tokens := max_input_tokens l; tokenizer := tokenizer l |}.

Definition count_tokens (l : LLM) (text : string) : Z :=
  if truthy text then Z.of_nat (length (tokenizer l text)) else 0.

Definition count_message_tokens (l : LLM) (messages : list MessageDict)
    : outcome Z :=
  TokenCounter.count_message_tokens (tokenizer l) messages.

Definition update_token_count (input_tokens completion_tokens : Z) (l : LLM)
    : LLM :=
  set_totals (total_input_tokens l + input_tokens)
    (total_completion_tokens l + completion_tokens) l.

Definition check_token_limit (l : LLM) (input_tokens : Z) : bool :=
  match max_input_tokens l with
  | Some limit => total_input_tokens l + input_tokens <=? limit
  | None => true
  end.

Definition get_limit_error_message (l : LLM) (input_tokens : Z) : string :=
  match max_input_tokens l with
  | Some limit =>
      if limit <? total_input_tokens l + input_tokens then
        "Request may exceed input token limit (Current: "
        +:+ str_int (total_input_tokens l)
        +:+ ", Needed: " +:+ str_int input_tokens
        +:+ ", Max: " +:+ str_int limit +:+ ")"
      else "Token limit exceeded"
  | None => "Token limit exceeded"
  end.

(** *** [format_messages] *)

(** An element of the [messages] argument: a [dict], a [Message] (given
    by its [to_dict()]), or a value of another type. *)
Inductive MessageInput :=
  | InDict (d : MessageDict)
  | InMessage (to_dict : MessageDict)
  | InOther (type_name : string).

Definition with_content (c : option Content) (image : option string)
    (m : MessageDict) : MessageDict :=
  {| msg_role := msg_role m; msg_content := c;
     msg_tool_calls := msg_tool_calls m; msg_name := msg_name m;
     msg_tool_call_id := msg_tool_call_id m; msg_base64_image := image |}.

Definition text_item (text : string) : ContentItem :=
  ItemDict {| item_text := Some text; item_image_url := None;
              item_detail := None; item_dimensions := None |}.

Definition image_url_item (url : string) : ContentItem :=
  ItemDict {| item_text := None; item_image_url := Some url;
              item_detail := None; item_dimensions := None |}.

Definition content_is_truthy (c : option Content) : bool :=
  match c with
  | None => false
  | Some (ContentStr text) => truthy text
  | Some (ContentList []) => false
  | Some (ContentList (_ :: _)) => true
  end.

(** The content of a message that carries an image, as a list of parts. *)
Definition content_as_parts (c : option Content) : list ContentItem :=
  if negb (content_is_truthy c) then []
  else
    match c with
    | Some (ContentStr text) => [text_item text]
    | Some (ContentList items) =>
        map (fun item =>
               match item with
               | ItemStr text => text_item text
               | other => other
               end) items
    | None => []
    end.

(** What the loop body does to one message [dict]. *)
Definition format_dict (supports_images : bool) (message : MessageDict)
    : outcome MessageDict :=
  match msg_role message with
  | None => Raise (Exn ValueError "Message dict must contain 'role' field")
  | Some _ =>
      Return
        (if truthy_opt (msg_base64_image message) then
           if supports_images then
             with_content
               (Some (ContentList
                  (content_as_parts (msg_content message)
                   ++ [image_url_item
                         ("data:image/jpeg;base64,"
                          +:+ default "" (msg_base64_image message))])%list))
               None message
           else with_content (msg_content message) None message
         else message)
  end.

Definition is_kept (message : MessageDict) : bool :=
  match msg_content message, msg_tool_calls message with
  | None, None => false
  | _, _ => true
  end.

Fixpoint format_each (supports_images : bool) (messages : list MessageInput)
    : outcome (list MessageDict) :=
  match messages with
  | [] => Return []
  | message :: rest =>
      match message with
      | InDict d | InMessage d =>
          and_then (format_dict supports_images d) (fun d' =>
          and_then (format_each supports_images rest) (fun rest' =>
          Return (if is_kept d' then d' :: rest' else rest')))
      | InOther type_name =>
          Raise (Exn TypeError ("Unsupported message type: " +:+ type_name))
      end
  end.

Fixpoint check_roles (formatted : list MessageDict) : outcome unit :=
  match formatted with
  | [] => Return tt
  | msg :: rest =>
      let r := default "" (msg_role msg) in
      if mem r ROLE_VALUES then check_roles rest
      else Raise (Exn ValueError ("Invalid role: " +:+ r))
  end.

Definition format_messages (messages : list MessageInput)
    (supports_images : bool) : outcome (list MessageDict) :=
  and_then (format_each supports_images messages) (fun formatted =>
  and_then (check_roles formatted) (fun _ => Return formatted)).

(** *** Requests to the provider *)

(** A tool schema: its [str()] and whether it is a [dict] with a
    ["type"] key. *)
Record Tool := {
  tool_str : string;
  tool_has_type : bool
}.

(** The keyword arguments of [client.chat.completions.create]. *)
Record Request := {
  req_model : string;
  req_messages : list MessageDict;
  req_max_tokens : option Z;
  req_max_completion_tokens : option Z;
  req_temperature : option spec_float;
  req_stream : bool;
  req_tools : option (option (list Tool));
  req_tool_choice : option string;
  req_timeout : option Z
}.

Record ToolCall := {
  call_function_name : string;
  call_function_arguments : string
}.

Record ResponseMessage := {
  response_content : option string;
  response_tool_calls : list ToolCall
}.

Record Completion := {
  choices : list (option ResponseMessage);
  usage_prompt_tokens : Z;
  usage_completion_tokens : Z
}.

(** What an [ask] acts on: the gateway, the requests that reached the
    provider (oldest first) and the number of attempts that the retry
    wrapper started. The last two are ghost fields. *)
Record World := {
  llm : LLM;
  requests : list Request;
  attempts : nat
}.

Definition init_world (l : LLM) : World :=
  {| llm := l; requests := []; attempts := 0 |}.

Definition self : M World LLM := fun w => (Return (llm w), w).

Definition assign (f : LLM -> LLM) : M World unit :=
  fun w =>
    (Return tt,
     {| llm := f (llm w); requests := requests w; attempts := attempts w |}).

(** A computation that may raise, run inside [M]. *)
Definition lift {A} (m : outcome A) : M World A := fun w => (m, w).

Definition is_truthy_list {A} (l : option (list A)) : bool :=
  match l with
  | Some (_ :: _) => true
  | _ => false
  end.

Section Gateway.

(** The provider: the reply to the [n]-th request, in plain mode and
    in streaming mode (a chunk is its [delta.content]). *)
Variable create : nat -> Request -> outcome Completion.
Variable create_stream : nat -> Request -> outcome (list (option string)).

(** [str.strip] *)
Variable strip : string -> string.

(** Whether [TokenLimitExceeded] derives from [Exception]. *)
Variable tle_is_exception : bool.

Definition call_create (r : Request) : M World Completion :=
  fun w =>
    (create (length (requests w)) r,
     {| llm := llm w; requests := (requests w ++ [r])%list;
        attempts := attempts w |}).

Definition call_create_stream (r : Request)
    : M World (list (option string)) :=
  fun w =>
    (create_stream (length (requests w)) r,
     {| llm := llm w; requests := (requests w ++ [r])%list;
        attempts := attempts w |}).

(** The formatting of the system and user messages at the head of
    [ask] and [ask_tool]. *)
Definition format_all (l : LLM) (messages : list MessageInput)
    (system_msgs : option (list MessageInput)) : outcome (list MessageDict) :=
  let supports_images := mem (model l) MULTIMODAL_MODELS in
  if is_truthy_list system_msgs then
    and_then (format_messages (default [] system_msgs) supports_images)
      (fun system_msgs' =>
    and_then (format_messages messages supports_images) (fun messages' =>
    Return (system_msgs' ++ messages')%list))
  else format_messages messages supports_images.

Definition base_params (l : LLM) (messages : list MessageDict)
    (temperature : option spec_float) (stream : bool)
    (tools : option (option (list Tool))) (tool_choice : option string)
    (timeout : option Z) : Request :=
  let reasoning := mem (model l) REASONING_MODELS in
  {| req_model := model l;
     req_messages := messages;
     req_max_tokens := if reasoning then None else Some (max_tokens l);
     req_max_completion_tokens :=
       if reasoning then Some (max_tokens l) else None;
     req_temperature :=
       if reasoning then None
       else Some (default (LLM.temperature l) temperature);
     req_stream := stream;
     req_tools := tools;
     req_tool_choice := tool_choice;
     req_timeout := timeout |}.

Definition first_content (response : Completion) : option string :=
  match choices response with
  | [] => None
  | None :: _ => None
  | Some message :: _ => response_content message
  end.

(** One attempt of [ask]. Its [except] clauses log and re-raise. *)
Definition ask_once (messages : list MessageInput)
    (system_msgs : option (list MessageInput)) (stream : bool)
    (temperature : option spec_float) : M World string :=
  l <- self ;;
  messages <- lift (format_all l messages system_msgs) ;;
  input_tokens <- lift (count_message_tokens l messages) ;;
  if negb (check_token_limit l input_tokens) then
    raise (Exn TokenLimitExceeded (get_limit_error_message l input_tokens))
  else
    let params := base_params l messages temperature stream None None None in
    if negb stream then
      response <- call_create params ;;
      match first_content response with
      | Some text =>
          if truthy text then
            assign (update_token_count (usage_prompt_tokens response)
                      (usage_completion_tokens response)) ;;;
            ret text
          else raise (Exn ValueError "Empty or invalid response from LLM")
      | None => raise (Exn ValueError "Empty or invalid response from LLM")
      end
    else
      assign (update_token_count input_tokens 0) ;;;
      chunks <- call_create_stream params ;;
      let collected_messages := map (default "") chunks in
      let completion_text := join "" collected_messages in
      let full_response := strip (join "" collected_messages) in
      if negb (truthy full_response) then
        raise (Exn ValueError "Empty response from streaming LLM")
      else
        l' <- self ;;
        let completion_tokens := count_tokens l' completion_text in
        assign (fun l =>
          set_totals (total_input_tokens l)
            (total_completion_tokens l + completion_tokens) l) ;;;
        ret full_response.

Fixpoint count_tools (l : LLM) (tools : list Tool) (tools_tokens : Z) : Z :=
  match tools with
  | [] => tools_tokens
  | t :: rest => count_tools l rest (tools_tokens + count_tokens l (tool_str t))
  end.

(** One attempt of [ask_tool], without extra keyword arguments. *)
Definition ask_tool_once (messages : list MessageInput)
    (system_msgs : option (list MessageInput)) (timeout : Z)
    (tools : option (list Tool)) (tool_choice : string)
    (temperature : option spec_float) : M World (option ResponseMessage) :=
  if negb (mem tool_choice TOOL_CHOICE_VALUES) then
    raise (Exn ValueError ("Invalid tool_choice: " +:+ tool_choice))
  else
    l <- self ;;
    messages <- lift (format_all l messages system_msgs) ;;
    input_tokens <- lift (count_message_tokens l messages) ;;
    let tools_tokens :=
      if is_truthy_list tools then count_tools l (default [] tools) 0 else 0 in
    let input_tokens := input_tokens + tools_tokens in
    if negb (check_token_limit l input_tokens) then
      raise (Exn TokenLimitExceeded (get_limit_error_message l input_tokens))
    else if negb (forallb tool_has_type (default [] tools)) then
      raise (Exn ValueError "Each tool must be a dict with 'type' field")
    else
      let params :=
        base_params l messages temperature false (Some tools)
          (Some tool_choice) (Some timeout) in
      response <- call_create params ;;
      match choices response with
      | Some message :: _ =>
          assign (update_token_count (usage_prompt_tokens response)
                    (usage_completion_tokens response)) ;;;
          ret (Some message)
      | _ => ret None
      end.

(** *** The [@retry] decorator *)

Definition isinstance_OpenAIError (e : exn) : bool :=
  exn_has_class OpenAIError e || exn_has_class AuthenticationError e
  || exn_has_class RateLimitError e || exn_has_class APIError e.

(** [retry_if_exception_type((OpenAIError, Exception, ValueError))] *)
Definition retry_predicate (e : exn) : bool :=
  isinstance_OpenAIError e
  || isinstance_Exception tle_is_exception e
  || exn_has_class ValueError e.

Definition start_attempt : M World unit :=
  fun w =>
    (Return tt,
     {| llm := llm w; requests := requests w; attempts := S (attempts w) |}).

(** tenacity's loop: an attempt whose exception the predicate accepts is
    repeated while [remaining] further attempts are allowed, and ends
    in [RetryError] when none is; any other exception is raised as it
    is. The waits between attempts are not represented. *)
Fixpoint retrying {A} (remaining : nat) (attempt : M World A) : M World A :=
  start_attempt ;;;
  try_except attempt retry_predicate
    (fun e =>
       match remaining with
       | O => raise (RetryError e)
       | S remaining' => retrying remaining' attempt
       end).

(** [stop_after_attempt(6)] *)
Definition max_attempts : nat := 6.

Definition ask (messages : list MessageInput)
    (system_msgs : option (list MessageInput)) (stream : bool)
    (temperature : option spec_float) : M World string :=
  retrying (max_attempts - 1)
    (ask_once messages system_msgs stream temperature).

Definition ask_tool (messages : list MessageInput)
    (system_msgs : option (list MessageInput)) (timeout : Z)
    (tools : option (list Tool)) (tool_choice : string)
    (temperature : option spec_float) : M World (option ResponseMessage) :=
  retrying (max_attempts - 1)
    (ask_tool_once messages system_msgs timeout tools tool_choice
       temperature).

End Gateway.

(** *** The instances of [LLM] *)

(** An object of class [LLM]: before [__init__] it has no attribute;
    [obj_client] is its [client] attribute. *)
Record Obj := {
  obj_attrs : option LLM;
  obj_client : option Client
}.

(** The class attribute [_instances] and the objects allocated so far;
    an object is identified by its position in [heap]. *)
Record Registry := {
  _instances : gmap string nat;
  heap : list Obj
}.

Definition set_obj (loc : nat) (o : Obj) : M Registry unit :=
  modify (fun r =>
    {| _instances := _instances r; heap := <[loc := o]> (heap r) |}).

Section Construction.

(** [config.llm] *)
Variable config_llm : gmap string LLMSettings.

(** [tiktoken.encoding_for_model], [None] for its [KeyError], and the
    [cl100k_base] encoding. *)
Variable encoding_for_model : string -> option Tokenizer.
Variable cl100k_base : Tokenizer.

(** The exception, if any, that the constructor of a client raises. *)
Variable client_error : Client -> option exn.

Definition is_truthy_map (m : option (gmap string LLMSettings)) : bool :=
  match m with
  | Some m => negb (bool_decide (m = ∅))
  | None => false
  end.

Definition make_client (l : LLM) : Client :=
  if String.eqb (api_type l) "azure" then
    AsyncAzureOpenAI (base_url l) (api_key l) (api_version l)
  else if String.eqb (api_type l) "aws" then BedrockClient
  else AsyncOpenAI (api_key l) (base_url l).

Definition __init__ (loc : nat) (config_name : string)
    (llm_config : option (gmap string LLMSettings)) : M Registry unit :=
  r <- get ;;
  match heap r !! loc with
  | None => raise (Exn OtherException "no such object")
  | Some o =>
      match obj_client o with
      | Some _ => ret tt
      | None =>
          let llm_config :=
            if is_truthy_map llm_config then default ∅ llm_config
            else config_llm in
          match llm_config !! "default" with
          | None => raise (Exn KeyError "'default'")
          | Some fallback =>
              let llm_config := default fallback (llm_config !! config_name) in
              let attrs :=
                {| model := settings_model llm_config;
                   max_tokens := settings_max_tokens llm_config;
                   temperature := settings_temperature llm_config;
                   api_type := settings_api_type llm_config;
                   api_key := settings_api_key llm_config;
                   api_version := settings_api_version llm_config;
                   base_url := settings_base_url llm_config;
                   total_input_tokens := 0;
                   total_completion_tokens := 0;
                   max_input_tokens := settings_max_input_tokens llm_config;
                   tokenizer :=
                     default cl100k_base
                       (encoding_for_model (settings_model llm_config)) |} in
              set_obj loc {| obj_attrs := Some attrs; obj_client := None |} ;;;
              let client := make_client attrs in
              match client_error client with
              | Some e => raise e
              | None =>
                  set_obj loc
                    {| obj_attrs := Some attrs; obj_client := Some client |}
              end
          end
      end
  end.

Definition __new__ (config_name : string)
    (llm_config : option (gmap string LLMSettings)) : M Registry nat :=
  r <- get ;;
  match _instances r !! config_name with
  | Some loc => ret loc
  | None =>
      let instance := length (heap r) in
      put {| _instances := _instances r;
             heap := (heap r ++ [{| obj_attrs := None; obj_client := None |}])%list |} ;;;
      __init__ instance config_name llm_config ;;;
      modify (fun r =>
        {| _instances := <[config_name := instance]> (_instances r);
           heap := heap r |}) ;;;
      ret instance
  end.

(** The expression [LLM(config_name, llm_config)]: [__new__], then
    [__init__] on the object that it returned. *)
Definition construct (config_name : string)
    (llm_config : option (gmap string LLMSettings)) : M Registry nat :=
  instance <- __new__ config_name llm_config ;;
  __init__ instance config_name llm_config ;;;
  ret instance.

(** [update_token_count] on the object at [loc]. *)
Definition update_object (loc : nat) (input_tokens completion_tokens : Z)
    : M Registry unit :=
  r <- get ;;
  match heap r !! loc with
  | Some {| obj_attrs := Some attrs; obj_client := c |} =>
      set_obj loc
        {| obj_attrs :=
             Some (update_token_count input_tokens completion_tokens attrs);
           obj_client := c |}
  | _ => raise (Exn OtherException "no such attribute")
  end.

End Construction.

End LLM.

(** ** app/llm.py: [ask_with_images] *)

Module LLMImages.
Import Py TokenCounter LLM.

(** An element of the [images] argument: a [str], a [dict] (given by
    its ["url"] key if it has one, by the keys that the token counter
    reads, and by its [str()]), or a value of another type. *)
Inductive ImageInput :=
  | ImageStr (url : string)
  | ImageDict (url : option string) (d : DictItem) (repr : string)
  | ImageOther (repr : string).

(** [str(l)] of a list of plain strings. *)
Definition str_list (l : list string) : string :=
  "[" +:+ join ", " (map (fun s => "'" +:+ s +:+ "'") l) +:+ "]".

(** The loop that appends the images to the content of the message. *)
Fixpoint attach_images (images : list ImageInput)
    (multimodal_content : list ContentItem) : outcome (list ContentItem) :=
  match images with
  | [] => Return multimodal_content
  | image :: rest =>
      match image with
      | ImageStr url =>
          attach_images rest (multimodal_content ++ [image_url_item url])%list
      | ImageDict (Some url) _ _ =>
          attach_images rest (multimodal_content ++ [image_url_item url])%list
      | ImageDict None d repr =>
          match item_image_url d with
          | Some _ =>
              attach_images rest (multimodal_content ++ [ItemDict d])%list
          | None =>
              Raise (Exn ValueError ("Unsupported image format: " +:+ repr))
          end
      | ImageOther repr =>
          Raise (Exn ValueError ("Unsupported image format: " +:+ repr))
      end
  end.

Section Gateway.

Variable create : nat -> Request -> outcome Completion.
Variable create_stream : nat -> Request -> outcome (list (option string)).
Variable strip : string -> string.
Variable tle_is_exception : bool.

(** One attempt of [ask_with_images]. Its [except] clauses log and
    re-raise. *)
Definition ask_with_images_once (messages : list MessageInput)
    (images : list ImageInput) (system_msgs : option (list MessageInput))
    (stream : bool) (temperature : option spec_float) : M World string :=
  l <- self ;;
  if negb (mem (model l) MULTIMODAL_MODELS) then
    raise (Exn ValueError
             ("Model " +:+ model l
              +:+ " does not support images. Use a model from "
              +:+ str_list MULTIMODAL_MODELS))
  else
    formatted_messages <- lift (format_messages messages true) ;;
    match last formatted_messages with
    | None =>
        raise (Exn ValueError
                 "The last message must be from the user to attach images")
    | Some last_message =>
        if negb (String.eqb (default "" (msg_role last_message)) "user") then
          raise (Exn ValueError
                   "The last message must be from the user to attach images")
        else
          match msg_content last_message with
          | None => raise (Exn KeyError "'content'")
          | Some content =>
              let multimodal_content :=
                match content with
                | ContentStr text => [text_item text]
                | ContentList items => items
                end in
              multimodal_content <-
                lift (attach_images images multimodal_content) ;;
              let formatted_messages :=
                (removelast formatted_messages
                 ++ [with_content (Some (ContentList multimodal_content))
                       (msg_base64_image last_message) last_message])%list in
              all_messages <-
                lift (if is_truthy_list system_msgs then
                        and_then (format_messages (default [] system_msgs) true)
                          (fun system_msgs' =>
                             Return (system_msgs' ++ formatted_messages)%list)
                      else Return formatted_messages) ;;
              input_tokens <- lift (count_message_tokens l all_messages) ;;
              if negb (check_token_limit l input_tokens) then
                raise (Exn TokenLimitExceeded
                         (get_limit_error_message l input_tokens))
              else
                let params :=
                  base_params l all_messages temperature stream None None
                    None in
                if negb stream then
                  response <- call_create create params ;;
                  match first_content response with
                  | Some text =>
                      if truthy text then
                        assign (update_token_count
                                  (usage_prompt_tokens response) 0) ;;;
                        ret text
                      else
                        raise (Exn ValueError
                                 "Empty or invalid response from LLM")
                  | None =>
                      raise (Exn ValueError
                               "Empty or invalid response from LLM")
                  end
                else
                  assign (update_token_count input_tokens 0) ;;;
                  chunks <- call_create_stream create_stream params ;;
                  let collected_messages := map (default "") chunks in
                  let full_response := strip (join "" collected_messages) in
                  if negb (truthy full_response) then
                    raise (Exn ValueError "Empty response from streaming LLM")
                  else ret full_response
          end
    end.

(** [ask_with_images] under its [@retry] decorator. An attempt stores
    the content with the images in the last message, which for a
    message given as a [dict] is the caller's own: [messages_at n] is
    the [messages] argument as the attempt numbered [n] finds it. *)
Definition ask_with_images (messages_at : nat -> list MessageInput)
    (images : list ImageInput) (system_msgs : option (list MessageInput))
    (stream : bool) (temperature : option spec_float) : M World string :=
  retrying tle_is_exception (max_attempts - 1)
    (fun w =>
       ask_with_images_once (messages_at (attempts w)) images system_msgs
         stream temperature w).

End Gateway.

End LLMImages.

(** ** app/flow/planning.py *)

Module Planning.
Import Py.

Inductive PlanStepStatus := NOT_STARTED | IN_PROGRESS | COMPLETED | BLOCKED.

Global Instance PlanStepStatus_eq_dec : EqDecision PlanStepStatus.
Proof. solve_decision. Defined.

Definition value (s : PlanStepStatus) : string :=
  match s with
  | NOT_STARTED => "not_started"
  | IN_PROGRESS => "in_progress"
  | COMPLETED => "completed"
  | BLOCKED => "blocked"
  end.

Definition get_all_statuses : list PlanStepStatus :=
  [NOT_STARTED; IN_PROGRESS; COMPLETED; BLOCKED].

Definition get_active_statuses : list PlanStepStatus :=
  [NOT_STARTED; IN_PROGRESS].

Definition get_status_marks : list (PlanStepStatus * string) :=
  [(COMPLETED, "[✓]"); (IN_PROGRESS, "[→]"); (BLOCKED, "[!]");
   (NOT_STARTED, "[ ]")].

(** [status in statuses] *)
Definition status_in (status : PlanStepStatus) (statuses : list PlanStepStatus)
    : bool :=
  existsb (fun s => bool_decide (s = status)) statuses.

(** [marks.get(status)] *)
Fixpoint marks_get (marks : list (PlanStepStatus * string))
    (status : PlanStepStatus) : option string :=
  match marks with
  | [] => None
  | (s, mark) :: rest =>
      if bool_decide (s = status) then Some mark else marks_get rest status
  end.

(** A plan as the planning tool stores it: a [dict] whose keys may be
    absent. *)
Record PlanData := {
  title : option string;
  steps : option (list string);
  step_statuses : option (list PlanStepStatus);
  step_notes : option (list string)
}.

Definition set_step_statuses (l : option (list PlanStepStatus))
    (p : PlanData) : PlanData :=
  {| title := title p; steps := steps p; step_statuses := l;
     step_notes := step_notes p |}.

Definition set_step_notes (l : option (list string)) (p : PlanData)
    : PlanData :=
  {| title := title p; steps := steps p; step_statuses := step_statuses p;
     step_notes := l |}.

(** The keyword arguments of [planning_tool.execute]. *)
Record ToolArgs := {
  arg_command : option string;
  arg_plan_id : option string;
  arg_title : option string;
  arg_steps : option (list string);
  arg_step_index : option Z;
  arg_step_status : option string
}.

Definition with_plan_id (id : string) (a : ToolArgs) : ToolArgs :=
  {| arg_command := arg_command a; arg_plan_id := Some id;
     arg_title := arg_title a; arg_steps := arg_steps a;
     arg_step_index := arg_step_index a;
     arg_step_status := arg_step_status a |}.

Definition mark_step_args (id : string) (index : nat)
    (status : PlanStepStatus) : ToolArgs :=
  {| arg_command := Some "mark_step"; arg_plan_id := Some id;
     arg_title := None; arg_steps := None;
     arg_step_index := Some (Z.of_nat index);
     arg_step_status := Some (value status) |}.

Definition get_args (id : string) : ToolArgs :=
  {| arg_command := Some "get"; arg_plan_id := Some id;
     arg_title := None; arg_steps := None; arg_step_index := None;
     arg_step_status := None |}.

Definition create_args (id plan_title : string) (plan_steps : list string)
    : ToolArgs :=
  {| arg_command := Some "create"; arg_plan_id := Some id;
     arg_title := Some plan_title; arg_steps := Some plan_steps;
     arg_step_index := None; arg_step_status := None |}.

(** The arguments of a tool call: structured, or text to be parsed. *)
Inductive Arguments :=
  | ArgsDict (d : ToolArgs)
  | ArgsText (text : string).

Record ToolCall := {
  function_name : string;
  function_arguments : Arguments
}.

(** The result of [json.loads]. *)
Inductive Json :=
  | JSONDecodeError
  | JsonDict (d : ToolArgs)
  | JsonOther.

(** The step information: its text and its optional type. *)
Record StepInfo := {
  info_text : string;
  info_type : option string
}.

(** *** The step type: a bracketed tag of capitals and underscores *)

Definition is_tag_char (c : ascii) : bool :=
  let n := nat_of_ascii c in
  ((65 <=? n)%nat && (n <=? 90)%nat) || (n =? 95)%nat.

(** The longest run of tag characters at the head, and what follows. *)
Fixpoint take_tag (s : string) : string * string :=
  match s with
  | String c rest =>
      if is_tag_char c then
        let '(tag, after) := take_tag rest in (String c tag, after)
      else ("", s)
  | EmptyString => ("", "")
  end.

Fixpoint search_tag (s : string) : option string :=
  match s with
  | EmptyString => None
  | String c rest =>
      if (nat_of_ascii c =? 91)%nat then
        match take_tag rest with
        | (String t tag, String close _) =>
            if (nat_of_ascii close =? 93)%nat then Some (String t tag)
            else search_tag rest
        | _ => search_tag rest
        end
      else search_tag rest
  end.

(** [str.lower] on a tag. *)
Definition lower_char (c : ascii) : ascii :=
  let n := nat_of_ascii c in
  if ((65 <=? n)%nat && (n <=? 90)%nat) then ascii_of_nat (n + 32) else c.

Fixpoint lower (s : string) : string :=
  match s with
  | EmptyString => EmptyString
  | String c rest => String (lower_char c) (lower rest)
  end.

Definition step_info_of (step : string) : StepInfo :=
  {| info_text := step; info_type := lower <$> search_tag step |}.

(** *** Rendering of a plan *)

(** [status_counts[status]] after the counting loop. *)
Definition status_count (status : PlanStepStatus)
    (statuses : list PlanStepStatus) : Z :=
  count_if (fun s => status_in s get_all_statuses && bool_decide (s = status))
    statuses.

(** [while len(l) < n: l.append(x)] *)
Definition pad {A} (n : nat) (x : A) (l : list A) : list A :=
  (l ++ replicate (n - length l) x)%list.

(** [(completed / total) * 100 if total > 0 else 0] *)
Definition progress_of (completed total : Z) : outcome PyFloat.number :=
  if 0 <? total then
    TokenCounter.and_then (PyFloat.true_div completed total) (fun q =>
    TokenCounter.and_then (PyFloat.int_mul 100 q) (fun x =>
    Return (PyFloat.NFloat x)))
  else Return (PyFloat.NInt 0).

(** The lines of the steps: the loop over [zip(steps, statuses, notes)]. *)
Fixpoint render_steps (i : nat) (steps : list string)
    (statuses : list PlanStepStatus) (notes : list string) : string :=
  match steps, statuses, notes with
  | step :: steps', status :: statuses', note :: notes' =>
      let status_mark :=
        default (default "" (marks_get get_status_marks NOT_STARTED))
          (marks_get get_status_marks status) in
      str_int (Z.of_nat i) +:+ ". " +:+ status_mark +:+ " " +:+ step +:+ nl
      +:+ (if truthy note then "   Notes: " +:+ note +:+ nl else "")
      +:+ render_steps (S i) steps' statuses' notes'
  | _, _, _ => ""
  end.

Definition header_line (plan_id : string) (plan : PlanData) : string :=
  "Plan: " +:+ default "Untitled Plan" (title plan)
  +:+ " (ID: " +:+ plan_id +:+ ")" +:+ nl.

Definition progress_line (completed total : Z) (progress : PyFloat.number)
    : string :=
  "Progress: " +:+ str_int completed +:+ "/" +:+ str_int total
  +:+ " steps completed (" +:+ PyFloat.format_1f progress +:+ "%)" +:+ nl.

Definition status_line (statuses : list PlanStepStatus) : string :=
  "Status: " +:+ str_int (status_count COMPLETED statuses)
  +:+ " completed, " +:+ str_int (status_count IN_PROGRESS statuses)
  +:+ " in progress, " +:+ str_int (status_count BLOCKED statuses)
  +:+ " blocked, " +:+ str_int (status_count NOT_STARTED statuses)
  +:+ " not started" +:+ nl +:+ nl.

(** The text that [_generate_plan_text_from_storage] builds from a
    stored plan. *)
Definition plan_text_of (plan_id : string) (plan : PlanData)
    : outcome string :=
  let steps := default [] (steps plan) in
  let step_statuses :=
    pad (length steps) NOT_STARTED (default [] (step_statuses plan)) in
  let step_notes := pad (length steps) "" (default [] (step_notes plan)) in
  let completed := status_count COMPLETED step_statuses in
  let total := Z.of_nat (length steps) in
  TokenCounter.and_then (progress_of completed total) (fun progress =>
  let plan_text := header_line plan_id plan in
  Return
    (plan_text +:+ repeat_str "=" (len plan_text) +:+ nl +:+ nl
     +:+ progress_line completed total progress
     +:+ status_line step_statuses
     +:+ "Steps:" +:+ nl
     +:+ render_steps 0 steps step_statuses step_notes)).

(** The padding of the stored lists, which the function appends to in
    place; a list that is absent from the plan is not stored. *)
Definition padded (plan : PlanData) : PlanData :=
  let n := length (default [] (steps plan)) in
  {| title := title plan; steps := steps plan;
     step_statuses := pad n NOT_STARTED <$> step_statuses plan;
     step_notes := pad n "" <$> step_notes plan |}.

(** *** The flow *)

(** The fields of a [PlanningFlow] that stay fixed during [execute]. An
    agent is identified by a number; [primary_agent] is [None] when no
    primary agent is configured (the property belongs to [BaseFlow],
    which is not among the sources). *)
Record PlanningFlow := {
  agents : gmap string nat;
  primary_agent : option nat;
  executor_keys : list string;
  active_plan_id : string
}.

Definition get_executor (flow : PlanningFlow) (step_type : option string)
    : option nat :=
  match (if truthy_opt step_type then agents flow !! default "" step_type
         else None) with
  | Some executor => Some executor
  | None =>
      match omap (fun key => agents flow !! key) (executor_keys flow) with
      | executor :: _ => Some executor
      | [] => primary_agent flow
      end
  end.

Section Flow.

(** The state of the collaborators: the agents, the gateway, what the
    planning tool keeps besides its plans. *)
Context {E : Type}.

(** What [execute] acts on: [planning_tool.plans], the field
    [current_step_index], and the collaborators. *)
Record World := {
  plans : gmap string PlanData;
  current_step_index : option nat;
  env : E
}.

Variable flow : PlanningFlow.

(** [planning_tool.execute] on keyword arguments, giving the text of
    its result. *)
Variable planning_tool : ToolArgs -> M World string.

(** [llm.ask_tool] for a user and a system text with the planning
    tool offered: the tool calls of the reply, [None] for no reply. *)
Variable llm_ask_tool : string -> string -> M World (option (list ToolCall)).

(** [llm.ask] for a user and a system text. *)
Variable llm_ask : string -> string -> M World string.

Variable json_loads : string -> Json.

(** [agent.run(prompt)] and [agent.state] of an agent. *)
Variable agent_run : nat -> string -> M World string.
Variable agent_state : nat -> E -> Agent.AgentState.

(** [except Exception]: every class of the flow's collaborators that
    is not a bare [BaseException] is caught. *)
Definition catches_Exception : exn -> bool := isinstance_Exception true.

Definition set_plans (f : gmap string PlanData -> gmap string PlanData)
    : M World unit :=
  modify (fun w =>
    {| plans := f (plans w); current_step_index := current_step_index w;
       env := env w |}).

Definition set_current_step_index (i : option nat) : M World unit :=
  modify (fun w =>
    {| plans := plans w; current_step_index := i; env := env w |}).

(** The tool calls of the reply, in order, up to the first one that
    creates the plan; [false] when none does. *)
Fixpoint apply_tool_calls (tool_calls : list ToolCall) : M World bool :=
  match tool_calls with
  | [] => ret false
  | tool_call :: rest =>
      if String.eqb (function_name tool_call) "planning" then
        let parsed :=
          match function_arguments tool_call with
          | ArgsDict d => JsonDict d
          | ArgsText text => json_loads text
          end in
        match parsed with
        | JSONDecodeError => apply_tool_calls rest
        | JsonDict args =>
            planning_tool (with_plan_id (active_plan_id flow) args) ;;;
            ret true
        | JsonOther =>
            raise (Exn TypeError "object does not support item assignment")
        end
      else apply_tool_calls rest
  end.

Definition planning_system_text : string :=
  "You are a planning assistant. Create a concise, actionable plan with clear steps. Focus on key milestones rather than detailed sub-steps. Optimize for clarity and efficiency.".

Definition _create_initial_plan (request : string) : M World unit :=
  response <-
    llm_ask_tool
      ("Create a reasonable plan with clear steps to accomplish the task: "
       +:+ request)
      planning_system_text ;;
  match response with
  | None =>
      raise (Exn AttributeError
               "'NoneType' object has no attribute 'tool_calls'")
  | Some tool_calls =>
      created <- apply_tool_calls tool_calls ;;
      if created then ret tt
      else
        planning_tool
          (create_args (active_plan_id flow)
             ("Plan for: " +:+ prefix_chars 50 request
              +:+ (if (50 <? len request)%nat then "..." else ""))
             ["Analyze request"; "Execute task"; "Verify results"]) ;;;
        ret tt
  end.

(** The direct update of the statuses when the tool fails to mark
    step [i] as in progress: the list read before the call, updated,
    is stored in the plan. *)
Definition mark_in_progress_directly (i : nat)
    (step_statuses : list PlanStepStatus) : list PlanStepStatus :=
  if (i <? length step_statuses)%nat then <[i := IN_PROGRESS]> step_statuses
  else (pad i NOT_STARTED step_statuses ++ [IN_PROGRESS])%list.

(** The loop over [enumerate(steps)], from index [i] on. *)
Fixpoint scan_steps (i : nat) (steps : list string)
    (step_statuses : list PlanStepStatus)
    : M World (option nat * option StepInfo) :=
  match steps with
  | [] => ret (None, None)
  | step :: rest =>
      let status := default NOT_STARTED (step_statuses !! i) in
      if status_in status get_active_statuses then
        let step_info := step_info_of step in
        try_except
          (planning_tool (mark_step_args (active_plan_id flow) i IN_PROGRESS) ;;;
           ret tt)
          catches_Exception
          (fun _ =>
             set_plans
               (alter
                  (set_step_statuses
                     (Some (mark_in_progress_directly i step_statuses)))
                  (active_plan_id flow))) ;;;
        ret (Some i, Some step_info)
      else scan_steps (S i) rest step_statuses
  end.

Definition _get_current_step_info : M World (option nat * option StepInfo) :=
  w <- get ;;
  if negb (truthy (active_plan_id flow)) then ret (None, None)
  else
    match plans w !! active_plan_id flow with
    | None => ret (None, None)
    | Some plan_data =>
        try_except
          (scan_steps 0 (default [] (steps plan_data))
             (default [] (step_statuses plan_data)))
          catches_Exception
          (fun _ => ret (None, None))
    end.

Definition plan_not_found_text : string :=
  "Error: Plan with ID " +:+ active_plan_id flow +:+ " not found".

Definition plan_unavailable_text : string :=
  "Error: Unable to retrieve plan with ID " +:+ active_plan_id flow.

Definition _generate_plan_text_from_storage : M World string :=
  w <- get ;;
  match plans w !! active_plan_id flow with
  | None => ret plan_not_found_text
  | Some plan_data =>
      set_plans (<[active_plan_id flow := padded plan_data]>) ;;;
      match plan_text_of (active_plan_id flow) plan_data with
      | Return plan_text => ret plan_text
      | Raise e =>
          if catches_Exception e then ret plan_unavailable_text else raise e
      | OutOfFuel => out_of_fuel
      end
  end.

Definition _get_plan_text : M World string :=
  try_except (planning_tool (get_args (active_plan_id flow)))
    catches_Exception
    (fun _ => _generate_plan_text_from_storage).

(** The direct update of the statuses when the tool fails to mark the
    current step as completed. *)
Definition mark_completed_directly (i : nat) (plan_data : PlanData)
    : PlanData :=
  set_step_statuses
    (Some (<[i := COMPLETED]>
             (pad (S i) NOT_STARTED (default [] (step_statuses plan_data)))))
    plan_data.

Definition _mark_step_completed : M World unit :=
  w <- get ;;
  match current_step_index w with
  | None => ret tt
  | Some i =>
      try_except
        (planning_tool (mark_step_args (active_plan_id flow) i COMPLETED) ;;;
         ret tt)
        catches_Exception
        (fun _ => set_plans (alter (mark_completed_directly i)
                               (active_plan_id flow)))
  end.

Definition indent8 : string := "        ".
Definition indent16 : string := indent8 +:+ indent8.

Definition step_prompt_of (plan_status : string) (index : option nat)
    (step_text : string) : string :=
  nl +:+ indent8 +:+ "CURRENT PLAN STATUS:" +:+ nl
  +:+ indent8 +:+ plan_status +:+ nl
  +:+ nl
  +:+ indent8 +:+ "YOUR CURRENT TASK:" +:+ nl
  +:+ indent8 +:+ "You are now working on step "
  +:+ str_opt (str_int <$> (Z.of_nat <$> index)) +:+ ": "
  +:+ dquote +:+ step_text +:+ dquote +:+ nl
  +:+ nl
  +:+ indent8
  +:+ "Please execute this step using the appropriate tools. When you're done, provide a summary of what you accomplished."
  +:+ nl +:+ indent8.

Definition _execute_step (executor : option nat)
    (step_info : option StepInfo) : M World string :=
  plan_status <- _get_plan_text ;;
  w <- get ;;
  match step_info with
  | None =>
      raise (Exn AttributeError "'NoneType' object has no attribute 'get'")
  | Some info =>
      let step_text := info_text info in
      let step_prompt :=
        step_prompt_of plan_status (current_step_index w) step_text in
      try_except
        (step_result <-
           match executor with
           | Some a => agent_run a step_prompt
           | None =>
               raise (Exn AttributeError
                        "'NoneType' object has no attribute 'run'")
           end ;;
         _mark_step_completed ;;;
         ret step_result)
        catches_Exception
        (fun e =>
           w' <- get ;;
           ret ("Error executing step "
                +:+ str_opt (str_int <$> (Z.of_nat <$> current_step_index w'))
                +:+ ": " +:+ str_exn e))
  end.

Definition summary_system_text : string :=
  "You are a planning assistant. Your task is to summarize the completed plan.".

Definition summary_user_text (plan_text : string) : string :=
  "The plan has been completed. Here is the final plan status:"
  +:+ nl +:+ nl +:+ plan_text +:+ nl +:+ nl
  +:+ "Please provide a summary of what was accomplished and any final thoughts.".

Definition summary_prompt_of (plan_text : string) : string :=
  nl +:+ indent16
  +:+ "The plan has been completed. Here is the final plan status:" +:+ nl
  +:+ nl
  +:+ indent16 +:+ plan_text +:+ nl
  +:+ nl
  +:+ indent16
  +:+ "Please provide a summary of what was accomplished and any final thoughts."
  +:+ nl +:+ indent16.

Definition _finalize_plan : M World string :=
  plan_text <- _get_plan_text ;;
  try_except
    (response <- llm_ask (summary_user_text plan_text) summary_system_text ;;
     ret ("Plan completed:" +:+ nl +:+ nl +:+ response))
    catches_Exception
    (fun _ =>
       try_except
         (summary <-
            match primary_agent flow with
            | Some agent => agent_run agent (summary_prompt_of plan_text)
            | None =>
                raise (Exn AttributeError
                         "'NoneType' object has no attribute 'run'")
            end ;;
          ret ("Plan completed:" +:+ nl +:+ nl +:+ summary))
         catches_Exception
         (fun _ => ret "Plan completed. Error generating summary.")).

(** The [while True] loop of [execute]; [result] is the text so far. *)
Fixpoint execute_loop (fuel : nat) (result : string) : M World string :=
  match fuel with
  | O => out_of_fuel
  | S fuel' =>
      step <- _get_current_step_info ;;
      let '(index, step_info) := step in
      set_current_step_index index ;;;
      match index with
      | None =>
          summary <- _finalize_plan ;;
          ret (result +:+ summary)
      | Some _ =>
          let step_type :=
            match step_info with
            | Some info => info_type info
            | None => None
            end in
          let executor := get_executor flow step_type in
          step_result <- _execute_step executor step_info ;;
          let result := result +:+ step_result +:+ nl in
          w <- get ;;
          match executor with
          | Some a =>
              if bool_decide (agent_state a (env w) = Agent.FINISHED)
              then ret result
              else execute_loop fuel' result
          | None => execute_loop fuel' result
          end
      end
  end.

Definition execute (fuel : nat) (input_text : string) : M World string :=
  try_except
    (match primary_agent flow with
     | None => raise (Exn ValueError "No primary agent available")
     | Some _ =>
         created <-
           (if truthy input_text then
              _create_initial_plan input_text ;;;
              w <- get ;;
              ret (bool_decide (is_Some (plans w !! active_plan_id flow)))
            else ret true) ;;
         if negb created then
           ret ("Failed to create plan for: " +:+ input_text)
         else execute_loop fuel ""
     end)
    catches_Exception
    (fun e => ret ("Execution failed: " +:+ str_exn e)).

End Flow.

End Planning.

(** ** Statements compared with the code, and sample inputs *)

Module Samples.
Import Py Agent.

(** The characterisation of [is_stuck] without the test on the number of
    messages: the last message has content and enough of the messages
    before it are duplicates of it. *)
Definition stuck_by_count (a : BaseAgent) : Prop :=
  exists prior last_message,
    memory a = (prior ++ [last_message])%list
    /\ truthy_opt (content last_message) = true
    /\ duplicate_threshold a <= count_if (is_duplicate_of last_message) prior.

(** A [step] that leaves the counters of the loop alone. *)
Definition keeps_counters (step : BaseAgent -> outcome string * BaseAgent)
    : Prop :=
  forall a,
    current_step (snd (step a)) = current_step a
    /\ max_steps (snd (step a)) = max_steps a.

Definition within_cap (a : BaseAgent) : Prop := current_step a <= max_steps a.

(** The invariant of [run]: the cap is not negative, and neither the
    agent nor any of its recorded earlier versions is beyond it. *)
Definition cap_invariant (w : World) : Prop :=
  0 <= max_steps (agent w)
  /\ within_cap (agent w)
  /\ Forall within_cap (history w).

(** The world that [state_context] leaves, from the state before the
    transition, the outcome of the body and the world after the body. *)
Definition after_context {A} (previous_state : AgentState) (out : outcome A)
    (w : World) : World :=
  match out with
  | Return _ => snd (assign (set_state previous_state) w)
  | Raise e =>
      if isinstance_Exception true e then
        snd (assign (set_state previous_state)
               (snd (assign (set_state ERROR) w)))
      else snd (assign (set_state previous_state) w)
  | OutOfFuel => w
  end.


(** C1 as it is stated, for the first part: during a [run] from [IDLE]
    with [current_step = 0], no recorded version of the agent is beyond
    the cap. *)
Definition never_beyond_cap : Prop :=
  forall (step : BaseAgent -> outcome string * BaseAgent) (fuel : nat)
         (request : option string) (a : BaseAgent),
    keeps_counters step ->
    state a = IDLE -> current_step a = 0 ->
    Forall within_cap (history (snd (run step fuel request (init_world a)))).

Definition sample_agent (cap threshold : Z) (messages : list Message)
    : BaseAgent :=
  {| name := "sample"; description := None; system_prompt := None;
     next_step_prompt := None; memory := messages; state := IDLE;
     max_steps := cap; current_step := 0;
     duplicate_threshold := threshold |}.

Definition says (text : string) : Message := role_message assistant text None.

(** A [step] that answers with the same text each time. *)
Definition step_same (a : BaseAgent) : outcome string * BaseAgent :=
  (Return "ok", add_message (says "same") a).

(** A [step] that raises. *)
Definition step_boom (a : BaseAgent) : outcome string * BaseAgent :=
  (Raise (Exn OtherException "boom"), a).

(** *** Plans *)

(** The text has the line [l], between two newlines. *)
Definition has_line (text l : string) : Prop :=
  exists pre post, text = pre +:+ nl +:+ l +:+ nl +:+ post.

Definition mark_of (status : Planning.PlanStepStatus) : string :=
  match status with
  | Planning.COMPLETED => "[✓]"
  | Planning.IN_PROGRESS => "[→]"
  | Planning.BLOCKED => "[!]"
  | Planning.NOT_STARTED => "[ ]"
  end.

(** The status of step [i]: the one stored, [NOT_STARTED] beyond the
    end of the stored list. *)
Definition status_at (plan : Planning.PlanData) (i : nat)
    : Planning.PlanStepStatus :=
  default Planning.NOT_STARTED
    (default [] (Planning.step_statuses plan) !! i).

Definition is_active (status : Planning.PlanStepStatus) : Prop :=
  status = Planning.NOT_STARTED \/ status = Planning.IN_PROGRESS.

(** The index that the scan of the steps selects, from index [i] on. *)
Fixpoint first_active (i : nat) (steps : list string)
    (statuses : list Planning.PlanStepStatus) : option nat :=
  match steps with
  | [] => None
  | _ :: rest =>
      if Planning.status_in (default Planning.NOT_STARTED (statuses !! i))
           Planning.get_active_statuses
      then Some i
      else first_active (S i) rest statuses
  end.

(** A call of the planning tool ends, normally or with an exception
    that derives from [Exception]. *)
Definition tool_ends {E : Type}
    (planning_tool : Planning.ToolArgs -> M (@Planning.World E) string)
    : Prop :=
  forall args w,
    match fst (planning_tool args w) with
    | Return _ => True
    | Raise e => isinstance_Exception true e = true
    | OutOfFuel => False
    end.

(** A flow without a primary agent. *)
Definition flow_without_primary : Planning.PlanningFlow :=
  {| Planning.agents := ∅; Planning.primary_agent := None;
     Planning.executor_keys := []; Planning.active_plan_id := "plan_1" |}.

(** A flow with one agent, and a plan of three steps. *)
Definition flow_one_agent : Planning.PlanningFlow :=
  {| Planning.agents := {[ "manus" := 0%nat ]};
     Planning.primary_agent := Some 0%nat;
     Planning.executor_keys := ["manus"];
     Planning.active_plan_id := "plan_1" |}.

Definition plan_abc : Planning.PlanData :=
  {| Planning.title := Some "Build a thing";
     Planning.steps := Some ["a"; "b"; "c"];
     Planning.step_statuses :=
       Some [Planning.COMPLETED; Planning.IN_PROGRESS; Planning.NOT_STARTED];
     Planning.step_notes := Some [""; ""; ""] |}.

Definition world_abc : @Planning.World unit :=
  {| Planning.plans := {[ "plan_1" := plan_abc ]};
     Planning.current_step_index := None;
     Planning.env := tt |}.

(** A planning tool that fails on every call. *)
Definition failing_tool (args : Planning.ToolArgs)
    : M (@Planning.World unit) string :=
  raise (Exn OtherException "tool unavailable").

(** *** Instances of the gateway *)

(** Every registered name refers to an object whose [client] attribute
    is set, as [__new__] registers an object after its [__init__]. *)
Definition registry_ok (r : LLM.Registry) : Prop :=
  forall name loc,
    LLM._instances r !! name = Some loc ->
    exists o c, LLM.heap r !! loc = Some o /\ LLM.obj_client o = Some c.

(** What may happen between two constructions: token counts are
    updated on some object, other constructions are attempted. *)
Inductive registry_op :=
  | OpUpdate (loc : nat) (input_tokens completion_tokens : Z)
  | OpConstruct (config_name : string)
      (llm_config : option (gmap string LLM.LLMSettings)).

Definition empty_registry : LLM.Registry :=
  {| LLM._instances := ∅; LLM.heap := [] |}.

Section Operations.

Variable config_llm : gmap string LLM.LLMSettings.
Variable encoding_for_model : string -> option LLM.Tokenizer.
Variable cl100k_base : LLM.Tokenizer.
Variable client_error : LLM.Client -> option exn.

Definition apply_op (r : LLM.Registry) (op : registry_op) : LLM.Registry :=
  match op with
  | OpUpdate loc input_tokens completion_tokens =>
      snd (LLM.update_object loc input_tokens completion_tokens r)
  | OpConstruct config_name llm_config =>
      snd (LLM.construct config_llm encoding_for_model cl100k_base
             client_error config_name llm_config r)
  end.

Definition apply_ops (ops : list registry_op) (r : LLM.Registry)
    : LLM.Registry :=
  fold_left apply_op ops r.

End Operations.

(** A configuration with a default entry that caps the input tokens. *)
Definition sample_settings : LLM.LLMSettings :=
  {| LLM.settings_model := "gpt-4o";
     LLM.settings_max_tokens := 4096;
     LLM.settings_temperature := S754_zero false;
     LLM.settings_api_type := "openai";
     LLM.settings_api_key := "key";
     LLM.settings_api_version := "";
     LLM.settings_base_url := "https://api.openai.com/v1";
     LLM.settings_max_input_tokens := Some 100 |}.

Definition sample_config : gmap string LLM.LLMSettings :=
  {[ "default" := sample_settings ]}.

(** A tokenizer with one token for each byte of the text. *)
Definition byte_tokens (text : string) : list nat :=
  map nat_of_ascii (list_ascii_of_string text).

Definition no_encoding (model : string) : option LLM.Tokenizer := None.

Definition no_client_error (c : LLM.Client) : option exn := None.

(** A gateway with a ceiling of 100 input tokens, 90 of them used. *)
Definition llm_near_limit : LLM.LLM :=
  {| LLM.model := "gpt-4o"; LLM.max_tokens := 4096;
     LLM.temperature := S754_zero false;
     LLM.api_type := "openai"; LLM.api_key := "key"; LLM.api_version := "";
     LLM.base_url := "https://api.openai.com/v1";
     LLM.total_input_tokens := 90; LLM.total_completion_tokens := 0;
     LLM.max_input_tokens := Some 100; LLM.tokenizer := byte_tokens |}.

Definition user_says (text : string) : LLM.MessageInput :=
  LLM.InMessage
    {| TokenCounter.msg_role := Some "user";
       TokenCounter.msg_content := Some (TokenCounter.ContentStr text);
       TokenCounter.msg_tool_calls := None; TokenCounter.msg_name := None;
       TokenCounter.msg_tool_call_id := None;
       TokenCounter.msg_base64_image := None |}.

(** A tool schema whose text takes eight tokens. *)
Definition planning_schema : LLM.Tool :=
  {| LLM.tool_str := "{'type'}"; LLM.tool_has_type := true |}.

(** The world after [n] more attempts that changed nothing else. *)
Definition after_attempts (n : nat) (w : LLM.World) : LLM.World :=
  {| LLM.llm := LLM.llm w; LLM.requests := LLM.requests w;
     LLM.attempts := (LLM.attempts w + n)%nat |}.

(** *** Image tokens *)

Definition image (detail : option string) (dimensions : option (Z * Z))
    : TokenCounter.DictItem :=
  {| TokenCounter.item_text := None;
     TokenCounter.item_image_url := Some "data:image/jpeg;base64,";
     TokenCounter.item_detail := detail;
     TokenCounter.item_dimensions := dimensions |}.



End Samples.

(** ** Further sample inputs and statements about the three files *)

Module Scenarios.
Import Py Agent.

(** A [step] that answers and declares the work finished. *)
Definition step_done (a : BaseAgent) : outcome string * BaseAgent :=
  (Return "done", set_state FINISHED a).

(** The role that a role name of [update_memory] stands for. *)
Definition role_named (r : string) : option Role :=
  if String.eqb r "user" then Some user
  else if String.eqb r "system" then Some system
  else if String.eqb r "assistant" then Some assistant
  else if String.eqb r "tool" then Some tool
  else None.

(** The text begins with [p]. *)
Definition starts_with (p text : string) : Prop :=
  exists rest, text = p +:+ rest.

(** A [step] that ends each of its calls with an answer and the state
    [FINISHED]. *)
Definition finishes (step : BaseAgent -> outcome string * BaseAgent) : Prop :=
  forall a,
    (exists text, fst (step a) = Return text)
    /\ state (snd (step a)) = FINISHED.

End Scenarios.

Module TokenScenarios.
Import Py TokenCounter.



(** Every square image of a side from 1 to [n] takes 765 tokens. *)
Definition squares_take_765 (n : Z) : bool :=
  forallb
    (fun side =>
       match _calculate_high_detail_tokens side side with
       | Return tokens => tokens =? 765
       | _ => false
       end)
    (seqZ 1 n).

Definition text_message (r text : string) : MessageDict :=
  {| msg_role := Some r; msg_content := Some (ContentStr text);
     msg_tool_calls := None; msg_name := None; msg_tool_call_id := None;
     msg_base64_image := None |}.

End TokenScenarios.

Module GatewayScenarios.
Import Py TokenCounter LLM.

(** What [format_messages] guarantees of a message that it returns: a
    recognised role, a content or tool calls, and no image payload left
    to convert. *)
Definition is_formatted (message : MessageDict) : Prop :=
  (exists r, msg_role message = Some r /\ mem r ROLE_VALUES = true)
  /\ is_kept message = true
  /\ truthy_opt (msg_base64_image message) = false.

(** A message [dict] that has a role and nothing to send: no content,
    no tool calls and no image payload. *)
Definition is_hollow (message : MessageDict) : Prop :=
  (exists r, msg_role message = Some r)
  /\ msg_content message = None
  /\ msg_tool_calls message = None
  /\ truthy_opt (msg_base64_image message) = false.

(** A sequence of updates of the counters, oldest first. *)
Definition update_all (updates : list (Z * Z)) (l : LLM) : LLM :=
  fold_left (fun l u => update_token_count (fst u) (snd u) l) updates l.

(** A user message that carries an image payload. *)
Definition pictured : MessageDict :=
  {| msg_role := Some "user"; msg_content := Some (ContentStr "look");
     msg_tool_calls := None; msg_name := None; msg_tool_call_id := None;
     msg_base64_image := Some "AAAA" |}.

(** A message with an unknown role and nothing to send. *)
Definition narrator : MessageDict :=
  {| msg_role := Some "narrator"; msg_content := None;
     msg_tool_calls := None; msg_name := None; msg_tool_call_id := None;
     msg_base64_image := None |}.

(** The provider format of a user message that holds a text. *)
Definition text_message_of (text : string) : MessageDict :=
  {| msg_role := Some "user"; msg_content := Some (ContentStr text);
     msg_tool_calls := None; msg_name := None; msg_tool_call_id := None;
     msg_base64_image := None |}.

(** A gateway with a ceiling of 100 input tokens, none of them used. *)
Definition llm_unused : LLM :=
  set_totals 0 0 Samples.llm_near_limit.

(** The same gateway on a model that takes no images. *)
Definition text_only (l : LLM) : LLM :=
  {| model := "gpt-3.5-turbo"; max_tokens := max_tokens l;
     temperature := temperature l; api_type := api_type l;
     api_key := api_key l; api_version := api_version l;
     base_url := base_url l;
     total_input_tokens := total_input_tokens l;
     total_completion_tokens := total_completion_tokens l;
     max_input_tokens := max_input_tokens l; tokenizer := tokenizer l |}.

Definition reply (text : string) : Completion :=
  {| choices := [Some {| response_content := Some text;
                         response_tool_calls := [] |}];
     usage_prompt_tokens := 12; usage_completion_tokens := 3 |}.

(** A provider that is rate limited on its first [k] requests. *)
Definition rate_limited (k : nat) (text : string) (n : nat) (r : Request)
    : outcome Completion :=
  if (n <? k)%nat then Raise (Exn RateLimitError "rate limit")
  else Return (reply text).

(** A provider whose streams break off. *)
Definition broken_stream (n : nat) (r : Request)
    : outcome (list (option string)) :=
  Raise (Exn APIError "connection lost").

(** A provider that answers without a choice. *)
Definition no_choice (n : nat) (r : Request) : outcome Completion :=
  Return {| choices := []; usage_prompt_tokens := 12;
            usage_completion_tokens := 0 |}.

(** The world after [k] more attempts, each of which sent [r]. *)
Definition after_requests (k : nat) (r : Request) (w : World) : World :=
  {| llm := llm w; requests := (requests w ++ replicate k r)%list;
     attempts := (attempts w + k)%nat |}.

(** An attempt that leaves the attempt counter alone and sends at most
    one request. *)
Definition sends_at_most_one {A} (attempt : M World A) : Prop :=
  forall w,
    attempts (snd (attempt w)) = attempts w
    /\ (length (requests w) <= length (requests (snd (attempt w)))
        <= S (length (requests w)))%nat.

(** Two gateways that differ at most in their token totals. *)
Definition same_settings (l l' : LLM) : Prop :=
  model l = model l' /\ max_tokens l = max_tokens l'
  /\ temperature l = temperature l' /\ tokenizer l = tokenizer l'
  /\ max_input_tokens l = max_input_tokens l'.

(** The ceiling, if any, leaves room for [k] requests of [n] tokens. *)
Definition has_room_for (k : nat) (n : Z) (l : LLM) : Prop :=
  match max_input_tokens l with
  | Some limit => total_input_tokens l + Z.of_nat k * n <= limit
  | None => True
  end.

End GatewayScenarios.

Module RegistryScenarios.
Import Py LLM.

(** No two registered names refer to one object. *)
Definition names_apart (r : Registry) : Prop :=
  forall n1 n2 loc,
    _instances r !! n1 = Some loc -> _instances r !! n2 = Some loc -> n1 = n2.

(** A configuration without a default entry. *)
Definition config_without_default : gmap string LLMSettings :=
  {[ "manus" := Samples.sample_settings ]}.

End RegistryScenarios.

Module PlanScenarios.
Import Py Planning.

(** Every character of the text satisfies [p]. *)
Fixpoint all_chars (p : ascii -> bool) (s : string) : bool :=
  match s with
  | EmptyString => true
  | String c rest => p c && all_chars p rest
  end.

(** A non-empty run of capitals and underscores. *)
Definition is_tag (tag : string) : bool :=
  negb (String.eqb tag "") && all_chars is_tag_char tag.

Definition is_open_bracket (c : ascii) : bool := (nat_of_ascii c =? 91)%nat.

(** A planning tool that is out of order: every call raises, and
    leaves everything as it is. *)
Definition tool_down {E : Type}
    (planning_tool : ToolArgs -> M (@World E) string) : Prop :=
  forall args w,
    exists e,
      planning_tool args w = (Raise e, w)
      /\ isinstance_Exception true e = true.

(** An agent whose [run] raises on every call, and leaves everything
    as it is. *)
Definition agent_down {E : Type}
    (agent_run : nat -> string -> M (@World E) string) : Prop :=
  forall a prompt w,
    exists e,
      agent_run a prompt w = (Raise e, w)
      /\ isinstance_Exception true e = true.

(** A collaborator whose calls end, normally or with an exception that
    derives from [Exception]. *)
Definition call_ends {E A : Type} (call : M (@World E) A) : Prop :=
  forall w,
    match fst (call w) with
    | Return _ => True
    | Raise e => isinstance_Exception true e = true
    | OutOfFuel => False
    end.

(** The flow with its step index set. *)
Definition at_step {E : Type} (i : option nat) (w : @World E) : @World E :=
  {| plans := plans w; current_step_index := i; env := env w |}.

(** A flow with two agents: the steps tagged [[CODE]] go to the second. *)
Definition flow_two_agents : PlanningFlow :=
  {| agents := {[ "manus" := 0%nat; "code" := 1%nat ]};
     primary_agent := Some 0%nat;
     executor_keys := ["manus"; "code"];
     active_plan_id := "plan_1" |}.

(** An agent that fails on every call. *)
Definition failing_agent (a : nat) (prompt : string)
    : M (@World unit) string :=
  raise (Exn RuntimeError "agent unavailable").

(** An agent whose [run] answers [reply] on every call, and leaves
    everything as it is. *)
Definition agent_answers {E : Type} (reply : string)
    (agent_run : nat -> string -> M (@World E) string) : Prop :=
  forall a prompt w, agent_run a prompt w = (Return reply, w).

(** A gateway whose [ask] answers [summary] on every call. *)
Definition llm_answers {E : Type} (summary : string)
    (llm_ask : string -> string -> M (@World E) string) : Prop :=
  forall user_text system_text w,
    llm_ask user_text system_text w = (Return summary, w).

(** The number of steps of the plan, from index [frontier] on, whose
    status is active. *)
Definition active_steps_from (frontier : nat) (plan : PlanData) : Z :=
  count_if
    (fun i => status_in (Samples.status_at plan i) get_active_statuses)
    (seq frontier (length (default [] (steps plan)) - frontier)).

(** What the execution of steps may do to a plan: the steps stay, and a
    status either stays or goes from an active one to [COMPLETED]. *)
Definition advanced (before after : PlanData) : Prop :=
  steps after = steps before
  /\ forall i,
       Samples.status_at after i = Samples.status_at before i
       \/ (Samples.is_active (Samples.status_at before i)
           /\ Samples.status_at after i = COMPLETED).

End PlanScenarios.

(** ** Properties of the agent execution engine *)

Section AgentProperties.
Import Py Agent Samples.

Lemma count_if_app {A} (p : A -> bool) (l1 l2 : list A) :
  count_if p (l1 ++ l2) = count_if p l1 + count_if p l2.
Proof.
  induction l1 as [|x l1 IH]; simpl; [reflexivity|].
  rewrite IH. lia.
Qed.

Lemma count_if_rev {A} (p : A -> bool) (l : list A) :
  count_if p (rev l) = count_if p l.
Proof.
  induction l as [|x l IH]; simpl; [reflexivity|].
  rewrite count_if_app, IH. simpl. lia.
Qed.

Lemma count_if_nonneg {A} (p : A -> bool) (l : list A) : 0 <= count_if p l.
Proof.
  induction l as [|x l IH]; simpl; [lia|].
  destruct (p x); lia.
Qed.

(** [is_stuck] on a memory given by its last message and those before. *)
Lemma is_stuck_snoc (a : BaseAgent) (prior : list Message) (m : Message) :
  memory a = (prior ++ [m])%list ->
  is_stuck a =
    negb (bool_decide (prior = []))
    && truthy_opt (content m)
    && (duplicate_threshold a <=? count_if (is_duplicate_of m) prior).
Proof.
  intros Hmem. unfold is_stuck. rewrite Hmem.
  rewrite last_snoc, removelast_last, count_if_rev, length_app. simpl.
  destruct prior as [|p prior]; simpl; [reflexivity|].
  assert (Hlen : (S (length prior + 1) <? 2)%nat = false)
    by (apply Nat.ltb_ge; lia).
  rewrite Hlen. destruct (truthy_opt (content m)); reflexivity.
Qed.

(** C5 (as amended): [is_stuck] holds exactly when the memory has at
    least two messages, the last one has content, and at least
    [duplicate_threshold] of the messages before it are assistant
    messages with the same content. With a threshold of 2, three
    assistant messages of one content are detected and two are not. *)
Theorem is_stuck_exact :
  (forall a : BaseAgent,
     is_stuck a = true <->
     exists prior last_message,
       memory a = (prior ++ [last_message])%list
       /\ prior <> []
       /\ truthy_opt (content last_message) = true
       /\ duplicate_threshold a
          <= count_if (is_duplicate_of last_message) prior)
  /\ (forall (a : BaseAgent) (m1 m2 m3 : Message) (text : string),
        duplicate_threshold a = 2 -> truthy text = true ->
        role m1 = assistant -> role m2 = assistant ->
        content m1 = Some text -> content m2 = Some text ->
        content m3 = Some text ->
        (memory a = [m1; m2; m3] -> is_stuck a = true)
        /\ (memory a = [m2; m3] -> is_stuck a = false)).
Proof.
  split.
  - intros a. split.
    + intros Hstuck.
      destruct (memory a) as [|m0 rest] eqn:Hmem using rev_ind.
      * unfold is_stuck in Hstuck. rewrite Hmem in Hstuck. discriminate.
      * clear IHrest. rewrite (is_stuck_snoc a rest m0 Hmem) in Hstuck.
        apply andb_true_iff in Hstuck as [Hstuck Hcount].
        apply andb_true_iff in Hstuck as [Hprior Hcontent].
        exists rest, m0. repeat split; try assumption.
        -- intros ->. discriminate.
        -- apply Z.leb_le. exact Hcount.
    + intros (prior & m & Hmem & Hprior & Hcontent & Hcount).
      rewrite (is_stuck_snoc a prior m Hmem), Hcontent.
      apply Z.leb_le in Hcount. rewrite Hcount.
      destruct prior; [contradiction|reflexivity].
  - intros a m1 m2 m3 text Hthreshold Htext Hr1 Hr2 Hc1 Hc2 Hc3. split.
    + intros Hmem. rewrite (is_stuck_snoc a [m1; m2] m3 Hmem).
      rewrite Hthreshold, Hc3. simpl. rewrite Htext.
      unfold is_duplicate_of. rewrite Hr1, Hr2, Hc1, Hc2, Hc3.
      rewrite !bool_decide_eq_true_2 by reflexivity. reflexivity.
    + intros Hmem. rewrite (is_stuck_snoc a [m2] m3 Hmem).
      rewrite Hthreshold, Hc3. simpl. rewrite Htext.
      unfold is_duplicate_of. rewrite Hr2, Hc2, Hc3.
      rewrite !bool_decide_eq_true_2 by reflexivity. reflexivity.
Qed.

(** C5, as stated, fails on a memory of one message when the threshold
    is not positive: the count over the (empty) prior messages reaches
    the threshold, yet [is_stuck] answers no. *)
Lemma is_stuck_single_message :
  ~ (is_stuck (sample_agent 10 0 [says "x"]) = true
     <-> stuck_by_count (sample_agent 10 0 [says "x"])).
Proof.
  intros [_ Hstated].
  assert (Hstuck : is_stuck (sample_agent 10 0 [says "x"]) = true).
  { apply Hstated. exists [], (says "x"). repeat split. simpl. lia. }
  vm_compute in Hstuck. discriminate.
Qed.

Lemma is_stuck_exact_witness :
  is_stuck (sample_agent 10 2 [says "x"; says "x"; says "x"]) = true
  /\ is_stuck (sample_agent 10 2 [says "x"; says "x"]) = false.
Proof.
  destruct is_stuck_exact as [_ H].
  destruct (H (sample_agent 10 2 [says "x"; says "x"; says "x"])
              (says "x") (says "x") (says "x") "x"
              eq_refl eq_refl eq_refl eq_refl eq_refl eq_refl eq_refl)
    as [H3 _].
  destruct (H (sample_agent 10 2 [says "x"; says "x"])
              (says "x") (says "x") (says "x") "x"
              eq_refl eq_refl eq_refl eq_refl eq_refl eq_refl eq_refl)
    as [_ H2].
  split; [apply H3 | apply H2]; reflexivity.
Defined.

Section RunProperties.

Variable step : BaseAgent -> outcome string * BaseAgent.


Lemma state_context_eq {A} (new_state : AgentState) (body : M World A)
    (w : World) :
  state_context new_state body w =
    let r := body (snd (assign (set_state new_state) w)) in
    (fst r, after_context (state (agent w)) (fst r) (snd r)).
Proof.
  unfold state_context, bind, self, try_finally, try_except. simpl.
  destruct (body _) as [[a|e|] w1]; simpl; try reflexivity.
  destruct (isinstance_Exception true e); reflexivity.
Qed.

Lemma after_context_cleanups {A} (s : AgentState) (out : outcome A) w :
  sandbox_cleanups (after_context s out w) = sandbox_cleanups w.
Proof.
  destruct out as [a|e|]; simpl; try reflexivity.
  destruct (isinstance_Exception true e); reflexivity.
Qed.

Lemma after_context_state {A} (s : AgentState) (out : outcome A) w :
  out <> OutOfFuel -> state (agent (after_context s out w)) = s.
Proof.
  destruct out as [a|e|]; simpl; try reflexivity; try congruence.
  destruct (isinstance_Exception true e); reflexivity.
Qed.

Lemma after_context_current_step {A} (s : AgentState) (out : outcome A) w :
  current_step (agent (after_context s out w)) = current_step (agent w).
Proof.
  destruct out as [a|e|]; simpl; try reflexivity.
  destruct (isinstance_Exception true e); reflexivity.
Qed.


Lemma loop_entry_cleanups (request : option string) (w : World) :
  sandbox_cleanups (loop_entry request w) = sandbox_cleanups w.
Proof.
  unfold loop_entry, bind.
  destruct request as [text|]; simpl; [|reflexivity].
  destruct (truthy text); reflexivity.
Qed.

(** [run], once its precondition holds, in terms of the body of the
    [async with] block run from [loop_entry]. *)
Lemma run_eq (fuel : nat) (request : option string) (w : World) :
  state (agent w) = IDLE ->
  run step fuel request w =
    let r := run_body step fuel (loop_entry request w) in
    match fst r with
    | Return results =>
        (Return (match results with
                 | [] => "No steps executed"
                 | _ => join nl results
                 end),
         snd (cleanup (after_context IDLE (fst r) (snd r))))
    | Raise e => (Raise e, after_context IDLE (fst r) (snd r))
    | OutOfFuel => (OutOfFuel, snd r)
    end.
Proof.
  intros Hidle. unfold run, bind at 1, self. simpl. rewrite Hidle. simpl.
  unfold loop_entry.
  assert (Hprologue :
    forall (pre : M World unit) w0,
      (exists w1, pre w0 = (Return tt, w1)
                  /\ state (agent w1) = state (agent w0)) ->
      forall k : list string -> M World string,
        (pre ;;; results <- state_context RUNNING (run_body step fuel) ;;
         k results) w0
        = let r := run_body step fuel
                     (snd ((pre ;;; assign (set_state RUNNING)) w0)) in
          match fst r with
          | Return results =>
              k results (after_context (state (agent w0)) (fst r) (snd r))
          | Raise e => (Raise e, after_context (state (agent w0)) (fst r) (snd r))
          | OutOfFuel => (OutOfFuel, snd r)
          end).
  { intros pre w0 (w1 & Hpre & Hstate) k. unfold bind. rewrite Hpre.
    rewrite state_context_eq. simpl. rewrite Hstate.
    destruct (run_body step fuel _) as [[results|e|] w2]; reflexivity. }
  rewrite Hprologue.
  - rewrite Hidle. simpl.
    destruct (run_body step fuel _) as [[results|e|] w2]; reflexivity.
  - destruct request as [text|]; [destruct (truthy text)|];
      eexists; split; reflexivity.
Qed.

(** One iteration of the loop, spelled out. *)
Lemma run_loop_eq (fuel : nat) (results : list string) (w : World) :
  run_loop step (S fuel) results w =
    if loop_condition (agent w) then
      let w1 :=
        snd (assign (fun a => set_current_step (current_step a + 1) a) w) in
      let r := do_step step w1 in
      match fst r with
      | Return step_result =>
          let w2 :=
            if is_stuck (agent (snd r)) then snd (handle_stuck_state (snd r))
            else snd r in
          run_loop step fuel
            (results ++
               ["Step " +:+ str_int (current_step (agent w2)) +:+ ": "
                +:+ step_result])%list
            w2
      | Raise e => (Raise e, snd r)
      | OutOfFuel => (OutOfFuel, snd r)
      end
    else (Return results, w).
Proof.
  simpl. unfold bind at 1, self. simpl.
  destruct (loop_condition (agent w)); [|reflexivity].
  unfold bind at 1. simpl. unfold bind at 1.
  destruct (do_step step _) as [[text|e|] w2]; simpl; try reflexivity.
  unfold bind at 1, self. simpl. unfold bind at 1.
  destruct (is_stuck (agent w2)); reflexivity.
Qed.

Lemma run_loop_zero (results : list string) (w : World) :
  run_loop step 0 results w =
    if loop_condition (agent w) then (OutOfFuel, w) else (Return results, w).
Proof.
  simpl. unfold bind, self. simpl.
  destruct (loop_condition (agent w)); reflexivity.
Qed.

Lemma loop_condition_true (a : BaseAgent) :
  loop_condition a = true -> current_step a < max_steps a.
Proof.
  unfold loop_condition. intros H. apply andb_true_iff in H as [H _].
  apply Z.ltb_lt. exact H.
Qed.

Lemma assign_cap_invariant (f : BaseAgent -> BaseAgent) (w : World) :
  (forall a, current_step (f a) = current_step a
             /\ max_steps (f a) = max_steps a) ->
  cap_invariant w -> cap_invariant (snd (assign f w)).
Proof.
  intros Hf (Hcap & Hnow & Hhist). destruct (Hf (agent w)) as [Hc Hm].
  unfold cap_invariant, within_cap in *. simpl. rewrite Hc, Hm.
  repeat split; try assumption. constructor; [|assumption].
  rewrite Hc, Hm. assumption.
Qed.

Section WithCounters.

Hypothesis Hstep : keeps_counters step.

Lemma do_step_cap_invariant (w : World) :
  cap_invariant w -> cap_invariant (snd (do_step step w)).
Proof.
  intros (Hcap & Hnow & Hhist). destruct (Hstep (agent w)) as [Hc Hm].
  unfold do_step. destruct (step (agent w)) as [r a1]. simpl in *.
  unfold cap_invariant, within_cap in *. simpl. rewrite Hc, Hm.
  repeat split; try assumption. constructor; [|assumption].
  rewrite Hc, Hm. assumption.
Qed.

Lemma increment_cap_invariant (w : World) :
  cap_invariant w -> current_step (agent w) < max_steps (agent w) ->
  cap_invariant
    (snd (assign (fun a => set_current_step (current_step a + 1) a) w)).
Proof.
  intros (Hcap & Hnow & Hhist) Hlt.
  unfold cap_invariant, within_cap in *. simpl.
  repeat split; try assumption; try lia.
  constructor; [simpl; lia | assumption].
Qed.

Lemma run_loop_cap_invariant (fuel : nat) :
  forall results w,
    cap_invariant w -> cap_invariant (snd (run_loop step fuel results w)).
Proof.
  induction fuel as [|fuel IH]; intros results w Hinv.
  - rewrite run_loop_zero. destruct (loop_condition (agent w)); exact Hinv.
  - rewrite run_loop_eq.
    destruct (loop_condition (agent w)) eqn:Hcond; [|exact Hinv].
    apply loop_condition_true in Hcond.
    pose proof (do_step_cap_invariant _
                  (increment_cap_invariant w Hinv Hcond)) as Hafter.
    cbv zeta.
    destruct (do_step step _) as [[text|e|] w2]; simpl in *;
      try exact Hafter.
    apply IH. destruct (is_stuck (agent w2)); [|exact Hafter].
    apply assign_cap_invariant; [|exact Hafter].
    intros a. split; reflexivity.
Qed.

Lemma loop_entry_cap_invariant (request : option string) (w : World) :
  cap_invariant w -> cap_invariant (loop_entry request w).
Proof.
  intros Hinv. unfold loop_entry, bind.
  assert (Hset : forall w0, cap_invariant w0 ->
                   cap_invariant (snd (assign (set_state RUNNING) w0))).
  { intros w0 H0. apply assign_cap_invariant; [|exact H0].
    intros a. split; reflexivity. }
  destruct request as [text|]; simpl; [|apply Hset, Hinv].
  destruct (truthy text); simpl; [|apply Hset, Hinv].
  apply (Hset (snd (assign (add_message (role_message user text None)) w))).
  apply assign_cap_invariant; [|exact Hinv].
  intros a. split; reflexivity.
Qed.

Lemma run_body_cap_invariant (fuel : nat) (w : World) :
  cap_invariant w -> cap_invariant (snd (run_body step fuel w)).
Proof.
  intros Hinv. unfold run_body, bind.
  pose proof (run_loop_cap_invariant fuel [] w Hinv) as Hloop.
  destruct (run_loop step fuel [] w) as [[results|e|] w1]; simpl in *;
    try exact Hloop.
  destruct (max_steps (agent w1) <=? current_step (agent w1)); simpl;
    [|exact Hloop].
  destruct Hloop as (Hcap & Hnow & Hhist).
  unfold cap_invariant, within_cap in *. simpl.
  repeat split; try assumption.
  repeat (constructor; [simpl; assumption|]). assumption.
Qed.

Lemma after_context_cap_invariant {A} (s : AgentState) (out : outcome A)
    (w : World) :
  cap_invariant w -> cap_invariant (after_context s out w).
Proof.
  intros Hinv.
  assert (Hset : forall s0 w0, cap_invariant w0 ->
                   cap_invariant (snd (assign (set_state s0) w0))).
  { intros s0 w0 H0. apply assign_cap_invariant; [|exact H0].
    intros a. split; reflexivity. }
  destruct out as [a|e|]; unfold after_context;
    [apply Hset, Hinv| |exact Hinv].
  destruct (isinstance_Exception true e);
    [apply Hset, Hset, Hinv | apply Hset, Hinv].
Qed.

Lemma run_cap_invariant (fuel : nat) (request : option string) (w : World) :
  cap_invariant w -> cap_invariant (snd (run step fuel request w)).
Proof.
  intros Hinv. destruct (decide (state (agent w) = IDLE)) as [Hidle|Hbusy].
  - rewrite (run_eq fuel request w Hidle). cbv zeta.
    pose proof (run_body_cap_invariant fuel _
                  (loop_entry_cap_invariant request w Hinv)) as Hbody.
    destruct (run_body step fuel _) as [[results|e|] w1]; simpl in *.
    + apply (after_context_cap_invariant IDLE (Return results)) in Hbody.
      exact Hbody.
    + apply (after_context_cap_invariant IDLE (@Raise unit e)) in Hbody.
      exact Hbody.
    + exact Hbody.
  - unfold run, bind, self. simpl.
    rewrite bool_decide_eq_false_2 by exact Hbusy. exact Hinv.
Qed.

(** With fuel for the steps that remain, the loop does not run out. *)
Lemma run_loop_terminates (fuel : nat) :
  (forall a, fst (step a) <> OutOfFuel) ->
  forall results w,
    (Z.to_nat (max_steps (agent w) - current_step (agent w)) <= fuel)%nat ->
    fst (run_loop step fuel results w) <> OutOfFuel.
Proof.
  intros Hends. induction fuel as [|fuel IH]; intros results w Hfuel.
  - rewrite run_loop_zero.
    destruct (loop_condition (agent w)) eqn:Hcond; [|discriminate].
    apply loop_condition_true in Hcond. lia.
  - rewrite run_loop_eq.
    destruct (loop_condition (agent w)) eqn:Hcond; [|discriminate].
    apply loop_condition_true in Hcond. cbv zeta.
    pose proof (Hstep (set_current_step (current_step (agent w) + 1) (agent w)))
      as [Hc Hm].
    pose proof (Hends (set_current_step (current_step (agent w) + 1) (agent w)))
      as Hout.
    unfold do_step. simpl.
    destruct (step _) as [[text|e|] a1]; simpl in *;
      try discriminate; try congruence.
    apply IH. destruct (is_stuck a1); simpl; rewrite Hc, Hm; lia.
Qed.

End WithCounters.

End RunProperties.

Lemma loop_entry_counters (request : option string) (w : World) :
  current_step (agent (loop_entry request w)) = current_step (agent w)
  /\ max_steps (agent (loop_entry request w)) = max_steps (agent w).
Proof.
  unfold loop_entry, bind.
  destruct request as [text|]; simpl; [|split; reflexivity].
  destruct (truthy text); split; reflexivity.
Qed.

(** Whenever [run] ends after its precondition held, the state is the
    one from before the transition to [RUNNING], which is [IDLE]. *)
Lemma run_ends_idle (step : BaseAgent -> outcome string * BaseAgent)
    (fuel : nat) (request : option string) (w : World) :
  state (agent w) = IDLE ->
  fst (run step fuel request w) <> OutOfFuel ->
  state (agent (snd (run step fuel request w))) = IDLE.
Proof.
  intros Hidle. rewrite (run_eq step fuel request w Hidle). cbv zeta.
  destruct (run_body step fuel _) as [[results|e|] w1]; simpl;
    intros Hends; try congruence.
  destruct (isinstance_Exception true e); reflexivity.
Qed.

(** C1 (as amended): for an agent whose cap [max_steps] is not negative
    and whose [step] leaves [current_step] and [max_steps] alone, in a
    [run] from [IDLE] with [current_step = 0]: no version of the agent
    during the run has [current_step] beyond [max_steps]; when the loop
    ends with the cap reached, [run] returns normally with
    [current_step = 0] and state [IDLE]; and fuel for [max_steps]
    iterations is enough for [run] to end. *)
Theorem run_within_step_cap :
  forall (step : BaseAgent -> outcome string * BaseAgent) (fuel : nat)
         (request : option string) (a : BaseAgent),
    keeps_counters step ->
    state a = IDLE -> current_step a = 0 -> 0 <= max_steps a ->
    Forall within_cap (history (snd (run step fuel request (init_world a))))
    /\ (forall results w1,
          run_loop step fuel [] (loop_entry request (init_world a))
          = (Return results, w1) ->
          max_steps (agent w1) <= current_step (agent w1) ->
          exists text,
            fst (run step fuel request (init_world a)) = Return text
            /\ current_step (agent (snd (run step fuel request (init_world a))))
               = 0
            /\ state (agent (snd (run step fuel request (init_world a))))
               = IDLE)
    /\ ((forall b, fst (step b) <> OutOfFuel) ->
        (Z.to_nat (max_steps a) <= fuel)%nat ->
        fst (run step fuel request (init_world a)) <> OutOfFuel).
Proof.
  intros step fuel request a Hstep Hidle Hzero Hcap.
  assert (Hinit : cap_invariant (init_world a)).
  { unfold cap_invariant, within_cap. simpl. rewrite Hzero.
    repeat split; try assumption. constructor; [lia|constructor]. }
  split; [|split].
  - apply (run_cap_invariant step Hstep fuel request _ Hinit).
  - intros results w1 Hloop Hreached.
    rewrite (run_eq step fuel request (init_world a) Hidle). cbv zeta.
    unfold run_body, bind. rewrite Hloop. unfold self. simpl.
    apply Z.leb_le in Hreached. rewrite Hreached. simpl.
    eexists. repeat split.
  - intros Hends Hfuel.
    rewrite (run_eq step fuel request (init_world a) Hidle). cbv zeta.
    destruct (loop_entry_counters request (init_world a)) as [Hc Hm].
    assert (Hloop :
      fst (run_loop step fuel [] (loop_entry request (init_world a)))
      <> OutOfFuel).
    { apply (run_loop_terminates step Hstep fuel Hends).
      rewrite Hc, Hm. simpl. rewrite Hzero.
      replace (max_steps a - 0) with (max_steps a) by lia. exact Hfuel. }
    unfold run_body, bind.
    destruct (run_loop step fuel [] _) as [[results|e|] w1]; simpl in *;
      try congruence.
    destruct (max_steps (agent w1) <=? current_step (agent w1)); simpl;
      discriminate.
Qed.

Lemma step_same_keeps_counters : keeps_counters step_same.
Proof. intros a. split; reflexivity. Qed.

(** C1, as stated, fails for an agent whose cap is negative: from the
    start of the run [current_step = 0] is beyond [max_steps = -1]. *)
Lemma negative_cap_exceeded : ~ never_beyond_cap.
Proof.
  intros Hstated.
  pose proof (Hstated step_same 0%nat None (sample_agent (-1) 2 [])
                step_same_keeps_counters eq_refl eq_refl) as Hall.
  assert (Hin : In (sample_agent (-1) 2 [])
                   (history (snd (run step_same 0 None
                                    (init_world (sample_agent (-1) 2 [])))))).
  { vm_compute. left. reflexivity. }
  rewrite Forall_forall in Hall.
  apply list_elem_of_In in Hin.
  specialize (Hall _ Hin). unfold within_cap in Hall. simpl in Hall. lia.
Qed.

Lemma run_within_step_cap_witness :
  exists text,
    fst (run step_same 5 (Some "go") (init_world (sample_agent 3 2 [])))
    = Return text
    /\ current_step
         (agent (snd (run step_same 5 (Some "go")
                        (init_world (sample_agent 3 2 []))))) = 0
    /\ state
         (agent (snd (run step_same 5 (Some "go")
                        (init_world (sample_agent 3 2 []))))) = IDLE.
Proof.
  destruct (run_within_step_cap step_same 5 (Some "go") (sample_agent 3 2 [])
              step_same_keeps_counters eq_refl eq_refl ltac:(simpl; lia))
    as (_ & Hcap & _).
  destruct (run_loop step_same 5 []
              (loop_entry (Some "go") (init_world (sample_agent 3 2 []))))
    as [out w1] eqn:Hloop.
  assert (Hout : exists results, out = Return results
                   /\ max_steps (agent w1) <= current_step (agent w1)).
  { vm_compute in Hloop. inversion Hloop; subst. eexists. split;
      [reflexivity|]. simpl. lia. }
  destruct Hout as (results & -> & Hreached).
  exact (Hcap results w1 eq_refl Hreached).
Defined.



(** Nor is the cleanup invoked when [step] raises. *)
Lemma cleanup_skipped_when_step_raises :
  fst (run step_boom 5 None (init_world (sample_agent 3 2 [])))
  = Raise (Exn OtherException "boom")
  /\ sandbox_cleanups
       (snd (run step_boom 5 None (init_world (sample_agent 3 2 []))))
     = 0%nat.
Proof. vm_compute. split; reflexivity. Qed.


(** C2, at an agent whose [step] raises: the exception leaves [run], the
    state was set to [ERROR] and then reverted, and the caller finds the
    agent in state [IDLE]. *)
Theorem run_exception_leaves_idle :
  fst (run step_boom 5 (Some "go") (init_world (sample_agent 3 2 [])))
  = Raise (Exn OtherException "boom")
  /\ map state
       (history (snd (run step_boom 5 (Some "go")
                        (init_world (sample_agent 3 2 [])))))
     = [IDLE; ERROR; RUNNING; RUNNING; RUNNING; IDLE; IDLE]
  /\ state (agent (snd (run step_boom 5 (Some "go")
                         (init_world (sample_agent 3 2 []))))) = IDLE.
Proof. vm_compute. repeat split. Qed.

End AgentProperties.

(** ** Properties of the token counter *)

Section TokenProperties.
Import Py TokenCounter Samples.






End TokenProperties.

(** ** Properties of the planning flow *)

Section PlanningProperties.
Import Py Planning Samples.

Lemma str_app_assoc (a b c : string) : (a +:+ b) +:+ c = a +:+ b +:+ c.
Proof.
  induction a as [|x a IH]; [reflexivity|].
  change (String x ((a +:+ b) +:+ c) = String x (a +:+ b +:+ c)).
  rewrite IH. reflexivity.
Qed.

Lemma status_in_active (status : PlanStepStatus) :
  status_in status get_active_statuses = true <-> is_active status.
Proof.
  unfold is_active. destruct status; simpl; split; intros H;
    try reflexivity; try discriminate; try (left; reflexivity);
    try (right; reflexivity); destruct H; discriminate.
Qed.

Lemma not_active_iff (status : PlanStepStatus) :
  ~ is_active status <-> status = COMPLETED \/ status = BLOCKED.
Proof.
  unfold is_active. destruct status; split; intros H;
    try (left; reflexivity); try (right; reflexivity);
    try (exfalso; apply H; (left; reflexivity) || (right; reflexivity));
    try (intros [?|?]; discriminate); destruct H; discriminate.
Qed.

Lemma first_active_some (steps : list string)
    (statuses : list PlanStepStatus) :
  forall i k,
    first_active i steps statuses = Some k <->
    (i <= k < i + length steps)%nat
    /\ is_active (default NOT_STARTED (statuses !! k))
    /\ (forall j, (i <= j < k)%nat ->
                 ~ is_active (default NOT_STARTED (statuses !! j))).
Proof.
  induction steps as [|step rest IH]; intros i k;
    cbn [first_active length].
  - split; [discriminate|]. intros [Hk _]. lia.
  - destruct (status_in (default NOT_STARTED (statuses !! i))
                get_active_statuses) eqn:Hactive.
    + apply status_in_active in Hactive. split.
      * intros H. inversion H; subst. repeat split; try lia; try assumption.
      * intros (Hk & Hact & Hfirst).
        destruct (decide (i = k)) as [->|Hne]; [reflexivity|].
        exfalso. apply (Hfirst i); [lia|assumption].
    + assert (Hinactive : ~ is_active (default NOT_STARTED (statuses !! i))).
      { intros H. apply status_in_active in H. congruence. }
      rewrite IH. split.
      * intros (Hk & Hact & Hfirst). repeat split; try lia; try assumption.
        intros j Hj. destruct (decide (j = i)) as [->|Hne]; [assumption|].
        apply Hfirst. lia.
      * intros (Hk & Hact & Hfirst).
        assert (i <> k) by (intros ->; contradiction).
        repeat split; try lia; try assumption.
        intros j Hj. apply Hfirst. lia.
Qed.

Lemma first_active_none (steps : list string)
    (statuses : list PlanStepStatus) :
  forall i,
    first_active i steps statuses = None <->
    (forall j, (i <= j < i + length steps)%nat ->
               ~ is_active (default NOT_STARTED (statuses !! j))).
Proof.
  induction steps as [|step rest IH]; intros i;
    cbn [first_active length].
  - split; [|reflexivity]. intros _ j Hj. lia.
  - destruct (status_in (default NOT_STARTED (statuses !! i))
                get_active_statuses) eqn:Hactive.
    + apply status_in_active in Hactive. split; [discriminate|].
      intros H. exfalso. apply (H i); [lia|assumption].
    + assert (Hinactive : ~ is_active (default NOT_STARTED (statuses !! i))).
      { intros H. apply status_in_active in H. congruence. }
      rewrite IH. split.
      * intros H j Hj. destruct (decide (j = i)) as [->|Hne]; [assumption|].
        apply H. lia.
      * intros H j Hj. apply H. lia.
Qed.

Section Selection.

Context {E : Type}.
Variable flow : PlanningFlow.
Variable planning_tool : ToolArgs -> M (@World E) string.
Hypothesis Htool : tool_ends planning_tool.

(** The scan returns the first active index; the step information is
    absent exactly when the index is. *)
Lemma scan_steps_selects (steps : list string)
    (statuses : list PlanStepStatus) :
  forall i w,
    exists info w',
      scan_steps flow planning_tool i steps statuses w
      = (Return (first_active i steps statuses, info), w')
      /\ (first_active i steps statuses = None -> info = None).
Proof.
  induction steps as [|step rest IH]; intros i w;
    cbn [first_active scan_steps].
  - exists None, w. split; reflexivity.
  - destruct (status_in (default NOT_STARTED (statuses !! i))
                get_active_statuses); [|apply IH].
    unfold bind at 1, try_except, bind at 1.
    pose proof (Htool (mark_step_args (active_plan_id flow) i IN_PROGRESS) w)
      as Hends.
    destruct (planning_tool _ w) as [[text|e|] w1]; simpl in *.
    + eexists _, _. split; [reflexivity|discriminate].
    + unfold catches_Exception. rewrite Hends. simpl.
      eexists _, _. split; [reflexivity|discriminate].
    + contradiction.
Qed.

Lemma _get_current_step_info_selects (w : World) (plan : PlanData) :
  active_plan_id flow <> "" ->
  plans w !! active_plan_id flow = Some plan ->
  exists info w',
    _get_current_step_info flow planning_tool w
    = (Return (first_active 0 (default [] (steps plan))
                 (default [] (step_statuses plan)), info), w')
    /\ (first_active 0 (default [] (steps plan))
          (default [] (step_statuses plan)) = None -> info = None).
Proof.
  intros Hid Hplan. unfold _get_current_step_info, bind, get. simpl.
  unfold truthy. rewrite (proj2 (String.eqb_neq _ _) Hid). simpl.
  rewrite Hplan. unfold try_except.
  destruct (scan_steps_selects (default [] (steps plan))
              (default [] (step_statuses plan)) 0%nat w)
    as (info & w' & Hscan & Hnone).
  rewrite Hscan. exists info, w'. split; [reflexivity|exact Hnone].
Qed.

End Selection.

(** C4: for a plan stored under the (non-empty) active plan id, with a
    planning tool whose calls end, [_get_current_step_info] returns as
    current the lowest index whose status, [NOT_STARTED] beyond the end
    of [step_statuses], is [NOT_STARTED] or [IN_PROGRESS]; and it
    returns [(None, None)] exactly when the status of every step is
    [COMPLETED] or [BLOCKED]. *)
Theorem current_step_is_first_active :
  forall (E : Type) (flow : PlanningFlow)
         (planning_tool : ToolArgs -> M (@World E) string)
         (w : @World E) (plan : PlanData),
    tool_ends planning_tool ->
    active_plan_id flow <> "" ->
    plans w !! active_plan_id flow = Some plan ->
    exists index info w',
      _get_current_step_info flow planning_tool w = (Return (index, info), w')
      /\ (forall i,
            index = Some i <->
            (i < length (default [] (steps plan)))%nat
            /\ is_active (status_at plan i)
            /\ (forall j, (j < i)%nat -> ~ is_active (status_at plan j)))
      /\ (index = None /\ info = None <->
          (forall i, (i < length (default [] (steps plan)))%nat ->
                     status_at plan i = COMPLETED
                     \/ status_at plan i = BLOCKED)).
Proof.
  intros E flow planning_tool w plan Htool Hid Hplan.
  destruct (_get_current_step_info_selects flow planning_tool Htool w plan
              Hid Hplan) as (info & w' & Hrun & Hnone).
  eexists _, info, w'. split; [exact Hrun|]. split.
  - intros i. rewrite first_active_some. unfold status_at. split.
    + intros (Hi & Hact & Hfirst). repeat split; try lia; try assumption.
      intros j Hj. apply Hfirst. lia.
    + intros (Hi & Hact & Hfirst). repeat split; try lia; try assumption.
      intros j Hj. apply Hfirst. lia.
  - split.
    + intros [Hindex _] i Hi. apply not_active_iff.
      apply (proj1 (first_active_none _ _ 0%nat) Hindex). lia.
    + intros Hall.
      assert (Hindex : first_active 0 (default [] (steps plan))
                         (default [] (step_statuses plan)) = None).
      { apply first_active_none. intros j Hj. apply not_active_iff.
        apply Hall. lia. }
      split; [exact Hindex | exact (Hnone Hindex)].
Qed.

Lemma failing_tool_ends : tool_ends failing_tool.
Proof. intros args w. reflexivity. Qed.

Lemma current_step_is_first_active_witness :
  exists info w',
    _get_current_step_info flow_one_agent failing_tool world_abc
    = (Return (Some 1%nat, info), w').
Proof.
  destruct (current_step_is_first_active unit flow_one_agent failing_tool
              world_abc plan_abc failing_tool_ends ltac:(discriminate)
              eq_refl)
    as (index & info & w' & Hrun & Hsome & _).
  assert (Hindex : index = Some 1%nat).
  { apply Hsome. split; [simpl; lia|]. split.
    - right. reflexivity.
    - intros j Hj. assert (j = 0%nat) as -> by lia.
      intros [H|H]; discriminate. }
  subst index. exists info, w'. exact Hrun.
Defined.

(** The text of a plan whose progress is known. *)
Lemma plan_text_of_eq (plan_id : string) (plan : PlanData)
    (progress : PyFloat.number) :
  let all_steps := default [] (steps plan) in
  let statuses :=
    pad (length all_steps) NOT_STARTED (default [] (step_statuses plan)) in
  progress_of (status_count COMPLETED statuses) (Z.of_nat (length all_steps))
  = Return progress ->
  plan_text_of plan_id plan =
    Return
      (header_line plan_id plan
       +:+ repeat_str "=" (len (header_line plan_id plan)) +:+ nl +:+ nl
       +:+ progress_line (status_count COMPLETED statuses)
             (Z.of_nat (length all_steps)) progress
       +:+ status_line statuses
       +:+ "Steps:" +:+ nl
       +:+ render_steps 0 all_steps statuses
             (pad (length all_steps) "" (default [] (step_notes plan)))).
Proof.
  intros all_steps statuses Hprogress. unfold plan_text_of.
  fold all_steps. fold statuses. rewrite Hprogress. reflexivity.
Qed.

Lemma render_steps_cons (i : nat) (step : string) (status : PlanStepStatus)
    (note : string) (steps : list string) (statuses : list PlanStepStatus)
    (notes : list string) :
  render_steps i (step :: steps) (status :: statuses) (note :: notes) =
    str_int (Z.of_nat i) +:+ ". " +:+ mark_of status +:+ " " +:+ step +:+ nl
    +:+ (if truthy note then "   Notes: " +:+ note +:+ nl else "")
    +:+ render_steps (S i) steps statuses notes.
Proof. destruct status; reflexivity. Qed.

Lemma progress_one_of_three :
  progress_of 1 3
  = Return (PyFloat.NFloat (S754_finite false 4691249611844266 (-47)))
  /\ PyFloat.format_1f
       (PyFloat.NFloat (S754_finite false 4691249611844266 (-47)))
     = "33.3".
Proof. split; vm_compute; reflexivity. Qed.

Lemma has_line_here (l post : string) : has_line (nl +:+ l +:+ nl +:+ post) l.
Proof. exists "", post. reflexivity. Qed.

Lemma has_line_skip (a text l : string) :
  has_line text l -> has_line (a +:+ text) l.
Proof.
  intros (pre & post & ->). exists (a +:+ pre), post.
  rewrite str_app_assoc. reflexivity.
Qed.

Lemma progress_line_one_of_three :
  progress_line 1 3 (PyFloat.NFloat (S754_finite false 4691249611844266 (-47)))
  = "Progress: 1/3 steps completed (33.3%)" +:+ nl.
Proof. vm_compute. reflexivity. Qed.

Lemma step_line_b (rest : string) :
  str_int (Z.of_nat 1) +:+ ". " +:+ mark_of IN_PROGRESS +:+ " " +:+ "b" +:+ nl
  +:+ rest
  = "1. [→] b" +:+ nl +:+ rest.
Proof. reflexivity. Qed.

Lemma pad_three (notes : list string) :
  exists n0 n1 n2 rest, pad 3 "" notes = n0 :: n1 :: n2 :: rest.
Proof.
  destruct notes as [|n0 [|n1 [|n2 rest]]]; eexists _, _, _, _; reflexivity.
Qed.

(** The two lines of the plan with steps a, b, c. *)
Lemma abc_text (plan_id : string) (plan : PlanData) :
     steps plan = Some ["a"; "b"; "c"] ->
     step_statuses plan = Some [COMPLETED; IN_PROGRESS; NOT_STARTED] ->
     exists text,
       plan_text_of plan_id plan = Return text
       /\ has_line text "Progress: 1/3 steps completed (33.3%)"
       /\ has_line text "1. [→] b".
Proof.
  intros Hsteps Hstatuses.
  destruct progress_one_of_three as [Hprogress _].
  pose proof (plan_text_of_eq plan_id plan) as Htext.
  rewrite Hsteps, Hstatuses in Htext.
  specialize (Htext _ Hprogress).
  eexists. split; [exact Htext|].
  change (status_count COMPLETED
            (pad (length (default [] (Some ["a"; "b"; "c"]))) NOT_STARTED
               (default [] (Some [COMPLETED; IN_PROGRESS; NOT_STARTED]))))
    with 1.
  change (Z.of_nat (length (default [] (Some ["a"; "b"; "c"])))) with 3.
  rewrite progress_line_one_of_three.
  split.
  - do 3 apply has_line_skip. rewrite str_app_assoc. apply has_line_here.
  - do 8 apply has_line_skip.
    change (length (default [] (Some ["a"; "b"; "c"]))) with 3%nat.
    change (default [] (Some ["a"; "b"; "c"])) with ["a"; "b"; "c"].
    change (pad 3 NOT_STARTED
              (default [] (Some [COMPLETED; IN_PROGRESS; NOT_STARTED])))
      with [COMPLETED; IN_PROGRESS; NOT_STARTED].
    destruct (pad_three (default [] (step_notes plan)))
      as (n0 & n1 & n2 & rest & ->).
    rewrite !render_steps_cons.
    do 5 apply has_line_skip.
    destruct (truthy n0).
    + apply has_line_skip. rewrite !str_app_assoc.
      do 2 apply has_line_skip. rewrite step_line_b. apply has_line_here.
    + change ("" +:+ ?x) with x.
      rewrite step_line_b. apply has_line_here.
Qed.

Lemma progress_line_no_steps (completed : Z) :
  progress_line completed 0 (PyFloat.NInt 0)
  = ("Progress: " +:+ str_int completed)
    +:+ "/0 steps completed (0.0%)" +:+ nl.
Proof. unfold progress_line. rewrite str_app_assoc. reflexivity. Qed.

(** C9: for the steps a, b, c with statuses COMPLETED, IN_PROGRESS,
    NOT_STARTED, whatever the title, the identifier and the notes, the
    rendered text has the line [Progress: 1/3 steps completed (33.3%)]
    and the line [1. [→] b]; every step line carries the mark of its
    status, [✓], [→], [!] or [ ]; a plan without steps is reported with
    0.0%; and [_generate_plan_text_from_storage] returns this text for
    the plan stored under the active plan id. *)
Theorem plan_text_progress_and_marks :
  (forall plan_id plan,
     steps plan = Some ["a"; "b"; "c"] ->
     step_statuses plan = Some [COMPLETED; IN_PROGRESS; NOT_STARTED] ->
     exists text,
       plan_text_of plan_id plan = Return text
       /\ has_line text "Progress: 1/3 steps completed (33.3%)"
       /\ has_line text "1. [→] b")
  /\ (forall status, marks_get get_status_marks status = Some (mark_of status))
  /\ (forall i step status note steps statuses notes,
        render_steps i (step :: steps) (status :: statuses) (note :: notes) =
          str_int (Z.of_nat i) +:+ ". " +:+ mark_of status +:+ " " +:+ step
          +:+ nl
          +:+ (if truthy note then "   Notes: " +:+ note +:+ nl else "")
          +:+ render_steps (S i) steps statuses notes)
  /\ (forall plan_id plan,
        default [] (steps plan) = [] ->
        exists text pre post,
          plan_text_of plan_id plan = Return text
          /\ text = pre +:+ "/0 steps completed (0.0%)" +:+ nl +:+ post)
  /\ (forall (E : Type) (flow : PlanningFlow) (w : @World E) plan text,
        plans w !! active_plan_id flow = Some plan ->
        plan_text_of (active_plan_id flow) plan = Return text ->
        fst (_generate_plan_text_from_storage flow w) = Return text).
Proof.
  split; [|split; [|split; [|split]]].
  - apply abc_text.
  - intros status. destruct status; reflexivity.
  - apply render_steps_cons.
  - intros plan_id plan Hsteps.
    pose proof (plan_text_of_eq plan_id plan (PyFloat.NInt 0)) as Htext.
    cbv zeta in Htext. rewrite Hsteps in Htext. specialize (Htext eq_refl).
    rewrite progress_line_no_steps in Htext.
    eexists.
    eexists (header_line plan_id plan
             +:+ repeat_str "=" (len (header_line plan_id plan))
             +:+ nl +:+ nl +:+ "Progress: " +:+ str_int _).
    eexists. split; [exact Htext|].
    rewrite !str_app_assoc. reflexivity.
  - intros E flow w plan text Hplan Htext.
    unfold _generate_plan_text_from_storage, bind, get. simpl.
    rewrite Hplan. simpl. rewrite Htext. reflexivity.
Qed.

Lemma plan_text_progress_and_marks_witness :
  exists text,
    plan_text_of "plan_1" plan_abc = Return text
    /\ has_line text "Progress: 1/3 steps completed (33.3%)"
    /\ has_line text "1. [→] b".
Proof.
  destruct plan_text_progress_and_marks as [Habc _].
  exact (Habc "plan_1" plan_abc eq_refl eq_refl).
Defined.

(** [execute] lets no exception that derives from [Exception] out. *)
Lemma execute_raises_no_exception {E : Type} (flow : PlanningFlow)
    planning_tool llm_ask_tool llm_ask json_loads agent_run agent_state
    (fuel : nat) (input_text : string) (w w' : @World E) (e : exn) :
  execute flow planning_tool llm_ask_tool llm_ask json_loads agent_run
    agent_state fuel input_text w = (Raise e, w') ->
  isinstance_Exception true e = false.
Proof.
  unfold execute, try_except.
  match goal with
  | |- context [match ?body with _ => _ end] =>
      destruct body as [[text|e0|] w0]
  end; try discriminate.
  destruct (catches_Exception e0) eqn:Hcatch; [discriminate|].
  intros H. inversion H; subst. exact Hcatch.
Qed.

(** C7, at a flow without a primary agent: [execute] does not raise;
    the error that it raises for the missing agent is caught by its own
    handler and comes back as the returned text. *)
Theorem execute_absorbs_missing_primary_agent :
  forall (E : Type) planning_tool llm_ask_tool llm_ask json_loads agent_run
         agent_state (fuel : nat) (input_text : string) (w : @World E),
    execute flow_without_primary planning_tool llm_ask_tool llm_ask
      json_loads agent_run agent_state fuel input_text w
    = (Return "Execution failed: No primary agent available", w).
Proof. intros. reflexivity. Qed.

End PlanningProperties.

(** ** Properties of the gateway *)

Section InstanceProperties.
Import Py LLM Samples.

Section Registry.

Variable config_llm : gmap string LLMSettings.
Variable encoding_for_model : string -> option Tokenizer.
Variable cl100k_base : Tokenizer.
Variable client_error : Client -> option exn.

Local Abbreviation init :=
  (__init__ config_llm encoding_for_model cl100k_base client_error).
Local Abbreviation make :=
  (construct config_llm encoding_for_model cl100k_base client_error).

(** On an object that has its client, [__init__] does nothing. *)
Lemma init_skipped (loc : nat) (name : string)
    (cfg : option (gmap string LLMSettings)) (r : Registry) (o : Obj)
    (c : Client) :
  heap r !! loc = Some o -> obj_client o = Some c ->
  init loc name cfg r = (Return tt, r).
Proof.
  intros Hobj Hclient. unfold __init__, bind, get. simpl.
  rewrite Hobj, Hclient. reflexivity.
Qed.

(** What [__init__] may change: the object at [loc] and nothing else;
    when it returns, that object has its client. *)
Lemma init_frame (loc : nat) (name : string)
    (cfg : option (gmap string LLMSettings)) (r : Registry) :
  _instances (snd (init loc name cfg r)) = _instances r
  /\ length (heap (snd (init loc name cfg r))) = length (heap r)
  /\ (forall l, l <> loc ->
        heap (snd (init loc name cfg r)) !! l = heap r !! l)
  /\ (fst (init loc name cfg r) = Return tt ->
      exists o c, heap (snd (init loc name cfg r)) !! loc = Some o
                  /\ obj_client o = Some c).
Proof.
  unfold __init__, bind, get. simpl.
  destruct (heap r !! loc) as [o|] eqn:Hobj; simpl;
    [|repeat split; discriminate].
  destruct (obj_client o) as [c|] eqn:Hclient; simpl.
  { repeat split. intros _. exists o, c. split; assumption. }
  match goal with
  | |- context [?m !! "default"] => destruct (m !! "default") as [fallback|]
  end; simpl; [|repeat split; discriminate].
  assert (Hloc : (loc < length (heap r))%nat)
    by (apply lookup_lt_is_Some; eauto).
  unfold set_obj, modify. simpl.
  destruct (client_error _) as [e|]; simpl.
  - repeat split.
    + apply length_insert.
    + intros l Hl. apply list_lookup_insert_ne. congruence.
    + discriminate.
  - repeat split.
    + rewrite !length_insert. reflexivity.
    + intros l Hl. rewrite !list_lookup_insert_ne by congruence. reflexivity.
    + intros _. eexists _, _. split.
      * apply list_lookup_insert_eq. rewrite length_insert. exact Hloc.
      * reflexivity.
Qed.

Lemma construct_registered (name : string)
    (cfg : option (gmap string LLMSettings)) (r : Registry) (loc : nat) :
  registry_ok r -> _instances r !! name = Some loc ->
  make name cfg r = (Return loc, r).
Proof.
  intros Hok Hname. destruct (Hok name loc Hname) as (o & c & Hobj & Hclient).
  unfold construct, __new__, bind at 1, bind at 1, get. simpl.
  rewrite Hname. simpl. unfold bind.
  rewrite (init_skipped loc name cfg r o c Hobj Hclient). reflexivity.
Qed.

(** A construction keeps the registry well formed, keeps every
    registered name and its object, and registers the name when it
    returns. *)
Lemma construct_effect (name : string)
    (cfg : option (gmap string LLMSettings)) (r : Registry) :
  registry_ok r ->
  registry_ok (snd (make name cfg r))
  /\ (forall n l, _instances r !! n = Some l ->
        _instances (snd (make name cfg r)) !! n = Some l
        /\ heap (snd (make name cfg r)) !! l = heap r !! l)
  /\ (forall loc, fst (make name cfg r) = Return loc ->
        _instances (snd (make name cfg r)) !! name = Some loc).
Proof.
  intros Hok.
  destruct (_instances r !! name) as [loc|] eqn:Hname.
  { rewrite (construct_registered name cfg r loc Hok Hname). simpl.
    repeat split; try assumption. intros loc' H. congruence. }
  set (r0 := {| _instances := _instances r;
                heap := (heap r ++ [{| obj_attrs := None;
                                       obj_client := None |}])%list |}).
  set (instance := length (heap r)).
  destruct (init_frame instance name cfg r0)
    as (Hinst & Hlen & Hother & Hclient).
  assert (Hold : forall n l, _instances r !! n = Some l ->
                   (l < instance)%nat
                   /\ heap (snd (init instance name cfg r0)) !! l
                      = heap r !! l).
  { intros n l Hn. destruct (Hok n l Hn) as (o & c & Hobj & _).
    assert (l < instance)%nat by (apply lookup_lt_is_Some; eauto).
    split; [assumption|].
    rewrite Hother by lia. unfold r0. simpl.
    apply lookup_app_l. assumption. }
  assert (Hrun :
    make name cfg r =
      match init instance name cfg r0 with
      | (Return _, r1) =>
          (Return instance,
           {| _instances := <[name := instance]> (_instances r1);
              heap := heap r1 |})
      | (Raise e, r1) => (Raise e, r1)
      | (OutOfFuel, r1) => (OutOfFuel, r1)
      end).
  { unfold construct, __new__, bind at 1, bind at 1, get. simpl.
    rewrite Hname. unfold bind at 1, put. simpl. unfold bind at 1.
    fold r0. fold instance.
    destruct (init instance name cfg r0) as [[[]|e|] r1] eqn:Hinit;
      simpl in *; try reflexivity.
    unfold bind at 1, modify. simpl. unfold bind.
    destruct (Hclient eq_refl) as (o & c & Hobj & Hc).
    rewrite (init_skipped instance name cfg _ o c); [reflexivity| |exact Hc].
    exact Hobj. }
  rewrite Hrun.
  destruct (init instance name cfg r0) as [[[]|e|] r1] eqn:Hinit;
    cbn [fst snd _instances heap] in *.
  - split; [|split].
    + intros n l Hn. cbn [_instances heap] in *.
      destruct (decide (name = n)) as [<-|Hne].
      * rewrite lookup_insert_eq in Hn. inversion Hn; subst.
        exact (Hclient eq_refl).
      * rewrite lookup_insert_ne in Hn by exact Hne. rewrite Hinst in Hn.
        destruct (Hok n l Hn) as (o & c & Hobj & Hc).
        destruct (Hold n l Hn) as [_ Hsame].
        exists o, c. split; [congruence|exact Hc].
    + intros n l Hn. destruct (Hold n l Hn) as [_ Hsame].
      split; [|exact Hsame].
      rewrite lookup_insert_ne by congruence. rewrite Hinst. exact Hn.
    + intros loc H. inversion H; subst. apply lookup_insert_eq.
  - split; [|split].
    + intros n l Hn. rewrite Hinst in Hn.
      destruct (Hok n l Hn) as (o & c & Hobj & Hc).
      destruct (Hold n l Hn) as [_ Hsame].
      exists o, c. split; [congruence|exact Hc].
    + intros n l Hn. destruct (Hold n l Hn) as [_ Hsame].
      split; [rewrite Hinst; exact Hn|exact Hsame].
    + discriminate.
  - split; [|split].
    + intros n l Hn. rewrite Hinst in Hn.
      destruct (Hok n l Hn) as (o & c & Hobj & Hc).
      destruct (Hold n l Hn) as [_ Hsame].
      exists o, c. split; [congruence|exact Hc].
    + intros n l Hn. destruct (Hold n l Hn) as [_ Hsame].
      split; [rewrite Hinst; exact Hn|exact Hsame].
    + discriminate.
Qed.

(** An update of the token counts keeps the registry well formed and
    the registered names. *)
Lemma update_effect (loc : nat) (input_tokens completion_tokens : Z)
    (r : Registry) :
  registry_ok r ->
  registry_ok (snd (update_object loc input_tokens completion_tokens r))
  /\ _instances (snd (update_object loc input_tokens completion_tokens r))
     = _instances r.
Proof.
  intros Hok. unfold update_object, bind, get. simpl.
  destruct (heap r !! loc) as [[[attrs|] client]|] eqn:Hobj; simpl;
    try (split; [exact Hok|reflexivity]).
  split; [|reflexivity].
  intros n l Hn. simpl in Hn. destruct (Hok n l Hn) as (o & c & Hl & Hc).
  simpl. destruct (decide (loc = l)) as [->|Hne].
  - rewrite Hobj in Hl. inversion Hl; subst. simpl in Hc.
    eexists _, c. split.
    + apply list_lookup_insert_eq. apply lookup_lt_is_Some. eauto.
    + exact Hc.
  - exists o, c. split; [|exact Hc].
    rewrite list_lookup_insert_ne by exact Hne. exact Hl.
Qed.

Lemma apply_ops_keeps (name : string) (loc : nat)
    (ops : list registry_op) :
  forall r,
    registry_ok r -> _instances r !! name = Some loc ->
    registry_ok
      (apply_ops config_llm encoding_for_model cl100k_base client_error ops r)
    /\ _instances
         (apply_ops config_llm encoding_for_model cl100k_base client_error
            ops r) !! name = Some loc.
Proof.
  induction ops as [|op ops IH]; intros r Hok Hname; [split; assumption|].
  unfold apply_ops. simpl. apply IH.
  - destruct op as [l i c|n cfg]; simpl.
    + apply update_effect. exact Hok.
    + apply construct_effect. exact Hok.
  - destruct op as [l i c|n cfg]; simpl.
    + rewrite (proj2 (update_effect l i c r Hok)). exact Hname.
    + apply (proj1 (proj2 (construct_effect n cfg r Hok))). exact Hname.
Qed.

End Registry.

(** C10: once [LLM(config_name)] has returned an object, every later
    construction under that name, whatever happened to the token counts
    and whichever other constructions were attempted in between,
    returns the same object and leaves all objects as they are: the
    initialisation is not run again and the token counts of the shared
    object are not reset. In particular an update of the counts made
    before the second construction is found after it. *)
Theorem same_name_same_instance :
  forall (config_llm : gmap string LLMSettings)
         (encoding_for_model : string -> option Tokenizer)
         (cl100k_base : Tokenizer) (client_error : Client -> option exn)
         (r : Registry) (name : string)
         (cfg : option (gmap string LLMSettings)) (loc : nat) (r1 : Registry),
    registry_ok r ->
    construct config_llm encoding_for_model cl100k_base client_error name cfg r
    = (Return loc, r1) ->
    (forall ops cfg',
       construct config_llm encoding_for_model cl100k_base client_error
         name cfg'
         (apply_ops config_llm encoding_for_model cl100k_base client_error
            ops r1)
       = (Return loc,
          apply_ops config_llm encoding_for_model cl100k_base client_error
            ops r1))
    /\ (forall attrs client input_tokens completion_tokens cfg',
          heap r1 !! loc
          = Some {| obj_attrs := Some attrs; obj_client := client |} ->
          heap
            (snd (construct config_llm encoding_for_model cl100k_base
                    client_error name cfg'
                    (snd (update_object loc input_tokens completion_tokens
                            r1)))) !! loc
          = Some {| obj_attrs :=
                      Some (update_token_count input_tokens completion_tokens
                              attrs);
                    obj_client := client |}).
Proof.
  intros config_llm encoding_for_model cl100k_base client_error r name cfg
    loc r1 Hok Hmake.
  pose proof (construct_effect config_llm encoding_for_model cl100k_base
                client_error name cfg r Hok) as (Hok1 & _ & Hreg).
  rewrite Hmake in Hok1, Hreg. simpl in Hok1, Hreg.
  specialize (Hreg loc eq_refl).
  split.
  - intros ops cfg'.
    destruct (apply_ops_keeps config_llm encoding_for_model cl100k_base
                client_error name loc ops r1 Hok1 Hreg) as [Hok2 Hreg2].
    apply construct_registered; assumption.
  - intros attrs client input_tokens completion_tokens cfg' Hobj.
    pose proof (update_effect loc input_tokens completion_tokens r1 Hok1)
      as [Hok2 Hinst2].
    rewrite construct_registered with (loc := loc);
      [|exact Hok2|rewrite Hinst2; exact Hreg].
    unfold update_object, bind, get. simpl. rewrite Hobj. simpl.
    apply list_lookup_insert_eq. apply lookup_lt_is_Some. eauto.
Qed.

Lemma empty_registry_ok : registry_ok empty_registry.
Proof.
  intros name loc H. unfold empty_registry in H. simpl in H.
  rewrite lookup_empty in H. discriminate.
Qed.

Lemma same_name_same_instance_witness :
  exists r1,
    construct sample_config no_encoding byte_tokens no_client_error
      "default" None empty_registry = (Return 0%nat, r1)
    /\ construct sample_config no_encoding byte_tokens no_client_error
         "default" (Some sample_config)
         (apply_ops sample_config no_encoding byte_tokens no_client_error
            [OpUpdate 0 10 5; OpConstruct "manus" None] r1)
       = (Return 0%nat,
          apply_ops sample_config no_encoding byte_tokens no_client_error
            [OpUpdate 0 10 5; OpConstruct "manus" None] r1).
Proof.
  destruct (construct sample_config no_encoding byte_tokens no_client_error
              "default" None empty_registry) as [out r1] eqn:Hmake.
  assert (Hout : out = Return 0%nat).
  { vm_compute in Hmake. inversion Hmake. reflexivity. }
  subst out. exists r1. split; [reflexivity|].
  apply (proj1 (same_name_same_instance sample_config no_encoding byte_tokens
                  no_client_error empty_registry "default" None 0%nat r1
                  empty_registry_ok Hmake)).
Defined.

End InstanceProperties.

Section BudgetProperties.
Import Py TokenCounter LLM Samples.

Section Budget.

Variable create : nat -> Request -> outcome Completion.
Variable create_stream : nat -> Request -> outcome (list (option string)).
Variable strip : string -> string.

Lemma ask_once_over_budget messages system_msgs stream temperature
    (w : World) formatted input_tokens :
  format_all (llm w) messages system_msgs = Return formatted ->
  count_message_tokens (llm w) formatted = Return input_tokens ->
  check_token_limit (llm w) input_tokens = false ->
  ask_once create create_stream strip messages system_msgs stream temperature w
  = (Raise (Exn TokenLimitExceeded
              (get_limit_error_message (llm w) input_tokens)), w).
Proof.
  intros Hformat Hcount Hcheck.
  unfold ask_once, bind, self, lift. simpl.
  rewrite Hformat, Hcount, Hcheck. reflexivity.
Qed.

Lemma ask_tool_once_over_budget messages system_msgs timeout tools
    tool_choice temperature (w : World) formatted message_tokens :
  mem tool_choice TOOL_CHOICE_VALUES = true ->
  format_all (llm w) messages system_msgs = Return formatted ->
  count_message_tokens (llm w) formatted = Return message_tokens ->
  let input_tokens :=
    message_tokens
    + (if is_truthy_list tools then count_tools (llm w) (default [] tools) 0
       else 0) in
  check_token_limit (llm w) input_tokens = false ->
  ask_tool_once create messages system_msgs timeout tools tool_choice
    temperature w
  = (Raise (Exn TokenLimitExceeded
              (get_limit_error_message (llm w) input_tokens)), w).
Proof.
  intros Hchoice Hformat Hcount input_tokens Hcheck.
  unfold ask_tool_once. rewrite Hchoice.
  unfold bind, self, lift. simpl.
  rewrite Hformat, Hcount. fold input_tokens. rewrite Hcheck. reflexivity.
Qed.

(** An attempt that fails in the same way whatever the attempt counter:
    when the predicate accepts its exception the wrapper makes all its
    attempts and raises [RetryError]; otherwise it makes one. *)
Lemma retrying_same_failure {A} (tle : bool) (attempt : M World A) (e : exn)
    (w : World) :
  (forall n, attempt (after_attempts n w) = (Raise e, after_attempts n w)) ->
  forall remaining k,
    retrying tle remaining attempt (after_attempts k w) =
      if retry_predicate tle e then
        (Raise (RetryError e), after_attempts (k + S remaining) w)
      else (Raise e, after_attempts (S k) w).
Proof.
  intros Hfail remaining.
  induction remaining as [|remaining IH]; intros k;
    cbn [retrying]; unfold bind, start_attempt, try_except;
    cbn [fst snd llm requests attempts after_attempts].
  - replace {| llm := llm w; requests := requests w;
                attempts := S (attempts w + k) |}
      with (after_attempts (S k) w)
      by (unfold after_attempts; f_equal; lia).
    rewrite Hfail. destruct (retry_predicate tle e); [|reflexivity].
    unfold raise. f_equal. f_equal. lia.
  - replace {| llm := llm w; requests := requests w;
                attempts := S (attempts w + k) |}
      with (after_attempts (S k) w)
      by (unfold after_attempts; f_equal; lia).
    rewrite Hfail. destruct (retry_predicate tle e) eqn:Hretry;
      [|reflexivity].
    rewrite IH. f_equal. f_equal. lia.
Qed.

End Budget.

Section BudgetRetry.

Variable create : nat -> Request -> outcome Completion.
Variable create_stream : nat -> Request -> outcome (list (option string)).
Variable strip : string -> string.

(** Over budget, [ask] never reaches the provider and leaves the token
    counts alone; whether it is attempted once or six times is decided
    by [TokenLimitExceeded] deriving from [Exception] or not. *)
Lemma ask_over_budget (tle : bool) messages system_msgs stream temperature
    (w : World) formatted input_tokens :
  format_all (llm w) messages system_msgs = Return formatted ->
  count_message_tokens (llm w) formatted = Return input_tokens ->
  check_token_limit (llm w) input_tokens = false ->
  ask create create_stream strip tle messages system_msgs stream temperature w
  = if tle then
      (Raise (RetryError
                (Exn TokenLimitExceeded
                   (get_limit_error_message (llm w) input_tokens))),
       after_attempts 6 w)
    else
      (Raise (Exn TokenLimitExceeded
                (get_limit_error_message (llm w) input_tokens)),
       after_attempts 1 w).
Proof.
  intros Hformat Hcount Hcheck. unfold ask.
  assert (Hw : w = after_attempts 0 w)
    by (destruct w; unfold after_attempts; simpl; f_equal; lia).
  rewrite Hw at 1.
  rewrite (retrying_same_failure tle _
             (Exn TokenLimitExceeded
                (get_limit_error_message (llm w) input_tokens))).
  - destruct tle; reflexivity.
  - intros n.
    exact (ask_once_over_budget create create_stream strip messages
             system_msgs stream temperature (after_attempts n w) formatted
             input_tokens Hformat Hcount Hcheck).
Qed.

Lemma ask_tool_over_budget (tle : bool) messages system_msgs timeout tools
    tool_choice temperature (w : World) formatted message_tokens :
  mem tool_choice TOOL_CHOICE_VALUES = true ->
  format_all (llm w) messages system_msgs = Return formatted ->
  count_message_tokens (llm w) formatted = Return message_tokens ->
  let input_tokens :=
    message_tokens
    + (if is_truthy_list tools then count_tools (llm w) (default [] tools) 0
       else 0) in
  check_token_limit (llm w) input_tokens = false ->
  ask_tool create tle messages system_msgs timeout tools tool_choice
    temperature w
  = if tle then
      (Raise (RetryError
                (Exn TokenLimitExceeded
                   (get_limit_error_message (llm w) input_tokens))),
       after_attempts 6 w)
    else
      (Raise (Exn TokenLimitExceeded
                (get_limit_error_message (llm w) input_tokens)),
       after_attempts 1 w).
Proof.
  intros Hchoice Hformat Hcount input_tokens Hcheck. unfold ask_tool.
  assert (Hw : w = after_attempts 0 w)
    by (destruct w; unfold after_attempts; simpl; f_equal; lia).
  rewrite Hw at 1.
  rewrite (retrying_same_failure tle _
             (Exn TokenLimitExceeded
                (get_limit_error_message (llm w) input_tokens))).
  - destruct tle; reflexivity.
  - intros n.
    exact (ask_tool_once_over_budget create messages system_msgs timeout
             tools tool_choice temperature (after_attempts n w) formatted
             message_tokens Hchoice Hformat Hcount Hcheck).
Qed.

(** C3, at a gateway with a ceiling of 100 input tokens of which 90 are
    used, for a request estimated at 20 tokens, with
    [TokenLimitExceeded] deriving from [Exception]: the provider is not
    called and the counts stay, but [ask] and [ask_tool] are attempted
    six times and end in [RetryError], not in [TokenLimitExceeded]. *)
Theorem token_limit_is_retried :
  ask create create_stream strip true [user_says "0123456789"] None true None
    (init_world llm_near_limit)
  = (Raise (RetryError
              (Exn TokenLimitExceeded
                 "Request may exceed input token limit (Current: 90, Needed: 20, Max: 100)")),
     {| llm := llm_near_limit; requests := []; attempts := 6 |})
  /\ ask_tool create true [user_says "hi"] None 300 (Some [planning_schema])
       "auto" None (init_world llm_near_limit)
     = (Raise (RetryError
                 (Exn TokenLimitExceeded
                    "Request may exceed input token limit (Current: 90, Needed: 20, Max: 100)")),
        {| llm := llm_near_limit; requests := []; attempts := 6 |}).
Proof.
  split.
  - etransitivity;
      [eapply (ask_over_budget true) with (input_tokens := 20);
         reflexivity
      |reflexivity].
  - etransitivity;
      [eapply (ask_tool_over_budget true) with (message_tokens := 12);
         reflexivity
      |reflexivity].
Qed.

(** Were [TokenLimitExceeded] outside [Exception], the same calls would
    be attempted once. *)
Lemma token_limit_outside_exception :
  ask create create_stream strip false [user_says "0123456789"] None true None
    (init_world llm_near_limit)
  = (Raise (Exn TokenLimitExceeded
              "Request may exceed input token limit (Current: 90, Needed: 20, Max: 100)"),
     {| llm := llm_near_limit; requests := []; attempts := 1 |}).
Proof.
  etransitivity;
    [eapply (ask_over_budget false) with (input_tokens := 20); reflexivity
    |reflexivity].
Qed.

End BudgetRetry.

End BudgetProperties.

(** ** Further properties of the agent execution engine *)

Section AgentEdgeProperties.
Import Py Agent Samples Scenarios.


Lemma starts_with_app (p text rest : string) :
  starts_with p text -> starts_with p (text +:+ rest).
Proof.
  intros [tail ->]. exists (tail +:+ rest). apply str_app_assoc.
Qed.

Lemma starts_with_join (p line : string) (more : list string) :
  starts_with p line -> starts_with p (join nl (line :: more)).
Proof.
  intros Hline. destruct more as [|x more]; [exact Hline|].
  change (join nl (line :: x :: more))
    with (line +:+ nl +:+ join nl (x :: more)).
  apply starts_with_app. exact Hline.
Qed.

Section Loop.

Variable step : BaseAgent -> outcome string * BaseAgent.

(** The list that the loop returns: the one it was given when no
    iteration ran, otherwise that list followed by step lines. *)
Lemma run_loop_results (fuel : nat) :
  forall results w rs w1,
    run_loop step fuel results w = (Return rs, w1) ->
    (rs = results /\ w1 = w /\ loop_condition (agent w) = false)
    \/ (exists line more,
          rs = (results ++ line :: more)%list /\ starts_with "Step " line).
Proof.
  induction fuel as [|fuel IH]; intros results w rs w1.
  - rewrite run_loop_zero.
    destruct (loop_condition (agent w)) eqn:Hcond; [discriminate|].
    intros [= <- <-]. left. repeat split. 
  - rewrite run_loop_eq.
    destruct (loop_condition (agent w)) eqn:Hcond.
    + cbv zeta. destruct (do_step step _) as [[text|e|] w2]; simpl;
        try discriminate.
      intros Hrest. right. apply IH in Hrest as [(-> & _ & _)|Hmore].
      * eexists _, []. split; [reflexivity|].
        eexists. reflexivity.
      * destruct Hmore as (line & more & -> & _).
        eexists _, (line :: more). rewrite <- app_assoc. simpl.
        split; [reflexivity|]. eexists. reflexivity.
    + intros [= <- <-]. left. repeat split. 
Qed.

(** The list that the body of [run] returns is never empty. *)
Lemma run_body_results (fuel : nat) (w0 w1 : World) (results : list string) :
  state (agent w0) = RUNNING ->
  run_body step fuel w0 = (Return results, w1) ->
  exists line more,
    results = line :: more
    /\ (starts_with "Step " line
        \/ starts_with "Terminated: Reached max steps (" line).
Proof.
  intros Hrunning. unfold run_body, bind.
  destruct (run_loop step fuel [] w0) as [[rs|e|] w2] eqn:Hloop;
    try discriminate.
  apply run_loop_results in Hloop as [(-> & -> & Hcond)|Hmore].
  - unfold loop_condition in Hcond. rewrite Hrunning in Hcond.
    rewrite bool_decide_eq_false_2 in Hcond by discriminate.
    rewrite andb_true_r in Hcond. apply Z.ltb_ge in Hcond.
    apply Z.leb_le in Hcond. unfold self. simpl. rewrite Hcond. simpl.
    intros [= <- _]. eexists _, []. split; [reflexivity|].
    right. eexists. reflexivity.
  - destruct Hmore as (line & more & -> & Hline). unfold self. simpl.
    destruct (max_steps (agent w2) <=? current_step (agent w2)); simpl;
      intros [= <- _]; eexists _, _; (split; [reflexivity|]);
      left; exact Hline.
Qed.

End Loop.

(** X1: whenever [run] returns, its text begins with the line of a
    step or with the line that reports the cap: the list of results is
    never empty, so the text [No steps executed] is never returned. *)
Theorem run_result_names_a_step_or_the_cap :
  forall (step : BaseAgent -> outcome string * BaseAgent) (fuel : nat)
         (request : option string) (w w' : World) (text : string),
    run step fuel request w = (Return text, w') ->
    starts_with "Step " text
    \/ starts_with "Terminated: Reached max steps (" text.
Proof.
  intros step fuel request w w' text.
  destruct (decide (state (agent w) = IDLE)) as [Hidle|Hbusy].
  2:{ unfold run, bind, self. simpl.
      rewrite bool_decide_eq_false_2 by exact Hbusy. discriminate. }
  rewrite (run_eq step fuel request w Hidle). cbv zeta.
  assert (Hrunning : state (agent (loop_entry request w)) = RUNNING).
  { unfold loop_entry, bind. destruct request as [t|]; simpl;
      [destruct (truthy t)|]; reflexivity. }
  destruct (run_body step fuel (loop_entry request w))
    as [[rs|e|] w1] eqn:Hbody; simpl; try discriminate.
  destruct (run_body_results step fuel _ _ _ Hrunning Hbody)
    as (line & more & -> & Hline).
  intros [= <- _].
  destruct Hline as [Hline|Hline]; [left|right];
    apply starts_with_join; exact Hline.
Qed.

Lemma run_result_names_a_step_or_the_cap_witness :
  starts_with "Step " "Step 1: done"
  \/ starts_with "Terminated: Reached max steps (" "Step 1: done".
Proof.
  apply (run_result_names_a_step_or_the_cap step_done 1 None
           (init_world (sample_agent 3 2 []))
           (snd (run step_done 1 None (init_world (sample_agent 3 2 []))))
           "Step 1: done").
  reflexivity.
Defined.

Lemma loop_entry_state (request : option string) (w : World) :
  state (agent (loop_entry request w)) = RUNNING.
Proof.
  unfold loop_entry, bind. destruct request as [t|]; simpl;
    [destruct (truthy t)|]; reflexivity.
Qed.

Lemma run_loop_stops (step : BaseAgent -> outcome string * BaseAgent)
    (fuel : nat) (results : list string) (w : World) :
  loop_condition (agent w) = false ->
  run_loop step fuel results w = (Return results, w).
Proof.
  intros Hcond. destruct fuel.
  - rewrite run_loop_zero, Hcond. reflexivity.
  - rewrite run_loop_eq, Hcond. reflexivity.
Qed.

(** X2: for a [step] that answers and sets the state [FINISHED]
    (and leaves the counters alone), a [run] from [IDLE] with room for
    more than one step below the cap executes exactly one step, returns
    its line, calls the sandbox cleanup once, and leaves the state
    [IDLE] and [current_step] one above its value before: the counter
    is reset only when the cap is reached. *)
Theorem run_finished_keeps_counter :
  forall (step : BaseAgent -> outcome string * BaseAgent) (fuel : nat)
         (request : option string) (w : World),
    keeps_counters step -> finishes step ->
    state (agent w) = IDLE ->
    current_step (agent w) + 1 < max_steps (agent w) ->
    exists text w',
      run step (S fuel) request w = (Return text, w')
      /\ starts_with ("Step " +:+ str_int (current_step (agent w) + 1)) text
      /\ current_step (agent w') = current_step (agent w) + 1
      /\ state (agent w') = IDLE
      /\ sandbox_cleanups w' = S (sandbox_cleanups w).
Proof.
  intros step fuel request w Hkeep Hfin Hidle Hroom.
  rewrite (run_eq step (S fuel) request w Hidle).
  destruct (loop_entry_counters request w) as [Hc Hm].
  pose proof (loop_entry_state request w) as Hrunning.
  pose proof (loop_entry_cleanups request w) as Hclean.
  set (w0 := loop_entry request w) in *.
  assert (Hbody : exists line w2,
            run_body step (S fuel) w0 = (Return [line], w2)
            /\ starts_with
                 ("Step " +:+ str_int (current_step (agent w) + 1)) line
            /\ current_step (agent w2) = current_step (agent w) + 1
            /\ sandbox_cleanups w2 = sandbox_cleanups w).
  { unfold run_body, bind at 1. rewrite run_loop_eq.
    assert (Hcond : loop_condition (agent w0) = true).
    { unfold loop_condition. rewrite Hrunning, Hc, Hm.
      rewrite bool_decide_eq_false_2 by discriminate.
      rewrite andb_true_r. apply Z.ltb_lt. lia. }
    rewrite Hcond. cbv zeta. unfold do_step. simpl.
    set (a1 := set_current_step (current_step (agent w0) + 1) (agent w0)).
    destruct (Hfin a1) as [[text Htext] Hstate].
    destruct (Hkeep a1) as [Hc1 Hm1].
    destruct (step a1) as [r a2]. simpl in *. subst r.
    match goal with
    | |- context [run_loop step fuel ?rs ?w2] =>
        rewrite (run_loop_stops step fuel rs w2)
    end.
    2:{ unfold loop_condition.
        destruct (is_stuck a2); simpl; rewrite Hstate;
          rewrite bool_decide_eq_true_2 by reflexivity;
          apply andb_false_r. }
    unfold bind, self.
    assert (Hnot : (max_steps a2 <=? current_step a2) = false).
    { apply Z.leb_gt. rewrite Hc1, Hm1. lia. }
    destruct (is_stuck a2); simpl; rewrite Hnot; simpl;
      eexists _, _; (split; [reflexivity|]); simpl;
      rewrite Hc1, <- Hc; (split; [|split; [reflexivity|exact Hclean]]);
      eexists; reflexivity. }
  destruct Hbody as (line & w2 & -> & Hline & Hcount & Hclean2).
  simpl. eexists _, _. split; [reflexivity|]. simpl.
  repeat split; try assumption. rewrite Hclean2. reflexivity.
Qed.

Lemma run_finished_keeps_counter_witness :
  exists text w',
    run step_done 1 None (init_world (sample_agent 3 2 []))
    = (Return text, w')
    /\ starts_with ("Step " +:+ str_int (0 + 1)) text
    /\ current_step (agent w') = 0 + 1
    /\ state (agent w') = IDLE
    /\ sandbox_cleanups w' = 1%nat.
Proof.
  apply (run_finished_keeps_counter step_done 0 None
           (init_world (sample_agent 3 2 []))).
  - intros a. split; reflexivity.
  - intros a. split; [eexists|]; reflexivity.
  - reflexivity.
  - simpl. lia.
Defined.

(** X3: [is_stuck] does not read the role of the last message: two
    memories that agree on the messages before the last one, on the
    content of the last one and on the threshold get the same answer. *)
Theorem is_stuck_ignores_last_role :
  forall (a a' : BaseAgent) (prior : list Message) (m m' : Message),
    memory a = (prior ++ [m])%list ->
    memory a' = (prior ++ [m'])%list ->
    content m = content m' ->
    duplicate_threshold a = duplicate_threshold a' ->
    is_stuck a = is_stuck a'.
Proof.
  intros a a' prior m m' Hmem Hmem' Hcontent Hthreshold.
  rewrite (is_stuck_snoc a prior m Hmem), (is_stuck_snoc a' prior m' Hmem').
  unfold is_duplicate_of. rewrite Hcontent, Hthreshold. reflexivity.
Qed.

Lemma is_stuck_ignores_last_role_witness :
  is_stuck (sample_agent 10 2
              [says "x"; says "x"; role_message user "x" None])
  = is_stuck (sample_agent 10 2 [says "x"; says "x"; says "x"]).
Proof.
  apply (is_stuck_ignores_last_role
           (sample_agent 10 2 [says "x"; says "x"; role_message user "x" None])
           (sample_agent 10 2 [says "x"; says "x"; says "x"])
           [says "x"; says "x"] (role_message user "x" None) (says "x"));
    reflexivity.
Defined.

End AgentEdgeProperties.

(** ** Further properties of the token counter *)

Section TokenEdgeProperties.
Import Py TokenCounter Samples TokenScenarios.

Section Counting.

Variable encode : string -> list nat.

Lemma count_messages_from_shift (messages : list MessageDict) :
  forall total n shift,
    count_messages_from encode messages total = Return n ->
    count_messages_from encode messages (total + shift) = Return (n + shift).
Proof.
  induction messages as [|m rest IH]; intros total n shift; simpl.
  - intros [= <-]. reflexivity.
  - destruct (count_one_message encode m) as [tokens|e|]; simpl;
      try discriminate.
    intros H. replace (total + shift + tokens) with (total + tokens + shift)
      by lia.
    apply IH. exact H.
Qed.

Lemma count_messages_from_app (first rest : list MessageDict) :
  forall total n,
    count_messages_from encode first total = Return n ->
    count_messages_from encode (first ++ rest) total
    = count_messages_from encode rest n.
Proof.
  induction first as [|m first IH]; intros total n; simpl.
  - intros [= <-]. reflexivity.
  - destruct (count_one_message encode m) as [tokens|e|]; simpl;
      try discriminate.
    apply IH.
Qed.

End Counting.

(** X4: the count of a concatenation of two message lists is the sum
    of their counts less the format tokens, which are counted once. *)
Theorem count_message_tokens_app :
  forall (encode : string -> list nat) (first rest : list MessageDict)
         (n1 n2 : Z),
    count_message_tokens encode first = Return n1 ->
    count_message_tokens encode rest = Return n2 ->
    count_message_tokens encode (first ++ rest)
    = Return (n1 + n2 - FORMAT_TOKENS).
Proof.
  intros encode first rest n1 n2 H1 H2. unfold count_message_tokens in *.
  rewrite (count_messages_from_app encode first rest _ _ H1).
  replace n1 with (FORMAT_TOKENS + (n1 - FORMAT_TOKENS)) by lia.
  rewrite (count_messages_from_shift encode rest _ _ (n1 - FORMAT_TOKENS) H2).
  f_equal. lia.
Qed.

Lemma count_message_tokens_app_witness :
  count_message_tokens byte_tokens
    ([text_message "user" "hello"] ++ [text_message "assistant" "hi"])
  = Return (15 + 17 - FORMAT_TOKENS).
Proof.
  apply (count_message_tokens_app byte_tokens
           [text_message "user" "hello"] [text_message "assistant" "hi"]
           15 17); reflexivity.
Defined.

Section Bounds.

Variable encode : string -> list nat.








End Bounds.



(** X6: for an image of high or medium detail (or without a detail
    key) whose dimensions are within 2048 and have a side of zero,
    [count_image] raises [ZeroDivisionError], from the division by the
    shorter side. *)
Theorem image_with_a_zero_side_raises :
  forall (item : DictItem) (width height : Z),
    item_detail item = Some "high" \/ item_detail item = Some "medium"
    \/ item_detail item = None ->
    item_dimensions item = Some (width, height) ->
    0 <= width <= 2048 -> 0 <= height <= 2048 ->
    width = 0 \/ height = 0 ->
    count_image item = Raise (Exn ZeroDivisionError "division by zero").
Proof.
  intros item width height Hdetail Hdim Hw Hh Hzero.
  assert (Hcount : count_image item
                   = _calculate_high_detail_tokens width height).
  { destruct Hdetail as [Hd|[Hd|Hd]]; unfold count_image;
      rewrite Hd, Hdim; reflexivity. }
  rewrite Hcount. unfold _calculate_high_detail_tokens, fit_max_size.
  assert (Hfit : (MAX_SIZE <? width) || (MAX_SIZE <? height) = false).
  { apply orb_false_iff. unfold MAX_SIZE. split; apply Z.ltb_ge; lia. }
  rewrite Hfit. simpl and_then. unfold fit_short_side.
  assert (Hmin : Z.min width height = 0) by lia.
  rewrite Hmin. reflexivity.
Qed.

Lemma image_with_a_zero_side_raises_witness :
  count_image (image (Some "high") (Some (0, 600)))
  = Raise (Exn ZeroDivisionError "division by zero").
Proof.
  apply (image_with_a_zero_side_raises (image (Some "high") (Some (0, 600)))
           0 600).
  - left. reflexivity.
  - reflexivity.
  - lia.
  - lia.
  - left. reflexivity.
Defined.

Lemma scale_sides_swap (width height : Z) (scale : spec_float) (w h : Z) :
  scale_sides width height scale = Return (w, h) ->
  scale_sides height width scale = Return (h, w).
Proof.
  unfold scale_sides.
  destruct (PyFloat.int_mul width scale) as [x|e|]; simpl; try discriminate.
  destruct (PyFloat.to_int x) as [x'|e|]; simpl; try discriminate.
  destruct (PyFloat.int_mul height scale) as [y|e|]; simpl; try discriminate.
  destruct (PyFloat.to_int y) as [y'|e|]; simpl; try discriminate.
  intros [= <- <-]. reflexivity.
Qed.

(** X7: the tokens of an image do not depend on its orientation:
    when [_calculate_high_detail_tokens] returns for a width and a
    height, it returns the same number for them exchanged. *)
Theorem image_tokens_ignore_orientation :
  forall (width height n : Z),
    _calculate_high_detail_tokens width height = Return n ->
    _calculate_high_detail_tokens height width = Return n.
Proof.
  intros width height n. unfold _calculate_high_detail_tokens.
  destruct (fit_max_size width height) as [[w1 h1]|e|] eqn:Hfit; simpl;
    try discriminate.
  assert (Hfit' : fit_max_size height width = Return (h1, w1)).
  { unfold fit_max_size in *. rewrite orb_comm, Z.max_comm.
    destruct ((MAX_SIZE <? width) || (MAX_SIZE <? height)).
    - destruct (PyFloat.true_div MAX_SIZE (Z.max width height)) as [s|e|];
        simpl in *; try discriminate.
      apply scale_sides_swap. exact Hfit.
    - inversion Hfit; subst. reflexivity. }
  rewrite Hfit'. simpl.
  destruct (fit_short_side w1 h1) as [[sw sh]|e|] eqn:Hshort; simpl;
    try discriminate.
  assert (Hshort' : fit_short_side h1 w1 = Return (sh, sw)).
  { unfold fit_short_side in *. rewrite Z.min_comm.
    destruct (PyFloat.true_div HIGH_DETAIL_TARGET_SHORT_SIDE (Z.min w1 h1))
      as [s|e|]; simpl in *; try discriminate.
    apply scale_sides_swap. exact Hshort. }
  rewrite Hshort'. simpl.
  destruct (tiles sw) as [tx|e|]; simpl; try discriminate.
  destruct (tiles sh) as [ty|e|]; simpl; try discriminate.
  intros [= <-]. f_equal. lia.
Qed.

Lemma image_tokens_ignore_orientation_witness :
  _calculate_high_detail_tokens 1000 3333 = Return 2125.
Proof.
  apply (image_tokens_ignore_orientation 3333 1000 2125).
  vm_compute. reflexivity.
Defined.

Lemma squares_checked : squares_take_765 2048 = true.
Proof. vm_compute. reflexivity. Qed.

Lemma squares_take_765_spec (n side : Z) :
  squares_take_765 n = true -> 1 <= side <= n ->
  _calculate_high_detail_tokens side side = Return 765.
Proof.
  unfold squares_take_765. rewrite forallb_forall. intros Hall Hside.
  assert (Hin : In side (seqZ 1 n)).
  { apply list_elem_of_In, elem_of_seqZ. lia. }
  specialize (Hall side Hin).
  destruct (_calculate_high_detail_tokens side side) as [k|e|];
    try discriminate.
  apply Z.eqb_eq in Hall. subst k. reflexivity.
Qed.

(** X8: every square image of a side from 1 to 2048, of high or
    medium detail or without a detail key, takes 765 tokens: the floats
    of the two scalings never bring a side to more than two tiles. *)
Theorem square_images_take_765_tokens :
  forall (item : DictItem) (side : Z),
    item_detail item = Some "high" \/ item_detail item = Some "medium"
    \/ item_detail item = None ->
    item_dimensions item = Some (side, side) ->
    1 <= side <= 2048 ->
    count_image item = Return 765.
Proof.
  intros item side Hdetail Hdim Hside.
  assert (Hcount : count_image item
                   = _calculate_high_detail_tokens side side).
  { destruct Hdetail as [Hd|[Hd|Hd]]; unfold count_image;
      rewrite Hd, Hdim; reflexivity. }
  rewrite Hcount.
  exact (squares_take_765_spec 2048 side squares_checked Hside).
Qed.

Lemma square_images_take_765_tokens_witness :
  count_image (image None (Some (47, 47))) = Return 765.
Proof.
  apply (square_images_take_765_tokens (image None (Some (47, 47))) 47).
  - right. right. reflexivity.
  - reflexivity.
  - lia.
Defined.

End TokenEdgeProperties.

(** ** Further properties of the gateway *)

Section GatewayEdgeProperties.
Import Py TokenCounter LLM LLMImages Samples GatewayScenarios.

Lemma update_all_fields (updates : list (Z * Z)) :
  forall l,
    max_input_tokens (update_all updates l) = max_input_tokens l
    /\ (Forall (fun u => 0 <= fst u) updates ->
        total_input_tokens l <= total_input_tokens (update_all updates l)).
Proof.
  induction updates as [|u rest IH]; intros l; simpl.
  - split; [reflexivity|]. intros _. lia.
  - destruct (IH (update_token_count (fst u) (snd u) l)) as [Hmax Htotal].
    split; [exact Hmax|].
    intros Hall. inversion Hall; subst.
    specialize (Htotal ltac:(assumption)). simpl in Htotal.
    unfold update_all in *. simpl. lia.
Qed.

(** X9: a request that [check_token_limit] refuses is refused after
    any sequence of [update_token_count] with input counts that are not
    negative: nothing gives budget back. *)
Theorem exhausted_budget_stays_exhausted :
  forall (l : LLM) (updates : list (Z * Z)) (input_tokens : Z),
    Forall (fun u => 0 <= fst u) updates ->
    check_token_limit l input_tokens = false ->
    check_token_limit (update_all updates l) input_tokens = false.
Proof.
  intros l updates input_tokens Hall. unfold check_token_limit.
  destruct (update_all_fields updates l) as [Hmax Htotal].
  rewrite Hmax. destruct (max_input_tokens l) as [limit|]; [|discriminate].
  specialize (Htotal Hall). intros Hcheck. apply Z.leb_gt in Hcheck.
  apply Z.leb_gt. lia.
Qed.

Lemma exhausted_budget_stays_exhausted_witness :
  check_token_limit (update_all [(5, 7); (0, 3)] llm_near_limit) 20 = false.
Proof.
  apply (exhausted_budget_stays_exhausted llm_near_limit [(5, 7); (0, 3)] 20).
  - repeat constructor; simpl; lia.
  - reflexivity.
Defined.

Lemma format_dict_returns (supports_images : bool) (m m' : MessageDict) :
  format_dict supports_images m = Return m' ->
  msg_role m' = msg_role m
  /\ (exists r, msg_role m = Some r)
  /\ truthy_opt (msg_base64_image m') = false.
Proof.
  unfold format_dict. destruct (msg_role m) as [r|] eqn:Hrole;
    [|discriminate].
  destruct (truthy_opt (msg_base64_image m)) eqn:Himage.
  - destruct supports_images; intros [= <-]; simpl;
      (split; [exact Hrole|split; [eauto|reflexivity]]).
  - intros [= <-]. split; [exact Hrole|]. split; [eauto|exact Himage].
Qed.

Lemma format_each_returns (supports_images : bool)
    (messages : list MessageInput) :
  forall out,
    format_each supports_images messages = Return out ->
    Forall (fun m => (exists r, msg_role m = Some r)
                     /\ is_kept m = true
                     /\ truthy_opt (msg_base64_image m) = false) out
    /\ (length out <= length messages)%nat.
Proof.
  induction messages as [|message rest IH]; intros out; simpl.
  - intros [= <-]. split; [constructor|simpl; lia].
  - assert (Hdict : forall d,
              and_then (format_dict supports_images d) (fun d' =>
              and_then (format_each supports_images rest) (fun rest' =>
              Return (if is_kept d' then d' :: rest' else rest')))
              = Return out ->
              Forall (fun m => (exists r, msg_role m = Some r)
                               /\ is_kept m = true
                               /\ truthy_opt (msg_base64_image m) = false) out
              /\ (length out <= S (length rest))%nat).
    { intros d.
      destruct (format_dict supports_images d) as [d'|e|] eqn:Hd; simpl;
        try discriminate.
      destruct (format_each supports_images rest) as [rest'|e|]; simpl;
        try discriminate.
      destruct (IH rest' eq_refl) as [Hall Hlen].
      destruct (format_dict_returns _ _ _ Hd) as (Hrole & Hsome & Himage).
      destruct (is_kept d') eqn:Hkept; intros [= <-].
      - split; [|simpl; lia]. constructor; [|exact Hall].
        rewrite Hrole. repeat split; assumption.
      - split; [exact Hall|lia]. }
    destruct message as [d|d|type_name]; [apply Hdict|apply Hdict|discriminate].
Qed.

Lemma check_roles_returns (formatted : list MessageDict) :
  check_roles formatted = Return tt <->
  Forall (fun m => mem (default "" (msg_role m)) ROLE_VALUES = true) formatted.
Proof.
  induction formatted as [|m rest IH]; cbn [check_roles].
  - split; [constructor|reflexivity].
  - destruct (mem (default "" (msg_role m)) ROLE_VALUES) eqn:Hrole.
    + split.
      * intros H. constructor; [exact Hrole|]. apply IH. exact H.
      * intros H. inversion H; subst. apply IH. assumption.
    + split; [discriminate|]. intros H. inversion H; congruence.
Qed.

Lemma format_messages_formatted (messages : list MessageInput)
    (supports_images : bool) (out : list MessageDict) :
  format_messages messages supports_images = Return out ->
  Forall is_formatted out.
Proof.
  unfold format_messages.
  destruct (format_each supports_images messages) as [formatted|e|] eqn:Heach;
    simpl; try discriminate.
  destruct (check_roles formatted) as [[]|e|] eqn:Hroles; simpl;
    try discriminate.
  intros [= <-].
  destruct (format_each_returns _ _ _ Heach) as [Hall _].
  apply check_roles_returns in Hroles.
  rewrite Forall_forall in *. intros m Hm.
  destruct (Hall m Hm) as ([r Hr] & Hkept & Himage).
  specialize (Hroles m Hm). rewrite Hr in Hroles. simpl in Hroles.
  repeat split; eauto.
Qed.

Lemma format_formatted (out : list MessageDict) (supports_images : bool) :
  Forall is_formatted out ->
  format_messages (map InDict out) supports_images = Return out.
Proof.
  intros Hall. unfold format_messages.
  assert (Heach : format_each supports_images (map InDict out) = Return out).
  { induction Hall as [|m rest Hm Hrest IH]; simpl; [reflexivity|].
    destruct Hm as ([r [Hr Hvalid]] & Hkept & Himage).
    unfold format_dict. rewrite Hr, Himage. simpl. rewrite IH. simpl.
    rewrite Hkept. reflexivity. }
  rewrite Heach. simpl.
  assert (Hroles : check_roles out = Return tt).
  { apply check_roles_returns. rewrite Forall_forall in *. intros m Hm.
    destruct (Hall m Hm) as ([r [Hr Hvalid]] & _). rewrite Hr. exact Hvalid. }
  rewrite Hroles. reflexivity.
Qed.

(** X10: every message that [format_messages] returns has a
    recognised role, has a content or tool calls, and carries no image
    payload; and no more messages are returned than were given. *)
Theorem format_messages_output_is_well_formed :
  forall (messages : list MessageInput) (supports_images : bool)
         (out : list MessageDict),
    format_messages messages supports_images = Return out ->
    Forall is_formatted out /\ (length out <= length messages)%nat.
Proof.
  intros messages supports_images out Hformat. split.
  - exact (format_messages_formatted messages supports_images out Hformat).
  - unfold format_messages in Hformat.
    destruct (format_each supports_images messages) as [formatted|e|]
      eqn:Heach; simpl in Hformat; try discriminate.
    destruct (check_roles formatted) as [[]|e|]; simpl in Hformat;
      try discriminate.
    inversion Hformat; subst out.
    apply (format_each_returns _ _ _ Heach).
Qed.

Lemma format_messages_output_is_well_formed_witness :
  Forall is_formatted
    [with_content
       (Some (ContentList
                [text_item "look";
                 image_url_item "data:image/jpeg;base64,AAAA"]))
       None pictured]
  /\ (1 <= 2)%nat.
Proof.
  apply (format_messages_output_is_well_formed
           [InDict pictured; InDict narrator] true).
  reflexivity.
Defined.

(** X11: formatting is idempotent: the messages that
    [format_messages] returned are returned unchanged when they are
    formatted again, with or without image support. A retried attempt
    so finds the message dicts of the caller as the first one left
    them. *)
Theorem format_messages_is_idempotent :
  forall (messages : list MessageInput) (first again : bool)
         (out : list MessageDict),
    format_messages messages first = Return out ->
    format_messages (map InDict out) again = Return out.
Proof.
  intros messages first again out Hformat.
  apply format_formatted.
  apply (format_messages_formatted messages first out Hformat).
Qed.

Lemma format_messages_is_idempotent_witness :
  format_messages
    (map InDict [with_content (Some (ContentStr "look")) None pictured])
    true
  = Return [with_content (Some (ContentStr "look")) None pictured].
Proof.
  apply (format_messages_is_idempotent [InDict pictured] false true).
  reflexivity.
Defined.

Lemma format_each_skips_hollow (supports_images : bool) (m : MessageDict)
    (rest : list MessageInput) :
  is_hollow m ->
  format_each supports_images (InDict m :: rest)
  = format_each supports_images rest
  /\ format_each supports_images (InMessage m :: rest)
     = format_each supports_images rest.
Proof.
  intros ([r Hr] & Hcontent & Hcalls & Himage).
  assert (Hdict : format_dict supports_images m = Return m).
  { unfold format_dict. rewrite Hr, Himage. reflexivity. }
  assert (Hkept : is_kept m = false).
  { unfold is_kept. rewrite Hcontent, Hcalls. reflexivity. }
  simpl. rewrite Hdict. simpl. rewrite Hkept.
  destruct (format_each supports_images rest); split; reflexivity.
Qed.

Lemma format_each_app_skips (supports_images : bool)
    (before : list MessageInput) :
  forall middle after,
    format_each supports_images (middle ++ after)
    = format_each supports_images after ->
    format_each supports_images (before ++ middle ++ after)
    = format_each supports_images (before ++ after).
Proof.
  induction before as [|x before IH]; intros middle after Hskip; simpl;
    [exact Hskip|].
  rewrite (IH middle after Hskip). reflexivity.
Qed.

(** X12: a message that has a role but no content, no tool calls and
    no image payload has no effect on the result of [format_messages],
    wherever it stands and whatever its role: it is dropped before the
    roles are validated. *)
Theorem hollow_message_leaves_no_trace :
  forall (before after : list MessageInput) (m : MessageDict)
         (supports_images : bool),
    is_hollow m ->
    format_messages (before ++ [InDict m] ++ after) supports_images
    = format_messages (before ++ after) supports_images
    /\ format_messages (before ++ [InMessage m] ++ after) supports_images
       = format_messages (before ++ after) supports_images.
Proof.
  intros before after m supports_images Hhollow.
  destruct (format_each_skips_hollow supports_images m after Hhollow)
    as [Hdict Hmessage].
  unfold format_messages.
  rewrite (format_each_app_skips supports_images before [InDict m] after Hdict).
  rewrite (format_each_app_skips supports_images before [InMessage m] after
             Hmessage).
  split; reflexivity.
Qed.

Lemma hollow_message_leaves_no_trace_witness :
  format_messages ([user_says "hi"] ++ [InDict narrator] ++ []) false
  = format_messages ([user_says "hi"] ++ []) false
  /\ format_messages ([user_says "hi"] ++ [InMessage narrator] ++ []) false
     = format_messages ([user_says "hi"] ++ []) false.
Proof.
  apply (hollow_message_leaves_no_trace [user_says "hi"] [] narrator false).
  unfold is_hollow. simpl. eauto.
Defined.

Section Plain.

Variable create : nat -> Request -> outcome Completion.
Variable create_stream : nat -> Request -> outcome (list (option string)).
Variable strip : string -> string.
Variable tle : bool.

Variable messages : list MessageInput.
Variable system_msgs : option (list MessageInput).
Variable temperature : option spec_float.

Lemma after_requests_zero (r : Request) (w : World) :
  after_requests 0 r w = w.
Proof.
  destruct w as [l rs n]. unfold after_requests. simpl.
  rewrite app_nil_r. f_equal. lia.
Qed.

Lemma after_requests_succ (k : nat) (r : Request) (w : World) :
  after_requests k r
    {| llm := llm w; requests := (requests w ++ [r])%list;
       attempts := S (attempts w) |}
  = after_requests (S k) r w.
Proof.
  unfold after_requests. simpl. rewrite <- app_assoc. simpl.
  f_equal. lia.
Qed.

(** One attempt in plain mode, by what the provider does. *)
Lemma ask_once_plain (w : World) (formatted : list MessageDict)
    (input_tokens : Z) :
  format_all (llm w) messages system_msgs = Return formatted ->
  count_message_tokens (llm w) formatted = Return input_tokens ->
  check_token_limit (llm w) input_tokens = true ->
  let params :=
    base_params (llm w) formatted temperature false None None None in
  ask_once create create_stream strip messages system_msgs false temperature w
  = match create (length (requests w)) params with
    | Return response =>
        if truthy_opt (first_content response) then
          (Return (default "" (first_content response)),
           {| llm := update_token_count (usage_prompt_tokens response)
                       (usage_completion_tokens response) (llm w);
              requests := (requests w ++ [params])%list;
              attempts := attempts w |})
        else
          (Raise (Exn ValueError "Empty or invalid response from LLM"),
           {| llm := llm w; requests := (requests w ++ [params])%list;
              attempts := attempts w |})
    | Raise e =>
        (Raise e,
         {| llm := llm w; requests := (requests w ++ [params])%list;
            attempts := attempts w |})
    | OutOfFuel =>
        (OutOfFuel,
         {| llm := llm w; requests := (requests w ++ [params])%list;
            attempts := attempts w |})
    end.
Proof.
  intros Hformat Hcount Hcheck params.
  unfold ask_once, bind, self, lift. simpl.
  rewrite Hformat, Hcount, Hcheck. simpl. fold params.
  unfold call_create. simpl.
  destruct (create (length (requests w)) params) as [response|e|];
    try reflexivity.
  destruct (first_content response) as [text|]; simpl; [|reflexivity].
  destruct (truthy text); reflexivity.
Qed.

Lemma retrying_until_answer (formatted : list MessageDict)
    (input_tokens : Z) (e : exn) (response : Completion) (text : string)
    (l : LLM) (r : Request) :
  format_all l messages system_msgs = Return formatted ->
  count_message_tokens l formatted = Return input_tokens ->
  check_token_limit l input_tokens = true ->
  r = base_params l formatted temperature false None None None ->
  retry_predicate tle e = true ->
  first_content response = Some text -> truthy text = true ->
  forall (k remaining : nat) (w : World),
    llm w = l -> (k <= remaining)%nat ->
    (forall i, (i < k)%nat -> create (length (requests w) + i) r = Raise e) ->
    create (length (requests w) + k) r = Return response ->
    retrying tle remaining
      (ask_once create create_stream strip messages system_msgs false
         temperature) w
    = (Return text,
       {| llm := update_token_count (usage_prompt_tokens response)
                   (usage_completion_tokens response) l;
          requests := (requests w ++ replicate (S k) r)%list;
          attempts := (attempts w + S k)%nat |}).
Proof.
  intros Hformat Hcount Hcheck Hr Hretry Hcontent Htext.
  induction k as [|k IH]; intros remaining w Hl Hle Hfail Hanswer.
  - destruct remaining; cbn [retrying]; unfold bind at 1, start_attempt;
      cbn [fst snd]; unfold try_except;
      rewrite ask_once_plain with (formatted := formatted)
                                  (input_tokens := input_tokens);
      cbn [llm requests attempts]; rewrite ?Hl; try assumption;
      rewrite <- Hr; rewrite Nat.add_0_r in Hanswer; rewrite Hanswer;
      rewrite Hcontent; simpl; rewrite Htext;
      (f_equal; f_equal; lia).
  - destruct remaining as [|remaining]; [lia|].
    cbn [retrying]. unfold bind at 1, start_attempt. cbn [fst snd].
    unfold try_except.
    rewrite ask_once_plain with (formatted := formatted)
                                (input_tokens := input_tokens);
      cbn [llm requests attempts]; rewrite ?Hl; try assumption.
    rewrite <- Hr.
    pose proof (Hfail 0%nat ltac:(lia)) as Hfirst.
    rewrite Nat.add_0_r in Hfirst. rewrite Hfirst, Hretry.
    rewrite IH; cbn [llm requests attempts].
    + rewrite <- app_assoc. simpl. f_equal. f_equal. lia.
    + first [exact Hl|reflexivity].
    + lia.
    + intros i Hi. rewrite length_app. simpl.
      replace (length (requests w) + 1 + i)%nat
        with (length (requests w) + S i)%nat by lia.
      apply Hfail. lia.
    + rewrite length_app. simpl.
      replace (length (requests w) + 1 + k)%nat
        with (length (requests w) + S k)%nat by lia.
      exact Hanswer.
Qed.

End Plain.

(** X13: in plain mode, when the provider raises an exception that
    derives from [Exception] on the first [k] requests, [k < 6], and
    answers the next one with a text, [ask] returns that text after
    [k + 1] attempts and as many requests, and adds to the totals the
    usage that the provider reported, once. *)
Theorem ask_retries_until_the_provider_answers :
  forall (create : nat -> Request -> outcome Completion)
         (create_stream : nat -> Request -> outcome (list (option string)))
         (strip : string -> string) (tle : bool)
         (messages : list MessageInput)
         (system_msgs : option (list MessageInput))
         (temperature : option spec_float) (w : World)
         (formatted : list MessageDict) (input_tokens : Z) (k : nat)
         (e : exn) (response : Completion) (text : string),
    format_all (llm w) messages system_msgs = Return formatted ->
    count_message_tokens (llm w) formatted = Return input_tokens ->
    check_token_limit (llm w) input_tokens = true ->
    let r := base_params (llm w) formatted temperature false None None None in
    (k < 6)%nat ->
    isinstance_Exception tle e = true ->
    (forall i, (i < k)%nat -> create (length (requests w) + i)%nat r = Raise e) ->
    create (length (requests w) + k)%nat r = Return response ->
    first_content response = Some text -> truthy text = true ->
    ask create create_stream strip tle messages system_msgs false temperature w
    = (Return text,
       {| llm := update_token_count (usage_prompt_tokens response)
                   (usage_completion_tokens response) (llm w);
          requests := (requests w ++ replicate (S k) r)%list;
          attempts := (attempts w + S k)%nat |}).
Proof.
  intros create create_stream strip tle messages system_msgs temperature w
    formatted input_tokens k e response text Hformat Hcount Hcheck r Hk
    Hexception Hfail Hanswer Hcontent Htext.
  unfold ask.
  apply (retrying_until_answer create create_stream strip tle messages
           system_msgs temperature formatted input_tokens e response text
           (llm w) r); try assumption; try reflexivity.
  - unfold retry_predicate. rewrite Hexception, orb_true_r. reflexivity.
  - unfold max_attempts. lia.
Qed.

Lemma ask_retries_until_the_provider_answers_witness :
  ask (rate_limited 2 "pong") broken_stream id true [user_says "hi"] None
    false None (init_world llm_unused)
  = (Return "pong",
     {| llm := update_token_count 12 3 llm_unused;
        requests :=
          ([] ++ replicate 3
                   (base_params llm_unused
                      [text_message_of "hi"] None false None None None))%list;
        attempts := (0 + 3)%nat |}).
Proof.
  apply (ask_retries_until_the_provider_answers (rate_limited 2 "pong")
           broken_stream id true [user_says "hi"] None None
           (init_world llm_unused) [text_message_of "hi"] 12 2
           (Exn RateLimitError "rate limit") (reply "pong") "pong").
  - reflexivity.
  - reflexivity.
  - reflexivity.
  - lia.
  - reflexivity.
  - intros i Hi. destruct i as [|[|i]]; [reflexivity|reflexivity|lia].
  - reflexivity.
  - reflexivity.
  - reflexivity.
Defined.

Section Frame.

Variable create : nat -> Request -> outcome Completion.
Variable create_stream : nat -> Request -> outcome (list (option string)).
Variable strip : string -> string.
Variable tle : bool.

Lemma ask_once_sends_at_most_one messages system_msgs stream temperature :
  sends_at_most_one
    (ask_once create create_stream strip messages system_msgs stream
       temperature).
Proof.
  intros w. unfold ask_once, bind, self, lift. simpl.
  destruct (format_all (llm w) messages system_msgs) as [formatted|e|];
    simpl; try (split; [reflexivity|lia]).
  destruct (count_message_tokens (llm w) formatted) as [n|e|];
    simpl; try (split; [reflexivity|lia]).
  destruct (check_token_limit (llm w) n); simpl;
    [|split; [reflexivity|lia]].
  destruct stream; simpl.
  - unfold call_create_stream. simpl.
    destruct (create_stream _ _) as [chunks|e|]; simpl;
      try (rewrite length_app; simpl; split; [reflexivity|lia]).
    destruct (truthy _); simpl;
      rewrite length_app; simpl; (split; [reflexivity|lia]).
  - unfold call_create. simpl.
    destruct (create _ _) as [response|e|]; simpl;
      try (rewrite length_app; simpl; split; [reflexivity|lia]).
    destruct (first_content response) as [text|]; simpl;
      [destruct (truthy text); simpl|];
      rewrite length_app; simpl; (split; [reflexivity|lia]).
Qed.

Lemma ask_tool_once_sends_at_most_one messages system_msgs timeout tools
    tool_choice temperature :
  sends_at_most_one
    (ask_tool_once create messages system_msgs timeout tools tool_choice
       temperature).
Proof.
  intros w. unfold ask_tool_once.
  destruct (mem tool_choice TOOL_CHOICE_VALUES); simpl;
    [|split; [reflexivity|lia]].
  unfold bind, self, lift. simpl.
  destruct (format_all (llm w) messages system_msgs) as [formatted|e|];
    simpl; try (split; [reflexivity|lia]).
  destruct (count_message_tokens (llm w) formatted) as [n|e|];
    simpl; try (split; [reflexivity|lia]).
  destruct (check_token_limit (llm w) _); simpl;
    [|split; [reflexivity|lia]].
  destruct (forallb tool_has_type (default [] tools)); simpl;
    [|split; [reflexivity|lia]].
  unfold call_create. simpl.
  destruct (create _ _) as [response|e|]; simpl;
    try (rewrite length_app; simpl; split; [reflexivity|lia]).
  destruct (choices response) as [|[message|] rest]; simpl;
    rewrite length_app; simpl; (split; [reflexivity|lia]).
Qed.

Lemma retrying_bounds {A} (attempt : M World A) :
  sends_at_most_one attempt ->
  forall remaining w out w',
    retrying tle remaining attempt w = (out, w') ->
    (attempts w < attempts w' <= attempts w + S remaining)%nat
    /\ (length (requests w) <= length (requests w')
        <= length (requests w) + (attempts w' - attempts w))%nat.
Proof.
  intros Hone. induction remaining as [|remaining IH]; intros w out w';
    cbn [retrying]; unfold bind, start_attempt; cbn [fst snd];
    unfold try_except;
    match goal with
    | |- context [attempt ?w0] =>
        pose proof (Hone w0) as [Hattempts Hrequests];
        destruct (attempt w0) as [[a|e|] w1]
    end; cbn [fst snd llm requests attempts] in *;
    try (intros [= <- <-]; split; lia).
  - destruct (retry_predicate tle e); unfold raise;
      intros [= <- <-]; split; lia.
  - destruct (retry_predicate tle e); [|intros [= <- <-]; split; lia].
    intros Hrest. destruct (IH _ _ _ Hrest) as [Ha Hr]. split; lia.
Qed.

End Frame.

(** X14: whatever the provider does, [ask] and [ask_tool] make at
    least one and at most six attempts, and send at most one request
    for each attempt. *)
Theorem gateway_stops_after_six_attempts :
  forall (create : nat -> Request -> outcome Completion)
         (create_stream : nat -> Request -> outcome (list (option string)))
         (strip : string -> string) (tle : bool)
         (messages : list MessageInput)
         (system_msgs : option (list MessageInput)) (stream : bool)
         (temperature : option spec_float) (timeout : Z)
         (tools : option (list Tool)) (tool_choice : string) (w : World),
    let after_ask :=
      snd (ask create create_stream strip tle messages system_msgs stream
             temperature w) in
    let after_ask_tool :=
      snd (ask_tool create tle messages system_msgs timeout tools tool_choice
             temperature w) in
    (attempts w < attempts after_ask <= attempts w + 6)%nat
    /\ (length (requests w) <= length (requests after_ask)
        <= length (requests w) + (attempts after_ask - attempts w))%nat
    /\ (attempts w < attempts after_ask_tool <= attempts w + 6)%nat
    /\ (length (requests w) <= length (requests after_ask_tool)
        <= length (requests w) + (attempts after_ask_tool - attempts w))%nat.
Proof.
  intros create create_stream strip tle messages system_msgs stream
    temperature timeout tools tool_choice w.
  cbv zeta. unfold ask, ask_tool.
  destruct (retrying_bounds tle _
              (ask_once_sends_at_most_one create create_stream strip messages
                 system_msgs stream temperature) (max_attempts - 1) w _ _
              (surjective_pairing _))
    as [Ha Hr].
  destruct (retrying_bounds tle _
              (ask_tool_once_sends_at_most_one create messages system_msgs
                 timeout tools tool_choice temperature) (max_attempts - 1) w
              _ _ (surjective_pairing _))
    as [Ha' Hr'].
  change (S (max_attempts - 1)) with 6%nat in *.
  repeat split; lia.
Qed.

Lemma same_settings_update (l l' : LLM) (input_tokens completion_tokens : Z) :
  same_settings l l' ->
  same_settings l (update_token_count input_tokens completion_tokens l').
Proof. intros H. exact H. Qed.

Lemma same_settings_format (l l' : LLM) messages system_msgs :
  same_settings l l' ->
  format_all l' messages system_msgs = format_all l messages system_msgs.
Proof. intros (Hmodel & _). unfold format_all. rewrite Hmodel. reflexivity. Qed.

Lemma same_settings_count (l l' : LLM) formatted :
  same_settings l l' ->
  count_message_tokens l' formatted = count_message_tokens l formatted.
Proof.
  intros (_ & _ & _ & Htokenizer & _). unfold count_message_tokens.
  rewrite Htokenizer. reflexivity.
Qed.

Lemma same_settings_params (l l' : LLM) formatted temperature stream tools
    tool_choice timeout :
  same_settings l l' ->
  base_params l' formatted temperature stream tools tool_choice timeout
  = base_params l formatted temperature stream tools tool_choice timeout.
Proof.
  intros (Hmodel & Hmax & Htemp & _). unfold base_params.
  rewrite Hmodel, Hmax, Htemp. reflexivity.
Qed.

Lemma has_room_check (k : nat) (n : Z) (l : LLM) :
  0 <= n -> has_room_for (S k) n l -> check_token_limit l n = true.
Proof.
  unfold has_room_for, check_token_limit. intros Hn.
  destruct (max_input_tokens l) as [limit|]; [|reflexivity].
  intros Hroom. apply Z.leb_le. nia.
Qed.

Lemma has_room_update (k : nat) (n : Z) (l : LLM) :
  has_room_for (S k) n l -> has_room_for k n (update_token_count n 0 l).
Proof.
  unfold has_room_for. simpl.
  destruct (max_input_tokens l) as [limit|]; [|exact id]. lia.
Qed.

Lemma update_all_input_total (k : nat) (n : Z) :
  forall l,
    total_input_tokens (update_all (replicate k (n, 0)) l)
    = total_input_tokens l + Z.of_nat k * n
    /\ total_completion_tokens (update_all (replicate k (n, 0)) l)
       = total_completion_tokens l.
Proof.
  induction k as [|k IH]; intros l.
  - simpl. split; lia.
  - change (update_all (replicate (S k) (n, 0)) l)
      with (update_all (replicate k (n, 0)) (update_token_count n 0 l)).
    destruct (IH (update_token_count n 0 l)) as [-> ->]. simpl. split; lia.
Qed.

Section Stream.

Variable create : nat -> Request -> outcome Completion.
Variable create_stream : nat -> Request -> outcome (list (option string)).
Variable strip : string -> string.
Variable tle : bool.

Variable messages : list MessageInput.
Variable system_msgs : option (list MessageInput).
Variable temperature : option spec_float.

Lemma ask_once_stream_broken (w : World) (formatted : list MessageDict)
    (input_tokens : Z) (e : exn) :
  format_all (llm w) messages system_msgs = Return formatted ->
  count_message_tokens (llm w) formatted = Return input_tokens ->
  check_token_limit (llm w) input_tokens = true ->
  create_stream (length (requests w))
    (base_params (llm w) formatted temperature true None None None)
  = Raise e ->
  ask_once create create_stream strip messages system_msgs true temperature w
  = (Raise e,
     {| llm := update_token_count input_tokens 0 (llm w);
        requests :=
          (requests w
           ++ [base_params (llm w) formatted temperature true None None None])%list;
        attempts := attempts w |}).
Proof.
  intros Hformat Hcount Hcheck Hbroken.
  unfold ask_once, bind, self, lift. simpl.
  rewrite Hformat, Hcount, Hcheck. simpl.
  unfold call_create_stream. simpl.
  change (base_params (update_token_count input_tokens 0 (llm w)) formatted
            temperature true None None None)
    with (base_params (llm w) formatted temperature true None None None).
  rewrite Hbroken. reflexivity.
Qed.

Lemma retrying_broken_stream (l : LLM) (formatted : list MessageDict)
    (input_tokens : Z) (e : exn) (r : Request) :
  format_all l messages system_msgs = Return formatted ->
  count_message_tokens l formatted = Return input_tokens ->
  0 <= input_tokens ->
  r = base_params l formatted temperature true None None None ->
  retry_predicate tle e = true ->
  forall (remaining : nat) (w : World),
    same_settings l (llm w) ->
    has_room_for (S remaining) input_tokens (llm w) ->
    (forall i, (i <= remaining)%nat ->
               create_stream (length (requests w) + i) r = Raise e) ->
    retrying tle remaining
      (ask_once create create_stream strip messages system_msgs true
         temperature) w
    = (Raise (RetryError e),
       {| llm := update_all (replicate (S remaining) (input_tokens, 0)) (llm w);
          requests := (requests w ++ replicate (S remaining) r)%list;
          attempts := (attempts w + S remaining)%nat |}).
Proof.
  intros Hformat Hcount Hn Hr Hretry.
  induction remaining as [|remaining IH]; intros w Hsame Hroom Hbroken;
    cbn [retrying]; unfold bind at 1, start_attempt; cbn [fst snd];
    unfold try_except;
    (rewrite ask_once_stream_broken
       with (formatted := formatted) (input_tokens := input_tokens) (e := e);
     cbn [llm requests attempts];
     [| rewrite (same_settings_format l _ _ _ Hsame); exact Hformat
      | rewrite (same_settings_count l _ _ Hsame); exact Hcount
      | apply (has_room_check _ _ _ Hn Hroom)
      | rewrite (same_settings_params l _ _ _ _ _ _ _ Hsame), <- Hr;
        rewrite <- (Hbroken 0%nat ltac:(lia)); f_equal; lia]);
    rewrite Hretry, (same_settings_params l _ _ _ _ _ _ _ Hsame), <- Hr.
  - unfold raise. f_equal. f_equal. lia.
  - rewrite IH; cbn [llm requests attempts].
    + rewrite <- app_assoc. simpl. f_equal. f_equal. lia.
    + exact Hsame.
    + apply has_room_update. exact Hroom.
    + intros i Hi. rewrite length_app. simpl.
      replace (length (requests w) + 1 + i)%nat
        with (length (requests w) + S i)%nat by lia.
      apply Hbroken. lia.
Qed.

End Stream.

(** X15: in streaming mode the estimate is added to the input total
    before each request: when the provider fails on all six requests
    (and the ceiling has room for them), [ask] ends in [RetryError] with
    the input total raised by six times the estimate. *)
Theorem failed_streams_use_up_the_budget :
  forall (create : nat -> Request -> outcome Completion)
         (create_stream : nat -> Request -> outcome (list (option string)))
         (strip : string -> string) (tle : bool)
         (messages : list MessageInput)
         (system_msgs : option (list MessageInput))
         (temperature : option spec_float) (w : World)
         (formatted : list MessageDict) (input_tokens : Z) (e : exn),
    format_all (llm w) messages system_msgs = Return formatted ->
    count_message_tokens (llm w) formatted = Return input_tokens ->
    0 <= input_tokens ->
    has_room_for 6 input_tokens (llm w) ->
    isinstance_Exception tle e = true ->
    let r := base_params (llm w) formatted temperature true None None None in
    (forall i, (i < 6)%nat ->
               create_stream (length (requests w) + i)%nat r = Raise e) ->
    ask create create_stream strip tle messages system_msgs true temperature w
    = (Raise (RetryError e),
       {| llm := update_all (replicate 6 (input_tokens, 0)) (llm w);
          requests := (requests w ++ replicate 6 r)%list;
          attempts := (attempts w + 6)%nat |})
    /\ total_input_tokens
         (update_all (replicate 6 (input_tokens, 0)) (llm w))
       = total_input_tokens (llm w) + 6 * input_tokens.
Proof.
  intros create create_stream strip tle messages system_msgs temperature w
    formatted input_tokens e Hformat Hcount Hn Hroom Hexception r Hbroken.
  split.
  - unfold ask.
    apply (retrying_broken_stream create create_stream strip tle messages
             system_msgs temperature (llm w) formatted input_tokens e r);
      try assumption; try reflexivity.
    + unfold retry_predicate. rewrite Hexception, orb_true_r. reflexivity.
    + repeat split.
    + intros i Hi. apply Hbroken. unfold max_attempts in Hi. lia.
  - apply (update_all_input_total 6 input_tokens (llm w)).
Qed.

Lemma failed_streams_use_up_the_budget_witness :
  ask (rate_limited 0 "pong") broken_stream id true [user_says "hi"] None true
    None (init_world llm_unused)
  = (Raise (RetryError (Exn APIError "connection lost")),
     {| llm := update_all (replicate 6 (12, 0)) llm_unused;
        requests :=
          ([] ++ replicate 6
                   (base_params llm_unused [text_message_of "hi"] None true
                      None None None))%list;
        attempts := (0 + 6)%nat |})
  /\ total_input_tokens (update_all (replicate 6 (12, 0)) llm_unused)
     = 0 + 6 * 12.
Proof.
  apply (failed_streams_use_up_the_budget (rate_limited 0 "pong")
           broken_stream id true [user_says "hi"] None None
           (init_world llm_unused) [text_message_of "hi"] 12
           (Exn APIError "connection lost")).
  - reflexivity.
  - reflexivity.
  - lia.
  - unfold has_room_for. simpl. lia.
  - reflexivity.
  - intros i Hi. reflexivity.
Defined.

(** X16: when the reply of the provider has no choice, or a first
    choice without a message, [ask_tool] returns [None] after one
    attempt and one request, and leaves the token totals alone. *)
Theorem ask_tool_returns_none_for_an_empty_reply :
  forall (create : nat -> Request -> outcome Completion) (tle : bool)
         (messages : list MessageInput)
         (system_msgs : option (list MessageInput)) (timeout : Z)
         (tools : option (list Tool)) (tool_choice : string)
         (temperature : option spec_float) (w : World)
         (formatted : list MessageDict) (message_tokens : Z)
         (response : Completion),
    mem tool_choice TOOL_CHOICE_VALUES = true ->
    format_all (llm w) messages system_msgs = Return formatted ->
    count_message_tokens (llm w) formatted = Return message_tokens ->
    check_token_limit (llm w)
      (message_tokens
       + (if is_truthy_list tools then count_tools (llm w) (default [] tools) 0
          else 0)) = true ->
    forallb tool_has_type (default [] tools) = true ->
    let r :=
      base_params (llm w) formatted temperature false (Some tools)
        (Some tool_choice) (Some timeout) in
    create (length (requests w)) r = Return response ->
    head (choices response) = None \/ head (choices response) = Some None ->
    ask_tool create tle messages system_msgs timeout tools tool_choice
      temperature w
    = (Return None,
       {| llm := llm w; requests := (requests w ++ [r])%list;
          attempts := S (attempts w) |}).
Proof.
  intros create tle messages system_msgs timeout tools tool_choice
    temperature w formatted message_tokens response Hchoice Hformat Hcount
    Hcheck Htools r Hreply Hempty.
  unfold ask_tool. cbn [retrying max_attempts Nat.sub].
  unfold bind at 1, start_attempt. cbn [fst snd]. unfold try_except.
  unfold ask_tool_once. rewrite Hchoice. cbn [negb].
  unfold bind, self, lift. cbn [fst snd llm requests attempts].
  rewrite Hformat, Hcount. cbn [fst snd]. rewrite Hcheck, Htools.
  cbn [negb]. unfold call_create. cbn [fst snd llm requests attempts].
  fold r. rewrite Hreply.
  destruct (choices response) as [|[message|] rest]; try reflexivity.
  destruct Hempty as [H|H]; discriminate.
Qed.

Lemma ask_tool_returns_none_for_an_empty_reply_witness :
  ask_tool no_choice true [user_says "hi"] None 300 (Some [planning_schema])
    "auto" None (init_world llm_unused)
  = (Return None,
     {| llm := llm_unused;
        requests :=
          ([] ++ [base_params llm_unused [text_message_of "hi"] None false
                    (Some (Some [planning_schema])) (Some "auto")
                    (Some 300)])%list;
        attempts := 1 |}).
Proof.
  apply (ask_tool_returns_none_for_an_empty_reply no_choice true
           [user_says "hi"] None 300 (Some [planning_schema]) "auto" None
           (init_world llm_unused) [text_message_of "hi"] 12
           {| choices := []; usage_prompt_tokens := 12;
              usage_completion_tokens := 0 |}).
  - reflexivity.
  - reflexivity.
  - reflexivity.
  - reflexivity.
  - reflexivity.
  - reflexivity.
  - left. reflexivity.
Defined.

Section Attempts.

Variable create : nat -> Request -> outcome Completion.
Variable create_stream : nat -> Request -> outcome (list (option string)).
Variable strip : string -> string.
Variable tle : bool.

Lemma ask_with_images_once_completion messages images system_msgs stream
    temperature (w : World) :
  total_completion_tokens
    (llm (snd (ask_with_images_once create create_stream strip messages images
                 system_msgs stream temperature w)))
  = total_completion_tokens (llm w).
Proof.
  unfold ask_with_images_once, bind, self, lift, call_create,
    call_create_stream.
  repeat
    (cbn [fst snd llm requests attempts negb total_completion_tokens
          update_token_count set_totals raise ret assign];
     match goal with
     | |- context [if negb ?b then _ else _] => destruct b
     | |- context [match ?x with
                   | Return _ => _ | Raise _ => _ | OutOfFuel => _
                   end] => destruct x
     | |- context [match ?x with Some _ => _ | None => _ end] => destruct x
     | |- context [if ?b then _ else _] => destruct b
     end);
    cbn [fst snd llm requests attempts negb total_completion_tokens
         update_token_count set_totals raise ret assign];
    try reflexivity; lia.
Qed.

Lemma retrying_keeps {A B} (attempt : M World A) (f : World -> B) :
  (forall w, f (snd (attempt w)) = f w) ->
  (forall w, f (snd (start_attempt w)) = f w) ->
  forall remaining w out w',
    retrying tle remaining attempt w = (out, w') -> f w' = f w.
Proof.
  intros Hattempt Hstart.
  induction remaining as [|remaining IH]; intros w out w';
    cbn [retrying]; unfold bind; unfold try_except;
    pose proof (Hstart w) as Hcount;
    destruct (start_attempt w) as [[[]|e0|] w0]; cbn [fst snd] in *;
    try (intros [= <- <-]; exact Hcount);
    pose proof (Hattempt w0) as Hkeep;
    destruct (attempt w0) as [[a|e|] w1]; cbn [fst snd] in *;
    try (intros [= <- <-]; congruence).
  - destruct (retry_predicate tle e); unfold raise;
      intros [= <- <-]; congruence.
  - destruct (retry_predicate tle e); [|intros [= <- <-]; congruence].
    intros Hrest. rewrite (IH _ _ _ Hrest). congruence.
Qed.

End Attempts.

(** X17: [ask_with_images] never changes [total_completion_tokens],
    whatever the provider answers, in plain and in streaming mode. *)
Theorem ask_with_images_never_counts_completion_tokens :
  forall (create : nat -> Request -> outcome Completion)
         (create_stream : nat -> Request -> outcome (list (option string)))
         (strip : string -> string) (tle : bool)
         (messages_at : nat -> list MessageInput)
         (images : list ImageInput)
         (system_msgs : option (list MessageInput)) (stream : bool)
         (temperature : option spec_float) (w : World),
    total_completion_tokens
      (llm (snd (ask_with_images create create_stream strip tle messages_at
                   images system_msgs stream temperature w)))
    = total_completion_tokens (llm w).
Proof.
  intros create create_stream strip tle messages_at images system_msgs
    stream temperature w.
  unfold ask_with_images.
  set (attempt := fun w0 : World =>
         ask_with_images_once create create_stream strip
           (messages_at (attempts w0)) images system_msgs stream temperature
           w0).
  apply (retrying_keeps tle attempt
           (fun w => total_completion_tokens (llm w))
           (fun w0 => ask_with_images_once_completion create create_stream
                        strip _ images system_msgs stream temperature w0)
           (fun w0 => eq_refl)
           (max_attempts - 1)%nat w
           (fst (retrying tle (max_attempts - 1) attempt w))).
  apply surjective_pairing.
Qed.

(** X18: on a model outside [MULTIMODAL_MODELS], [ask_with_images]
    sends no request and changes no total; its [ValueError] is retried,
    so it ends after six attempts in [RetryError] around it. *)
Theorem ask_with_images_refuses_a_text_model :
  forall (create : nat -> Request -> outcome Completion)
         (create_stream : nat -> Request -> outcome (list (option string)))
         (strip : string -> string) (tle : bool)
         (messages_at : nat -> list MessageInput)
         (images : list ImageInput)
         (system_msgs : option (list MessageInput)) (stream : bool)
         (temperature : option spec_float) (w : World),
    mem (model (llm w)) MULTIMODAL_MODELS = false ->
    ask_with_images create create_stream strip tle messages_at images
      system_msgs stream temperature w
    = (Raise (RetryError
                (Exn ValueError
                   ("Model " +:+ model (llm w)
                    +:+ " does not support images. Use a model from "
                    +:+ "['gpt-4-vision-preview', 'gpt-4o', 'gpt-4o-mini', 'claude-3-opus-20240229', 'claude-3-sonnet-20240229', 'claude-3-haiku-20240307']"))),
       after_attempts 6 w).
Proof.
  intros create create_stream strip tle messages_at images system_msgs
    stream temperature w Hmodel.
  unfold ask_with_images.
  assert (Hw : w = after_attempts 0 w)
    by (destruct w; unfold after_attempts; simpl; f_equal; lia).
  rewrite Hw at 1.
  rewrite (retrying_same_failure tle _
             (Exn ValueError
                ("Model " +:+ model (llm w)
                 +:+ " does not support images. Use a model from "
                 +:+ str_list MULTIMODAL_MODELS))).
  - destruct tle; reflexivity.
  - intros n. unfold ask_with_images_once, bind, self.
    cbn [fst snd llm after_attempts]. rewrite Hmodel. reflexivity.
Qed.

Lemma ask_with_images_refuses_a_text_model_witness :
  ask_with_images (rate_limited 0 "pong") broken_stream id true
    (fun _ => [user_says "hi"]) [ImageStr "https://example.org/a.png"] None
    false None (init_world (text_only llm_unused))
  = (Raise (RetryError
              (Exn ValueError
                 ("Model " +:+ model (llm (init_world (text_only llm_unused)))
                  +:+ " does not support images. Use a model from "
                  +:+ "['gpt-4-vision-preview', 'gpt-4o', 'gpt-4o-mini', 'claude-3-opus-20240229', 'claude-3-sonnet-20240229', 'claude-3-haiku-20240307']"))),
     after_attempts 6 (init_world (text_only llm_unused))).
Proof.
  apply (ask_with_images_refuses_a_text_model (rate_limited 0 "pong")
           broken_stream id true (fun _ => [user_says "hi"])
           [ImageStr "https://example.org/a.png"] None false None
           (init_world (text_only llm_unused))).
  reflexivity.
Defined.

End GatewayEdgeProperties.

(** ** Further properties of the instances of the gateway *)

Section InstanceEdgeProperties.
Import Py LLM Samples RegistryScenarios.

Section Names.

Variable config_llm : gmap string LLMSettings.
Variable encoding_for_model : string -> option Tokenizer.
Variable cl100k_base : Tokenizer.
Variable client_error : Client -> option exn.

Local Abbreviation init :=
  (__init__ config_llm encoding_for_model cl100k_base client_error).
Local Abbreviation make :=
  (construct config_llm encoding_for_model cl100k_base client_error).

(** What a construction does to the registered names. *)
Lemma construct_names (name : string)
    (cfg : option (gmap string LLMSettings)) (r : Registry) :
  match _instances r !! name with
  | Some loc =>
      _instances (snd (make name cfg r)) = _instances r
      /\ (forall l, fst (make name cfg r) = Return l -> l = loc)
  | None =>
      match fst (make name cfg r) with
      | Return l =>
          l = length (heap r)
          /\ _instances (snd (make name cfg r))
             = <[name := l]> (_instances r)
      | _ => _instances (snd (make name cfg r)) = _instances r
      end
  end.
Proof.
  destruct (_instances r !! name) as [loc|] eqn:Hname.
  - assert (Hrun :
      make name cfg r =
        match init loc name cfg r with
        | (Return _, r1) => (Return loc, r1)
        | (Raise e, r1) => (Raise e, r1)
        | (OutOfFuel, r1) => (OutOfFuel, r1)
        end).
    { unfold construct, __new__, bind at 1, bind at 1, get. simpl.
      rewrite Hname. simpl. unfold bind.
      destruct (init loc name cfg r) as [[[]|e|] r1]; reflexivity. }
    rewrite Hrun.
    destruct (init_frame config_llm encoding_for_model cl100k_base
                client_error loc name cfg r) as (Hinst & _).
    destruct (init loc name cfg r) as [[[]|e|] r1]; simpl in *;
      (split; [exact Hinst|]); intros l H; inversion H; reflexivity.
  - set (r0 := {| _instances := _instances r;
                  heap := (heap r ++ [{| obj_attrs := None;
                                         obj_client := None |}])%list |}).
    set (instance := length (heap r)).
    destruct (init_frame config_llm encoding_for_model cl100k_base
                client_error instance name cfg r0)
      as (Hinst & _ & _ & Hclient).
    assert (Hrun :
      make name cfg r =
        match init instance name cfg r0 with
        | (Return _, r1) =>
            (Return instance,
             {| _instances := <[name := instance]> (_instances r1);
                heap := heap r1 |})
        | (Raise e, r1) => (Raise e, r1)
        | (OutOfFuel, r1) => (OutOfFuel, r1)
        end).
    { unfold construct, __new__, bind at 1, bind at 1, get. simpl.
      rewrite Hname. unfold bind at 1, put. simpl. unfold bind at 1.
      fold r0. fold instance.
      destruct (init instance name cfg r0) as [[[]|e|] r1] eqn:Hinit;
        simpl in *; try reflexivity.
      unfold bind at 1, modify. simpl. unfold bind.
      destruct (Hclient eq_refl) as (o & c & Hobj & Hc).
      rewrite (init_skipped config_llm encoding_for_model cl100k_base
                 client_error instance name cfg _ o c);
        [reflexivity|exact Hobj|exact Hc]. }
    rewrite Hrun.
    destruct (init instance name cfg r0) as [[[]|e|] r1]; simpl in *;
      try exact Hinst.
    split; [reflexivity|]. rewrite Hinst. reflexivity.
Qed.

Lemma construct_names_apart (name : string)
    (cfg : option (gmap string LLMSettings)) (r : Registry) :
  registry_ok r -> names_apart r -> names_apart (snd (make name cfg r)).
Proof.
  intros Hok Hapart. pose proof (construct_names name cfg r) as Hnames.
  unfold names_apart in *.
  destruct (_instances r !! name) as [loc|] eqn:Hname.
  - destruct Hnames as [-> _]. exact Hapart.
  - destruct (fst (make name cfg r)) as [l|e|];
      [|rewrite Hnames; exact Hapart..].
    destruct Hnames as [-> ->]. intros n1 n2 loc H1 H2.
    assert (Hbound : forall n l, _instances r !! n = Some l ->
                       (l < length (heap r))%nat).
    { intros n l Hn. destruct (Hok n l Hn) as (o & c & Hobj & _).
      apply lookup_lt_is_Some. eauto. }
    destruct (decide (name = n1)) as [<-|Hne1];
      destruct (decide (name = n2)) as [<-|Hne2]; try reflexivity.
    + rewrite lookup_insert_eq in H1. inversion H1; subst.
      rewrite lookup_insert_ne in H2 by exact Hne2.
      apply Hbound in H2. lia.
    + rewrite lookup_insert_eq in H2. inversion H2; subst.
      rewrite lookup_insert_ne in H1 by exact Hne1.
      apply Hbound in H1. lia.
    + rewrite lookup_insert_ne in H1 by exact Hne1.
      rewrite lookup_insert_ne in H2 by exact Hne2.
      exact (Hapart n1 n2 loc H1 H2).
Qed.

Lemma apply_ops_names_apart (ops : list registry_op) :
  forall r,
    registry_ok r -> names_apart r ->
    registry_ok
      (apply_ops config_llm encoding_for_model cl100k_base client_error ops r)
    /\ names_apart
         (apply_ops config_llm encoding_for_model cl100k_base client_error
            ops r).
Proof.
  induction ops as [|op ops IH]; intros r Hok Hapart; [split; assumption|].
  unfold apply_ops. simpl. apply IH.
  - destruct op as [l i c|n cfg]; simpl.
    + apply update_effect. exact Hok.
    + apply construct_effect. exact Hok.
  - destruct op as [l i c|n cfg]; simpl.
    + unfold names_apart. rewrite (proj2 (update_effect l i c r Hok)).
      exact Hapart.
    + apply construct_names_apart; assumption.
Qed.

End Names.

(** X19: a construction [LLM(name, cfg)] changes the registered
    names only when it returns, and then only by binding [name] to the
    object returned: a construction that raises registers nothing. *)
Theorem construct_registers_on_success_only :
  forall (config_llm : gmap string LLMSettings)
         (encoding_for_model : string -> option Tokenizer)
         (cl100k_base : Tokenizer) (client_error : Client -> option exn)
         (name : string) (cfg : option (gmap string LLMSettings))
         (r : Registry),
    _instances
      (snd (construct config_llm encoding_for_model cl100k_base client_error
              name cfg r))
    = match fst (construct config_llm encoding_for_model cl100k_base
                   client_error name cfg r) with
      | Return loc => <[name := loc]> (_instances r)
      | _ => _instances r
      end.
Proof.
  intros config_llm encoding_for_model cl100k_base client_error name cfg r.
  pose proof (construct_names config_llm encoding_for_model cl100k_base
                client_error name cfg r) as Hnames.
  destruct (_instances r !! name) as [loc|] eqn:Hname.
  - destruct Hnames as [Hsame Hloc]. rewrite Hsame.
    destruct (fst (construct _ _ _ _ name cfg r)) as [l|e|]; try reflexivity.
    rewrite (Hloc l eq_refl). symmetry. apply insert_id. exact Hname.
  - destruct (fst (construct _ _ _ _ name cfg r)) as [l|e|];
      try exact Hnames.
    destruct Hnames as [_ H]. exact H.
Qed.

(** X20: starting from an empty registry, whatever constructions and
    updates happen before and in between, two successful constructions
    under different names return different objects. *)
Theorem distinct_names_get_distinct_instances :
  forall (config_llm : gmap string LLMSettings)
         (encoding_for_model : string -> option Tokenizer)
         (cl100k_base : Tokenizer) (client_error : Client -> option exn)
         (before between : list registry_op) (name1 name2 : string)
         (cfg1 cfg2 : option (gmap string LLMSettings)) (loc1 loc2 : nat)
         (r1 r2 : Registry),
    name1 <> name2 ->
    construct config_llm encoding_for_model cl100k_base client_error name1
      cfg1
      (apply_ops config_llm encoding_for_model cl100k_base client_error before
         empty_registry)
    = (Return loc1, r1) ->
    construct config_llm encoding_for_model cl100k_base client_error name2
      cfg2
      (apply_ops config_llm encoding_for_model cl100k_base client_error
         between r1)
    = (Return loc2, r2) ->
    loc1 <> loc2.
Proof.
  intros config_llm encoding_for_model cl100k_base client_error before
    between name1 name2 cfg1 cfg2 loc1 loc2 r1 r2 Hne Hfirst Hsecond.
  assert (Hempty : names_apart empty_registry).
  { intros n1 n2 loc H. unfold empty_registry in H. simpl in H.
    rewrite lookup_empty in H. discriminate. }
  destruct (apply_ops_names_apart config_llm encoding_for_model cl100k_base
              client_error before empty_registry empty_registry_ok Hempty)
    as [Hok0 Hapart0].
  pose proof (construct_effect config_llm encoding_for_model cl100k_base
                client_error name1 cfg1 _ Hok0) as (Hok1 & _ & Hreg1).
  pose proof (construct_names_apart config_llm encoding_for_model cl100k_base
                client_error name1 cfg1 _ Hok0 Hapart0) as Hapart1.
  rewrite Hfirst in Hok1, Hreg1, Hapart1. simpl in Hok1, Hreg1, Hapart1.
  specialize (Hreg1 loc1 eq_refl).
  destruct (apply_ops_keeps config_llm encoding_for_model cl100k_base
              client_error name1 loc1 between r1 Hok1 Hreg1) as [Hok2 Hreg2].
  destruct (apply_ops_names_apart config_llm encoding_for_model cl100k_base
              client_error between r1 Hok1 Hapart1) as [_ Hapart2].
  pose proof (construct_effect config_llm encoding_for_model cl100k_base
                client_error name2 cfg2 _ Hok2) as (_ & Hold & Hreg3).
  pose proof (construct_names_apart config_llm encoding_for_model cl100k_base
                client_error name2 cfg2 _ Hok2 Hapart2) as Hapart3.
  rewrite Hsecond in Hold, Hreg3, Hapart3. simpl in Hold, Hreg3, Hapart3.
  specialize (Hreg3 loc2 eq_refl).
  destruct (Hold name1 loc1 Hreg2) as [Hkept _].
  intros ->. apply Hne. exact (Hapart3 name1 name2 loc2 Hkept Hreg3).
Qed.

Lemma distinct_names_get_distinct_instances_witness :
  exists r1 r2,
    construct sample_config no_encoding byte_tokens no_client_error
      "default" None
      (apply_ops sample_config no_encoding byte_tokens no_client_error []
         empty_registry)
    = (Return 0%nat, r1)
    /\ construct sample_config no_encoding byte_tokens no_client_error
         "manus" None
         (apply_ops sample_config no_encoding byte_tokens no_client_error
            [OpUpdate 0 10 5] r1)
       = (Return 1%nat, r2)
    /\ 0%nat <> 1%nat.
Proof.
  destruct (construct sample_config no_encoding byte_tokens no_client_error
              "default" None
              (apply_ops sample_config no_encoding byte_tokens
                 no_client_error [] empty_registry))
    as [out1 r1] eqn:Hfirst.
  assert (Hout1 : out1 = Return 0%nat).
  { vm_compute in Hfirst. inversion Hfirst. reflexivity. }
  subst out1.
  destruct (construct sample_config no_encoding byte_tokens no_client_error
              "manus" None
              (apply_ops sample_config no_encoding byte_tokens
                 no_client_error [OpUpdate 0 10 5] r1))
    as [out2 r2] eqn:Hsecond.
  assert (Hout2 : out2 = Return 1%nat).
  { vm_compute in Hfirst. inversion Hfirst; subst r1.
    vm_compute in Hsecond. inversion Hsecond. reflexivity. }
  subst out2. exists r1, r2. split; [reflexivity|]. split; [exact Hsecond|].
  apply (distinct_names_get_distinct_instances sample_config no_encoding
           byte_tokens no_client_error [] [OpUpdate 0 10 5] "default" "manus"
           None None 0%nat 1%nat r1 r2);
    [discriminate|exact Hfirst|exact Hsecond].
Defined.

End InstanceEdgeProperties.

(** ** Further properties of the planning flow *)

Section PlanningEdgeProperties.
Import Py Planning Samples PlanScenarios.

Lemma take_tag_spec (s : string) :
  forall tag after,
    take_tag s = (tag, after) ->
    s = tag +:+ after /\ all_chars is_tag_char tag = true.
Proof.
  induction s as [|c rest IH]; intros tag after; cbn [take_tag].
  - intros [= <- <-]. split; reflexivity.
  - destruct (is_tag_char c) eqn:Hc.
    + destruct (take_tag rest) as [tag' after'].
      destruct (IH tag' after' eq_refl) as [Hrest Hall].
      intros [= <- <-]. split.
      * change (String c rest = String c (tag' +:+ after')).
        rewrite <- Hrest. reflexivity.
      * cbn [all_chars]. rewrite Hc, Hall. reflexivity.
    + intros [= <- <-]. split; reflexivity.
Qed.

Lemma take_tag_run (tag post : string) :
  all_chars is_tag_char tag = true ->
  take_tag (tag +:+ "]" +:+ post) = (tag, "]" +:+ post).
Proof.
  induction tag as [|c tag IH]; intros Hall.
  - reflexivity.
  - cbn [all_chars] in Hall. apply andb_true_iff in Hall as [Hc Hall].
    change (String c tag +:+ "]" +:+ post)
      with (String c (tag +:+ "]" +:+ post)).
    cbn [take_tag]. rewrite Hc, (IH Hall). reflexivity.
Qed.

Lemma search_tag_sound (s : string) :
  forall tag,
    search_tag s = Some tag ->
    is_tag tag = true
    /\ exists pre post, s = pre +:+ "[" +:+ tag +:+ "]" +:+ post.
Proof.
  induction s as [|c rest IH]; intros tag; cbn [search_tag];
    [discriminate|].
  assert (Hskip : search_tag rest = Some tag ->
                  is_tag tag = true
                  /\ exists pre post,
                       String c rest = pre +:+ "[" +:+ tag +:+ "]" +:+ post).
  { intros H. destruct (IH tag H) as (Htag & pre & post & ->).
    split; [exact Htag|]. exists (String c pre), post. reflexivity. }
  destruct (nat_of_ascii c =? 91)%nat eqn:Hopen; [|exact Hskip].
  destruct (take_tag rest) as [run after] eqn:Hrun.
  destruct run as [|t run]; [exact Hskip|].
  destruct after as [|close after]; [exact Hskip|].
  destruct (nat_of_ascii close =? 93)%nat eqn:Hclose; [|exact Hskip].
  intros [= <-].
  destruct (take_tag_spec rest _ _ Hrun) as [Hrest Hall].
  split.
  - unfold is_tag. rewrite Hall. reflexivity.
  - exists "", after. apply Nat.eqb_eq in Hopen, Hclose.
    assert (Hc : c = "["%char).
    { rewrite <- (ascii_nat_embedding c), Hopen. reflexivity. }
    assert (Hcl : close = "]"%char).
    { rewrite <- (ascii_nat_embedding close), Hclose. reflexivity. }
    subst c close. rewrite Hrest. reflexivity.
Qed.

Lemma search_tag_first (pre tag post : string) :
  all_chars (fun c => negb (is_open_bracket c)) pre = true ->
  is_tag tag = true ->
  search_tag (pre +:+ "[" +:+ tag +:+ "]" +:+ post) = Some tag.
Proof.
  intros Hpre Htag. unfold is_tag in Htag.
  apply andb_true_iff in Htag as [Hnonempty Hall].
  induction pre as [|c pre IH].
  - change ("" +:+ "[" +:+ tag +:+ "]" +:+ post)
      with (String "["%char (tag +:+ "]" +:+ post)).
    cbn [search_tag]. change (nat_of_ascii "[" =? 91)%nat with true.
    cbv iota. rewrite (take_tag_run tag post Hall).
    destruct tag as [|t tag]; [discriminate|]. reflexivity.
  - cbn [all_chars] in Hpre. apply andb_true_iff in Hpre as [Hc Hpre].
    change (String c pre +:+ "[" +:+ tag +:+ "]" +:+ post)
      with (String c (pre +:+ "[" +:+ tag +:+ "]" +:+ post)).
    cbn [search_tag]. unfold is_open_bracket in Hc.
    apply negb_true_iff in Hc. rewrite Hc. apply IH. exact Hpre.
Qed.

Lemma lower_truthy (tag : string) :
  String.eqb tag "" = false -> truthy (lower tag) = true.
Proof. destruct tag; [discriminate|reflexivity]. Qed.

(** X21: a step type is only ever taken from a bracketed tag: when
    the step information has a type, the text of the step contains
    [[TAG]] for a non-empty run [TAG] of capitals and underscores, and
    the type is [TAG] in lower case. *)
Theorem step_type_comes_from_a_bracketed_tag :
  forall (step ty : string),
    info_type (step_info_of step) = Some ty ->
    exists pre tag post,
      step = pre +:+ "[" +:+ tag +:+ "]" +:+ post
      /\ is_tag tag = true
      /\ ty = lower tag.
Proof.
  intros step ty. unfold step_info_of. cbn [info_type].
  destruct (search_tag step) as [tag|] eqn:Hsearch; [|discriminate].
  intros [= <-].
  destruct (search_tag_sound step tag Hsearch) as (Htag & pre & post & Hstep).
  exists pre, tag, post. repeat split; assumption.
Qed.

Lemma step_type_comes_from_a_bracketed_tag_witness :
  exists pre tag post,
    "Write it [CODE] now" = pre +:+ "[" +:+ tag +:+ "]" +:+ post
    /\ is_tag tag = true
    /\ "code" = lower tag.
Proof.
  apply (step_type_comes_from_a_bracketed_tag "Write it [CODE] now" "code").
  reflexivity.
Defined.

(** X22: a step whose first bracket opens a tag [[TAG]] is executed
    by the agent registered under [TAG] in lower case, when there is
    one, whatever the executor keys and the primary agent are. *)
Theorem tagged_step_goes_to_the_agent_of_its_tag :
  forall (flow : PlanningFlow) (pre tag post : string) (a : nat),
    all_chars (fun c => negb (is_open_bracket c)) pre = true ->
    is_tag tag = true ->
    agents flow !! lower tag = Some a ->
    get_executor flow
      (info_type (step_info_of (pre +:+ "[" +:+ tag +:+ "]" +:+ post)))
    = Some a.
Proof.
  intros flow pre tag post a Hpre Htag Hagent.
  unfold step_info_of. cbn [info_type].
  rewrite (search_tag_first pre tag post Hpre Htag). cbn [fmap option_fmap option_map].
  unfold get_executor. cbn [truthy_opt default].
  unfold is_tag in Htag. apply andb_true_iff in Htag as [Hnonempty _].
  apply negb_true_iff in Hnonempty.
  rewrite (lower_truthy tag Hnonempty). unfold id. rewrite Hagent.
  reflexivity.
Qed.

Lemma tagged_step_goes_to_the_agent_of_its_tag_witness :
  get_executor flow_two_agents
    (info_type
       (step_info_of ("Write it " +:+ "[" +:+ "CODE" +:+ "]" +:+ " now")))
  = Some 1%nat.
Proof.
  apply (tagged_step_goes_to_the_agent_of_its_tag flow_two_agents
           "Write it " "CODE" " now" 1%nat); reflexivity.
Defined.

Lemma omap_absent (flow : PlanningFlow) (keys : list string) :
  Forall (fun k => agents flow !! k = None) keys ->
  omap (fun key => agents flow !! key) keys = [].
Proof.
  induction 1 as [|k keys Hk Hkeys IH]; [reflexivity|].
  cbn [omap list_omap]. rewrite Hk. exact IH.
Qed.

(** X23: when the step type names no agent, [get_executor] returns
    the agent of the first executor key that names one, and the
    primary agent when no key does. *)
Theorem executor_falls_back_in_order :
  forall (flow : PlanningFlow) (step_type : option string),
    (forall t, step_type = Some t -> truthy t = true ->
               agents flow !! t = None) ->
    (forall skipped key rest a,
       executor_keys flow = (skipped ++ key :: rest)%list ->
       Forall (fun k => agents flow !! k = None) skipped ->
       agents flow !! key = Some a ->
       get_executor flow step_type = Some a)
    /\ (Forall (fun k => agents flow !! k = None) (executor_keys flow) ->
        get_executor flow step_type = primary_agent flow).
Proof.
  intros flow step_type Htyped.
  assert (Hnone : (if truthy_opt step_type
                   then agents flow !! default "" step_type else None)
                  = None).
  { destruct step_type as [t|]; [|reflexivity]. cbn [truthy_opt default].
    destruct (truthy t) eqn:Ht; [|reflexivity]. apply (Htyped t eq_refl Ht). }
  unfold get_executor. rewrite Hnone. split.
  - intros skipped key rest a Hkeys Hskipped Hkey. rewrite Hkeys.
    rewrite omap_app, (omap_absent flow skipped Hskipped).
    cbn [omap list_omap app]. rewrite Hkey. reflexivity.
  - intros Habsent. rewrite (omap_absent flow _ Habsent). reflexivity.
Qed.

Lemma executor_falls_back_in_order_witness :
  get_executor flow_two_agents (Some "search") = Some 0%nat.
Proof.
  destruct (executor_falls_back_in_order flow_two_agents (Some "search"))
    as [Hkey _].
  - intros t [= <-] _. reflexivity.
  - apply (Hkey [] "manus" ["code"] 0%nat); [reflexivity|constructor|].
    reflexivity.
Defined.

Lemma pad_lookup_default (n k : nat) (l : list PlanStepStatus) :
  default NOT_STARTED (pad n NOT_STARTED l !! k)
  = default NOT_STARTED (l !! k).
Proof.
  unfold pad. destruct (decide (k < length l)%nat) as [Hlt|Hge].
  - rewrite lookup_app_l by exact Hlt. reflexivity.
  - rewrite lookup_app_r by lia.
    rewrite (lookup_ge_None_2 l) by lia. simpl.
    destruct (replicate (n - length l) NOT_STARTED !! (k - length l)%nat)
      as [s|] eqn:Hs; [|reflexivity].
    apply lookup_replicate in Hs as [-> _]. reflexivity.
Qed.

Lemma pad_length {A} (n : nat) (x : A) (l : list A) :
  (n <= length (pad n x l))%nat /\ (length l <= length (pad n x l))%nat.
Proof. unfold pad. rewrite length_app, length_replicate. lia. Qed.

Lemma mark_in_progress_lookup (i k : nat) (l : list PlanStepStatus) :
  default NOT_STARTED (mark_in_progress_directly i l !! k)
  = if decide (k = i) then IN_PROGRESS else default NOT_STARTED (l !! k).
Proof.
  unfold mark_in_progress_directly.
  destruct (i <? length l)%nat eqn:Hi.
  - apply Nat.ltb_lt in Hi. destruct (decide (k = i)) as [->|Hne].
    + rewrite list_lookup_insert_eq by exact Hi. reflexivity.
    + rewrite list_lookup_insert_ne by congruence. reflexivity.
  - apply Nat.ltb_ge in Hi.
    assert (Hlen : length (pad i NOT_STARTED l) = i).
    { unfold pad. rewrite length_app, length_replicate. lia. }
    destruct (decide (k = i)) as [->|Hne].
    + rewrite lookup_app_r by lia. rewrite Hlen, Nat.sub_diag. reflexivity.
    + destruct (decide (k < i)%nat) as [Hlt|Hge].
      * rewrite lookup_app_l by lia. apply pad_lookup_default.
      * rewrite lookup_app_r by lia. rewrite Hlen.
        rewrite (lookup_ge_None_2 l) by lia.
        destruct (k - i)%nat as [|d] eqn:Hd; [lia|]. reflexivity.
Qed.

Lemma mark_completed_lookup (i k : nat) (l : list PlanStepStatus) :
  default NOT_STARTED
    (<[i := COMPLETED]> (pad (S i) NOT_STARTED l) !! k)
  = if decide (k = i) then COMPLETED else default NOT_STARTED (l !! k).
Proof.
  destruct (pad_length (S i) NOT_STARTED l) as [Hlen _].
  destruct (decide (k = i)) as [->|Hne].
  - rewrite list_lookup_insert_eq by lia. reflexivity.
  - rewrite list_lookup_insert_ne by congruence. apply pad_lookup_default.
Qed.

Lemma status_at_padded (plan : PlanData) (i : nat) :
  status_at (padded plan) i = status_at plan i.
Proof.
  unfold status_at, padded. cbn [step_statuses].
  destruct (step_statuses plan) as [l|]; [|reflexivity].
  cbn [fmap option_fmap option_map default]. apply pad_lookup_default.
Qed.

Lemma progress_of_ends (completed total : Z) :
  match progress_of completed total with
  | Return _ => True
  | Raise e => isinstance_Exception true e = true
  | OutOfFuel => False
  end.
Proof.
  unfold progress_of. destruct (0 <? total); [|exact I].
  unfold PyFloat.true_div.
  destruct (total =? 0); [reflexivity|].
  assert (Hmul : forall q,
            match TokenCounter.and_then (PyFloat.int_mul 100 q)
                    (fun x => Return (PyFloat.NFloat x)) with
            | Return _ => True
            | Raise e => isinstance_Exception true e = true
            | OutOfFuel => False
            end).
  { intros q. unfold PyFloat.int_mul.
    change (PyFloat.of_int 100)
      with (Return (S754_finite false 7036874417766400 (-46))).
    exact I. }
  destruct (completed =? 0); [apply Hmul|].
  destruct (SFdiv_core_binary _ _ _ _ _ _) as [[q e] l].
  destruct (binary_round_aux _ _ _ _ _ _); cbn [TokenCounter.and_then];
    try apply Hmul; reflexivity.
Qed.

Lemma plan_text_of_ends (plan_id : string) (plan : PlanData) :
  match plan_text_of plan_id plan with
  | Return _ => True
  | Raise e => isinstance_Exception true e = true
  | OutOfFuel => False
  end.
Proof.
  unfold plan_text_of. cbv zeta.
  match goal with
  | |- context [progress_of ?c ?t] =>
      pose proof (progress_of_ends c t) as Hends;
      destruct (progress_of c t)
  end; cbn [TokenCounter.and_then]; [exact I|exact Hends|exact Hends].
Qed.

(** [_generate_plan_text_from_storage] returns a text, and stores the
    padded plan when there is one. *)
Lemma plan_text_is_always_produced_aux (E : Type) (flow : PlanningFlow)
    (w : @World E) :
  exists text,
    _generate_plan_text_from_storage flow w
    = (Return text,
       match plans w !! active_plan_id flow with
       | Some plan =>
           {| plans := <[active_plan_id flow := padded plan]> (plans w);
              current_step_index := current_step_index w;
              env := env w |}
       | None => w
       end).
Proof.
  unfold _generate_plan_text_from_storage, bind, get. cbn [fst snd].
  destruct (plans w !! active_plan_id flow) as [plan|] eqn:Hplan.
  - unfold set_plans, modify. cbn [fst snd plans current_step_index env].
    pose proof (plan_text_of_ends (active_plan_id flow) plan) as Hends.
    destruct (plan_text_of (active_plan_id flow) plan) as [text|e|].
    + exists text. reflexivity.
    + unfold catches_Exception. rewrite Hends. eexists. reflexivity.
    + contradiction.
  - eexists. reflexivity.
Qed.

(** X24: [_generate_plan_text_from_storage] always returns a text and
    never raises; without a plan under the active id the text is the
    not-found message and nothing is changed; with one, the only change
    is that the plan is stored with its lists padded. *)
Theorem plan_text_is_always_produced :
  forall (E : Type) (flow : PlanningFlow) (w : @World E),
    exists text,
      _generate_plan_text_from_storage flow w
      = (Return text,
         match plans w !! active_plan_id flow with
         | Some plan =>
             {| plans := <[active_plan_id flow := padded plan]> (plans w);
                current_step_index := current_step_index w;
                env := env w |}
         | None => w
         end)
      /\ (plans w !! active_plan_id flow = None ->
          text = "Error: Plan with ID " +:+ active_plan_id flow
                 +:+ " not found").
Proof.
  intros E flow w. unfold _generate_plan_text_from_storage, bind, get.
  cbn [fst snd].
  destruct (plans w !! active_plan_id flow) as [plan|] eqn:Hplan.
  - unfold set_plans, modify. cbn [fst snd plans current_step_index env].
    pose proof (plan_text_of_ends (active_plan_id flow) plan) as Hends.
    destruct (plan_text_of (active_plan_id flow) plan) as [text|e|].
    + exists text. split; [reflexivity|discriminate].
    + unfold catches_Exception. rewrite Hends.
      eexists. split; [reflexivity|discriminate].
    + contradiction.
  - eexists. split; [reflexivity|]. intros _. reflexivity.
Qed.

(** X25: rendering the stored plan keeps its steps and the status of
    every step (the padding adds [not_started], which is what a missing
    entry counts as), and leaves every stored list of statuses or notes
    at least as long as the list of steps. *)
Theorem rendering_keeps_the_statuses :
  forall (E : Type) (flow : PlanningFlow) (w : @World E) (plan : PlanData),
    plans w !! active_plan_id flow = Some plan ->
    exists plan',
      plans (snd (_generate_plan_text_from_storage flow w))
        !! active_plan_id flow = Some plan'
      /\ steps plan' = steps plan
      /\ (forall i, status_at plan' i = status_at plan i)
      /\ (forall statuses,
            step_statuses plan' = Some statuses ->
            (length (default [] (steps plan)) <= length statuses)%nat)
      /\ (forall notes,
            step_notes plan' = Some notes ->
            (length (default [] (steps plan)) <= length notes)%nat).
Proof.
  intros E flow w plan Hplan.
  destruct (plan_text_is_always_produced_aux E flow w) as (text & Hrun).
  rewrite Hrun, Hplan. cbn [snd plans].
  exists (padded plan). split; [apply lookup_insert_eq|].
  split; [reflexivity|]. split; [apply status_at_padded|]. split.
  - intros statuses. unfold padded. cbn [step_statuses].
    destruct (step_statuses plan) as [l|]; [|discriminate].
    intros [= <-]. apply pad_length.
  - intros notes. unfold padded. cbn [step_notes].
    destruct (step_notes plan) as [l|]; [|discriminate].
    intros [= <-]. apply pad_length.
Qed.

Lemma rendering_keeps_the_statuses_witness :
  exists plan',
    plans (snd (_generate_plan_text_from_storage flow_one_agent world_abc))
      !! active_plan_id flow_one_agent = Some plan'
    /\ steps plan' = steps plan_abc
    /\ (forall i, status_at plan' i = status_at plan_abc i)
    /\ (forall statuses,
          step_statuses plan' = Some statuses ->
          (length (default [] (steps plan_abc)) <= length statuses)%nat)
    /\ (forall notes,
          step_notes plan' = Some notes ->
          (length (default [] (steps plan_abc)) <= length notes)%nat).
Proof.
  apply (rendering_keeps_the_statuses unit flow_one_agent world_abc plan_abc).
  reflexivity.
Defined.

Section Down.

Context {E : Type}.
Variable flow : PlanningFlow.
Variable planning_tool : ToolArgs -> M (@World E) string.
Hypothesis Hdown : tool_down planning_tool.

(** With the tool out of order, the scan returns the first active
    index with the information of its step, and stores the statuses
    with that index in progress. *)
Lemma scan_steps_down (steps : list string)
    (statuses : list PlanStepStatus) :
  forall i w,
    exists info,
      scan_steps flow planning_tool i steps statuses w
      = (Return (first_active i steps statuses, info),
         match first_active i steps statuses with
         | Some k =>
             {| plans :=
                  alter (set_step_statuses
                           (Some (mark_in_progress_directly k statuses)))
                    (active_plan_id flow) (plans w);
                current_step_index := current_step_index w;
                env := env w |}
         | None => w
         end)
      /\ (is_Some (first_active i steps statuses) -> is_Some info).
Proof.
  induction steps as [|step rest IH]; intros i w;
    cbn [first_active scan_steps].
  - exists None. split; [reflexivity|]. intros [k Hk]. discriminate.
  - destruct (status_in (default NOT_STARTED (statuses !! i))
                get_active_statuses); [|apply IH].
    unfold bind at 1, try_except, bind at 1.
    destruct (Hdown (mark_step_args (active_plan_id flow) i IN_PROGRESS) w)
      as (e & -> & Hcatch).
    unfold catches_Exception. rewrite Hcatch.
    eexists. split; [reflexivity|]. intros _. eexists. reflexivity.
Qed.

Lemma _get_current_step_info_down (w : World) (plan : PlanData) :
  active_plan_id flow <> "" ->
  plans w !! active_plan_id flow = Some plan ->
  let selected :=
    first_active 0 (default [] (steps plan))
      (default [] (step_statuses plan)) in
  exists info,
    _get_current_step_info flow planning_tool w
    = (Return (selected, info),
       match selected with
       | Some k =>
           {| plans :=
                <[active_plan_id flow :=
                    set_step_statuses
                      (Some (mark_in_progress_directly k
                               (default [] (step_statuses plan)))) plan]>
                  (plans w);
              current_step_index := current_step_index w;
              env := env w |}
       | None => w
       end)
    /\ (is_Some selected -> is_Some info).
Proof.
  intros Hid Hplan selected.
  unfold _get_current_step_info, bind, get. cbn [fst snd].
  unfold truthy. rewrite (proj2 (String.eqb_neq _ _) Hid). cbn [negb].
  rewrite Hplan. unfold try_except.
  destruct (scan_steps_down (default [] (steps plan))
              (default [] (step_statuses plan)) 0%nat w)
    as (info & Hscan & Hinfo).
  rewrite Hscan. fold selected. exists info. split; [|exact Hinfo].
  destruct selected as [k|]; [|reflexivity].
  rewrite alter_alt, Hplan. reflexivity.
Qed.

Lemma _mark_step_completed_down (w : World) (i : nat) (plan : PlanData) :
  current_step_index w = Some i ->
  plans w !! active_plan_id flow = Some plan ->
  _mark_step_completed flow planning_tool w
  = (Return tt,
     {| plans :=
          <[active_plan_id flow := mark_completed_directly i plan]> (plans w);
        current_step_index := Some i;
        env := env w |}).
Proof.
  intros Hindex Hplan. unfold _mark_step_completed, bind, get.
  cbn [fst snd]. rewrite Hindex. unfold try_except, bind.
  destruct (Hdown (mark_step_args (active_plan_id flow) i COMPLETED) w)
    as (e & -> & Hcatch).
  unfold catches_Exception. rewrite Hcatch.
  unfold set_plans, modify. cbn [fst snd plans current_step_index env].
  rewrite alter_alt, Hplan, Hindex. reflexivity.
Qed.

End Down.

Lemma status_at_in_progress (i k : nat) (plan : PlanData) :
  status_at
    (set_step_statuses
       (Some (mark_in_progress_directly i (default [] (step_statuses plan))))
       plan) k
  = if decide (k = i) then IN_PROGRESS else status_at plan k.
Proof. unfold status_at. cbn [step_statuses default]. apply mark_in_progress_lookup. Qed.

Lemma status_at_completed (i k : nat) (plan : PlanData) :
  status_at (mark_completed_directly i plan) k
  = if decide (k = i) then COMPLETED else status_at plan k.
Proof.
  unfold status_at, mark_completed_directly. cbn [step_statuses default].
  apply mark_completed_lookup.
Qed.

(** X26: when every call of the planning tool fails,
    [_mark_step_completed] still returns, and stores the plan with the
    current step [COMPLETED], the status of every other step, the
    title, the steps and the notes as they were. *)
Theorem step_is_completed_without_the_tool :
  forall (E : Type) (flow : PlanningFlow)
         (planning_tool : ToolArgs -> M (@World E) string)
         (w : @World E) (i : nat) (plan : PlanData),
    tool_down planning_tool ->
    current_step_index w = Some i ->
    plans w !! active_plan_id flow = Some plan ->
    exists plan',
      _mark_step_completed flow planning_tool w
      = (Return tt,
         {| plans := <[active_plan_id flow := plan']> (plans w);
            current_step_index := Some i;
            env := env w |})
      /\ status_at plan' i = COMPLETED
      /\ (forall j, j <> i -> status_at plan' j = status_at plan j)
      /\ title plan' = title plan /\ steps plan' = steps plan
      /\ step_notes plan' = step_notes plan.
Proof.
  intros E flow planning_tool w i plan Hdown Hindex Hplan.
  exists (mark_completed_directly i plan).
  rewrite (_mark_step_completed_down flow planning_tool Hdown w i plan
             Hindex Hplan).
  split; [reflexivity|]. split.
  - rewrite status_at_completed. destruct (decide (i = i)); congruence.
  - split; [|repeat split].
    intros j Hj. rewrite status_at_completed.
    destruct (decide (j = i)); congruence.
Qed.

Lemma failing_tool_down : tool_down failing_tool.
Proof. intros args w. eexists. split; reflexivity. Qed.

Lemma step_is_completed_without_the_tool_witness :
  exists plan',
    _mark_step_completed flow_one_agent failing_tool
      (at_step (Some 1%nat) world_abc)
    = (Return tt,
       {| plans :=
            <[active_plan_id flow_one_agent := plan']>
              (plans (at_step (Some 1%nat) world_abc));
          current_step_index := Some 1%nat;
          env := env (at_step (Some 1%nat) world_abc) |})
    /\ status_at plan' 1 = COMPLETED
    /\ (forall j, j <> 1%nat -> status_at plan' j = status_at plan_abc j)
    /\ title plan' = title plan_abc /\ steps plan' = steps plan_abc
    /\ step_notes plan' = step_notes plan_abc.
Proof.
  apply (step_is_completed_without_the_tool unit flow_one_agent failing_tool
           (at_step (Some 1%nat) world_abc) 1%nat plan_abc).
  - exact failing_tool_down.
  - reflexivity.
  - reflexivity.
Defined.

(** A selection that returns an index found a plan under a non-empty
    active plan id. *)
Lemma selection_finds_the_plan {E : Type} (flow : PlanningFlow)
    (planning_tool : ToolArgs -> M (@World E) string) (w w1 : @World E)
    (i : nat) (info : option StepInfo) :
  _get_current_step_info flow planning_tool w = (Return (Some i, info), w1) ->
  active_plan_id flow <> ""
  /\ exists plan, plans w !! active_plan_id flow = Some plan.
Proof.
  unfold _get_current_step_info, bind, get. cbn [fst snd]. unfold truthy.
  destruct (String.eqb (active_plan_id flow) "") eqn:Hid; cbn [negb];
    [discriminate|].
  destruct (plans w !! active_plan_id flow) as [plan|]; [|discriminate].
  intros _. split; [|eauto]. apply String.eqb_neq. exact Hid.
Qed.

(** X27: with the planning tool failing on every call, a step that
    [_get_current_step_info] selected and [_mark_step_completed] then
    marked is not selected again: the next selection returns a later
    index. *)
Theorem completed_step_is_not_selected_again :
  forall (E : Type) (flow : PlanningFlow)
         (planning_tool : ToolArgs -> M (@World E) string)
         (w w1 w2 w3 : @World E) (i j : nat) (info info' : option StepInfo),
    tool_down planning_tool ->
    _get_current_step_info flow planning_tool w
    = (Return (Some i, info), w1) ->
    _mark_step_completed flow planning_tool (at_step (Some i) w1)
    = (Return tt, w2) ->
    _get_current_step_info flow planning_tool w2
    = (Return (Some j, info'), w3) ->
    (i < j)%nat.
Proof.
  intros E flow planning_tool w w1 w2 w3 i j info info' Hdown Hfirst Hmark
    Hsecond.
  destruct (selection_finds_the_plan flow planning_tool w w1 i info Hfirst)
    as (Hid & plan & Hplan).
  destruct (_get_current_step_info_down flow planning_tool Hdown w plan
              Hid Hplan) as (info0 & Hrun & _).
  cbv zeta in Hrun. rewrite Hrun in Hfirst.
  destruct (first_active 0 (default [] (steps plan))
              (default [] (step_statuses plan))) as [k|] eqn:Hselected;
    [|discriminate].
  inversion Hfirst; subst k info0 w1. clear Hfirst.
  set (plan1 := set_step_statuses
                  (Some (mark_in_progress_directly i
                           (default [] (step_statuses plan)))) plan) in *.
  rewrite (_mark_step_completed_down flow planning_tool Hdown _ i plan1)
    in Hmark; [|reflexivity|apply lookup_insert_eq].
  inversion Hmark; subst w2. clear Hmark.
  set (plan2 := mark_completed_directly i plan1) in *.
  match type of Hsecond with
  | _get_current_step_info _ _ ?w2 = _ =>
      destruct (_get_current_step_info_down flow planning_tool Hdown w2 plan2
                  Hid (lookup_insert_eq _ _ _)) as (info1 & Hrun2 & _)
  end.
  cbv zeta in Hrun2. rewrite Hrun2 in Hsecond.
  destruct (first_active 0 (default [] (steps plan2))
              (default [] (step_statuses plan2))) as [k|] eqn:Hnext;
    [|discriminate].
  inversion Hsecond; subst k. clear Hsecond.
  apply first_active_some in Hselected as (_ & _ & Hbefore).
  apply first_active_some in Hnext as (_ & Hactive & _).
  change (default NOT_STARTED (default [] (step_statuses plan2) !! j))
    with (status_at plan2 j) in Hactive.
  unfold plan2 in Hactive. rewrite status_at_completed in Hactive.
  destruct (decide (j = i)) as [->|Hne].
  { destruct Hactive; discriminate. }
  unfold plan1 in Hactive. rewrite status_at_in_progress in Hactive.
  destruct (decide (j = i)); [contradiction|].
  destruct (decide (i < j)%nat) as [Hlt|Hge]; [exact Hlt|].
  exfalso. apply (Hbefore j); [lia|exact Hactive].
Qed.

Lemma completed_step_is_not_selected_again_witness :
  exists w1 w2 w3 info info',
    _get_current_step_info flow_one_agent failing_tool world_abc
    = (Return (Some 1%nat, info), w1)
    /\ _mark_step_completed flow_one_agent failing_tool
         (at_step (Some 1%nat) w1) = (Return tt, w2)
    /\ _get_current_step_info flow_one_agent failing_tool w2
       = (Return (Some 2%nat, info'), w3)
    /\ (1 < 2)%nat.
Proof.
  pose (w1 := snd (_get_current_step_info flow_one_agent failing_tool
                     world_abc)).
  pose (w2 := snd (_mark_step_completed flow_one_agent failing_tool
                     (at_step (Some 1%nat) w1))).
  pose (w3 := snd (_get_current_step_info flow_one_agent failing_tool w2)).
  assert (Hfirst :
    _get_current_step_info flow_one_agent failing_tool world_abc
    = (Return (Some 1%nat, Some {| info_text := "b"; info_type := None |}),
       w1)) by (vm_compute; reflexivity).
  assert (Hmark :
    _mark_step_completed flow_one_agent failing_tool (at_step (Some 1%nat) w1)
    = (Return tt, w2)) by (vm_compute; reflexivity).
  assert (Hsecond :
    _get_current_step_info flow_one_agent failing_tool w2
    = (Return (Some 2%nat, Some {| info_text := "c"; info_type := None |}),
       w3)) by (vm_compute; reflexivity).
  exists w1, w2, w3, (Some {| info_text := "b"; info_type := None |}),
    (Some {| info_text := "c"; info_type := None |}).
  split; [exact Hfirst|]. split; [exact Hmark|]. split; [exact Hsecond|].
  exact (completed_step_is_not_selected_again unit flow_one_agent
           failing_tool world_abc w1 w2 w3 1%nat 2%nat _ _ failing_tool_down
           Hfirst Hmark Hsecond).
Defined.

Section Stalled.

Context {E : Type}.
Variable flow : PlanningFlow.
Variable planning_tool : ToolArgs -> M (@World E) string.
Variable llm_ask : string -> string -> M (@World E) string.
Variable agent_run : nat -> string -> M (@World E) string.
Variable agent_state : nat -> E -> Agent.AgentState.

Hypothesis Htool : tool_down planning_tool.
Hypothesis Hagent : agent_down agent_run.
Hypothesis Hstate : forall a e, agent_state a e <> Agent.FINISHED.
Hypothesis Hid : active_plan_id flow <> "".

Lemma _get_plan_text_down (w : World) :
  _get_plan_text flow planning_tool w
  = _generate_plan_text_from_storage flow w.
Proof.
  unfold _get_plan_text, try_except.
  destruct (Htool (get_args (active_plan_id flow)) w) as (e & -> & Hcatch).
  unfold catches_Exception. rewrite Hcatch. reflexivity.
Qed.

(** With the agents failing, a step comes back as an error text, and
    the only change is the padding of the stored plan. *)
Lemma _execute_step_down (executor : option nat) (info : StepInfo)
    (w : World) (plan : PlanData) :
  plans w !! active_plan_id flow = Some plan ->
  exists text,
    _execute_step flow planning_tool agent_run executor (Some info) w
    = (Return text,
       {| plans := <[active_plan_id flow := padded plan]> (plans w);
          current_step_index := current_step_index w;
          env := env w |}).
Proof.
  intros Hplan. unfold _execute_step. unfold bind at 1.
  rewrite _get_plan_text_down.
  destruct (plan_text_is_always_produced_aux E flow w) as (text & ->).
  rewrite Hplan. unfold bind at 1, get. cbn [fst snd].
  unfold try_except, bind at 1.
  destruct executor as [a|].
  - match goal with
    | |- context [agent_run a ?prompt ?w0] =>
        destruct (Hagent a prompt w0) as (e & -> & Hcatch)
    end.
    unfold catches_Exception. rewrite Hcatch. eexists. reflexivity.
  - eexists. reflexivity.
Qed.

(** One iteration with the agents failing: the loop goes on, and the
    step that was selected is still the first active one. *)
Lemma execute_loop_stalls_once (fuel : nat) (result : string) (w : World)
    (plan : PlanData) (i : nat) :
  plans w !! active_plan_id flow = Some plan ->
  first_active 0 (default [] (steps plan)) (default [] (step_statuses plan))
  = Some i ->
  exists result' w' plan',
    execute_loop flow planning_tool llm_ask agent_run agent_state (S fuel)
      result w
    = execute_loop flow planning_tool llm_ask agent_run agent_state fuel
        result' w'
    /\ plans w' !! active_plan_id flow = Some plan'
    /\ first_active 0 (default [] (steps plan'))
         (default [] (step_statuses plan')) = Some i.
Proof.
  intros Hplan Hselected. cbn [execute_loop]. unfold bind at 1.
  destruct (_get_current_step_info_down flow planning_tool Htool w plan Hid
              Hplan) as (info & Hrun & Hinfo).
  cbv zeta in Hrun, Hinfo. rewrite Hselected in Hrun, Hinfo.
  rewrite Hrun. destruct (Hinfo ltac:(eauto)) as [step_info ->].
  unfold bind at 1, set_current_step_index, modify. cbn [fst snd].
  cbn [plans current_step_index env].
  set (plan1 := set_step_statuses
                  (Some (mark_in_progress_directly i
                           (default [] (step_statuses plan)))) plan).
  unfold bind at 1.
  match goal with
  | |- context [_execute_step flow planning_tool agent_run ?ex
                  (Some step_info) ?w1] =>
      destruct (_execute_step_down ex step_info w1 plan1
                  (lookup_insert_eq _ _ _)) as (text & ->)
  end.
  cbn [plans current_step_index env]. unfold bind at 1, get. cbn [fst snd].
  assert (Hnext : first_active 0 (default [] (steps (padded plan1)))
                    (default [] (step_statuses (padded plan1))) = Some i).
  { apply first_active_some in Hselected as (Hrange & _ & Hbefore).
    apply first_active_some. split; [exact Hrange|]. split.
    - change (default NOT_STARTED
                (default [] (step_statuses (padded plan1)) !! i))
        with (status_at (padded plan1) i).
      rewrite status_at_padded. unfold plan1.
      rewrite status_at_in_progress.
      destruct (decide (i = i)); [right; reflexivity|congruence].
    - intros k Hk.
      change (default NOT_STARTED
                (default [] (step_statuses (padded plan1)) !! k))
        with (status_at (padded plan1) k).
      rewrite status_at_padded. unfold plan1.
      rewrite status_at_in_progress.
      destruct (decide (k = i)); [lia|]. apply Hbefore. exact Hk. }
  destruct (get_executor flow (info_type step_info)) as [a|].
  - cbn [env]. rewrite bool_decide_eq_false_2 by apply Hstate.
    eexists _, _, (padded plan1). split; [reflexivity|].
    split; [apply lookup_insert_eq|exact Hnext].
  - eexists _, _, (padded plan1). split; [reflexivity|].
    split; [apply lookup_insert_eq|exact Hnext].
Qed.

Lemma execute_loop_stalls (fuel : nat) :
  forall (result : string) (w : World) (plan : PlanData) (i : nat),
    plans w !! active_plan_id flow = Some plan ->
    first_active 0 (default [] (steps plan)) (default [] (step_statuses plan))
    = Some i ->
    fst (execute_loop flow planning_tool llm_ask agent_run agent_state fuel
           result w) = OutOfFuel.
Proof.
  induction fuel as [|fuel IH]; intros result w plan i Hplan Hselected.
  - reflexivity.
  - destruct (execute_loop_stalls_once fuel result w plan i Hplan Hselected)
      as (result' & w' & plan' & -> & Hplan' & Hselected').
    exact (IH result' w' plan' i Hplan' Hselected').
Qed.

End Stalled.

(** X28: a step whose executor raises on every call is never marked
    completed and is selected again each time: with the planning tool
    out of order, a stored plan that has an active step and no agent
    that reports [FINISHED], [execute] does not end, whatever the
    fuel. *)
Theorem failing_step_is_repeated_without_end :
  forall (E : Type) (flow : PlanningFlow)
         (planning_tool : ToolArgs -> M (@World E) string)
         (llm_ask_tool :
            string -> string -> M (@World E) (option (list ToolCall)))
         (llm_ask : string -> string -> M (@World E) string)
         (json_loads : string -> Json)
         (agent_run : nat -> string -> M (@World E) string)
         (agent_state : nat -> E -> Agent.AgentState)
         (w : @World E) (plan : PlanData) (i : nat),
    tool_down planning_tool ->
    agent_down agent_run ->
    (forall a e, agent_state a e <> Agent.FINISHED) ->
    is_Some (primary_agent flow) ->
    active_plan_id flow <> "" ->
    plans w !! active_plan_id flow = Some plan ->
    (i < length (default [] (steps plan)))%nat ->
    is_active (status_at plan i) ->
    forall fuel : nat,
      fst (execute flow planning_tool llm_ask_tool llm_ask json_loads
             agent_run agent_state fuel "" w) = OutOfFuel.
Proof.
  intros E flow planning_tool llm_ask_tool llm_ask json_loads agent_run
    agent_state w plan i Htool Hagent Hstate [primary Hprimary] Hid Hplan
    Hrange Hactive fuel.
  assert (Hloop :
    fst (execute_loop flow planning_tool llm_ask agent_run agent_state fuel
           "" w) = OutOfFuel).
  { destruct (first_active 0 (default [] (steps plan))
                (default [] (step_statuses plan))) as [k|] eqn:Hselected.
    - exact (execute_loop_stalls flow planning_tool llm_ask agent_run
               agent_state Htool Hagent Hstate Hid fuel "" w plan k Hplan
               Hselected).
    - exfalso.
      apply (proj1 (first_active_none _ _ 0%nat) Hselected i); [lia|].
      exact Hactive. }
  unfold execute, try_except. rewrite Hprimary.
  unfold bind at 1. cbn [truthy String.eqb negb ret fst snd].
  destruct (execute_loop flow planning_tool llm_ask agent_run agent_state
              fuel "" w) as [[text|e|] w']; cbn [fst] in Hloop;
    try discriminate.
  reflexivity.
Qed.

Lemma failing_step_is_repeated_without_end_witness :
  fst (execute flow_one_agent failing_tool (fun _ _ => ret None)
         (fun _ _ => ret "summary") (fun _ => JsonOther) failing_agent
         (fun _ _ => Agent.IDLE) 7 "" world_abc) = OutOfFuel.
Proof.
  refine (failing_step_is_repeated_without_end unit flow_one_agent
            failing_tool (fun _ _ => ret None) (fun _ _ => ret "summary")
            (fun _ => JsonOther) failing_agent (fun _ _ => Agent.IDLE)
            world_abc plan_abc 1%nat _ _ _ _ _ _ _ _ 7%nat).
  - exact failing_tool_down.
  - intros a prompt w. eexists. split; reflexivity.
  - intros a e. discriminate.
  - eexists. reflexivity.
  - discriminate.
  - reflexivity.
  - simpl. lia.
  - right. reflexivity.
Defined.

(** [_get_plan_text] returns a text when the calls of the tool end. *)
Lemma _get_plan_text_returns {E : Type} (flow : PlanningFlow)
    (planning_tool : ToolArgs -> M (@World E) string) (w : @World E) :
  tool_ends planning_tool ->
  exists text w', _get_plan_text flow planning_tool w = (Return text, w').
Proof.
  intros Htool. unfold _get_plan_text, try_except.
  pose proof (Htool (get_args (active_plan_id flow)) w) as Hends.
  destruct (planning_tool (get_args (active_plan_id flow)) w)
    as [[text|e|] w1]; cbn [fst] in Hends.
  - eauto.
  - unfold catches_Exception. rewrite Hends.
    destruct (plan_text_is_always_produced_aux E flow w1) as (text & ->).
    eauto.
  - contradiction.
Qed.

(** X29: when the calls of the collaborators end, [_finalize_plan]
    returns and does not raise; its text is [Plan completed:] with a
    summary, or the fixed text that says that no summary could be
    generated. *)
Theorem finalization_always_reports_completion :
  forall (E : Type) (flow : PlanningFlow)
         (planning_tool : ToolArgs -> M (@World E) string)
         (llm_ask : string -> string -> M (@World E) string)
         (agent_run : nat -> string -> M (@World E) string) (w : @World E),
    tool_ends planning_tool ->
    (forall user_text system_text, call_ends (llm_ask user_text system_text)) ->
    (forall a prompt, call_ends (agent_run a prompt)) ->
    exists text w',
      _finalize_plan flow planning_tool llm_ask agent_run w = (Return text, w')
      /\ ((exists summary,
             text = "Plan completed:" +:+ nl +:+ nl +:+ summary)
          \/ text = "Plan completed. Error generating summary.").
Proof.
  intros E flow planning_tool llm_ask agent_run w Htool Hllm Hagent.
  unfold _finalize_plan. unfold bind at 1.
  destruct (_get_plan_text_returns flow planning_tool w Htool)
    as (plan_text & w1 & ->).
  unfold try_except at 1. unfold bind at 1.
  pose proof (Hllm (summary_user_text plan_text) summary_system_text w1)
    as Hends.
  destruct (llm_ask (summary_user_text plan_text) summary_system_text w1)
    as [[response|e|] w2]; cbn [fst] in Hends.
  - eexists _, _. split; [reflexivity|]. left. eauto.
  - unfold catches_Exception at 1. rewrite Hends.
    unfold try_except, bind.
    destruct (primary_agent flow) as [agent|].
    + pose proof (Hagent agent (summary_prompt_of plan_text) w2) as Hends2.
      destruct (agent_run agent (summary_prompt_of plan_text) w2)
        as [[summary|e2|] w3]; cbn [fst] in Hends2.
      * eexists _, _. split; [reflexivity|]. left. eauto.
      * unfold catches_Exception. rewrite Hends2.
        eexists _, _. split; [reflexivity|]. right. reflexivity.
      * contradiction.
    + eexists _, _. split; [reflexivity|]. right. reflexivity.
  - contradiction.
Qed.

Lemma finalization_always_reports_completion_witness :
  exists text w',
    _finalize_plan flow_one_agent failing_tool
      (fun _ _ => raise (Exn APIError "no model")) failing_agent world_abc
    = (Return text, w')
    /\ ((exists summary,
           text = "Plan completed:" +:+ nl +:+ nl +:+ summary)
        \/ text = "Plan completed. Error generating summary.").
Proof.
  apply (finalization_always_reports_completion unit flow_one_agent
           failing_tool (fun _ _ => raise (Exn APIError "no model"))
           failing_agent world_abc).
  - exact failing_tool_ends.
  - intros user_text system_text w. reflexivity.
  - intros a prompt w. reflexivity.
Defined.

Lemma get_executor_with_primary (flow : PlanningFlow)
    (step_type : option string) :
  is_Some (primary_agent flow) -> is_Some (get_executor flow step_type).
Proof.
  intros Hprimary. unfold get_executor.
  destruct (if truthy_opt step_type
            then agents flow !! default "" step_type else None);
    [eauto|].
  destruct (omap _ _); [exact Hprimary|eauto].
Qed.

Lemma advanced_refl (plan : PlanData) : advanced plan plan.
Proof. split; [reflexivity|]. intros i. left. reflexivity. Qed.

Lemma count_if_ext {A} (p q : A -> bool) (l : list A) :
  (forall x, In x l -> p x = q x) -> count_if p l = count_if q l.
Proof.
  induction l as [|x l IH]; intros Hext; [reflexivity|].
  cbn [count_if]. rewrite (Hext x (or_introl eq_refl)), IH; [reflexivity|].
  intros y Hy. apply Hext. right. exact Hy.
Qed.

Lemma count_if_none {A} (p : A -> bool) (l : list A) :
  (forall x, In x l -> p x = false) -> count_if p l = 0.
Proof.
  induction l as [|x l IH]; intros Hnone; [reflexivity|].
  cbn [count_if]. rewrite (Hnone x (or_introl eq_refl)), IH; [reflexivity|].
  intros y Hy. apply Hnone. right. exact Hy.
Qed.

Lemma not_active_status (status : PlanStepStatus) :
  ~ is_active status -> status_in status get_active_statuses = false.
Proof.
  intros Hnot. destruct (status_in status get_active_statuses) eqn:H;
    [|reflexivity].
  exfalso. apply Hnot, status_in_active. exact H.
Qed.

(** The count of the active steps, when the first of them is known. *)
Lemma active_steps_from_first (frontier i : nat) (plan plan2 : PlanData) :
  (frontier <= i < length (default [] (steps plan)))%nat ->
  is_active (status_at plan i) ->
  (forall k, (k < i)%nat -> ~ is_active (status_at plan k)) ->
  steps plan2 = steps plan ->
  (forall k, (i < k)%nat -> status_at plan2 k = status_at plan k) ->
  active_steps_from frontier plan = 1 + active_steps_from (S i) plan2.
Proof.
  intros Hrange Hactive Hbefore Hsteps Hafter. unfold active_steps_from.
  rewrite Hsteps.
  replace (length (default [] (steps plan)) - frontier)%nat
    with ((i - frontier) + S (length (default [] (steps plan)) - S i))%nat
    by lia.
  rewrite seq_app, count_if_app.
  replace (frontier + (i - frontier))%nat with i by lia.
  cbn [seq count_if].
  rewrite count_if_none.
  - apply status_in_active in Hactive. rewrite Hactive.
    rewrite (count_if_ext _
               (fun k => status_in (status_at plan2 k) get_active_statuses));
      [lia|].
    intros k Hk. apply in_seq in Hk. rewrite Hafter by lia. reflexivity.
  - intros k Hk. apply in_seq in Hk. apply not_active_status, Hbefore. lia.
Qed.

Lemma active_steps_from_none (frontier : nat) (plan : PlanData) :
  (forall k, (k < length (default [] (steps plan)))%nat ->
             ~ is_active (status_at plan k)) ->
  active_steps_from frontier plan = 0.
Proof.
  intros Hnone. unfold active_steps_from. apply count_if_none.
  intros k Hk. apply in_seq in Hk. apply not_active_status, Hnone. lia.
Qed.

Section Working.

Context {E : Type}.
Variable flow : PlanningFlow.
Variable planning_tool : ToolArgs -> M (@World E) string.
Variable llm_ask : string -> string -> M (@World E) string.
Variable agent_run : nat -> string -> M (@World E) string.
Variable agent_state : nat -> E -> Agent.AgentState.
Variable reply summary : string.

Hypothesis Htool : tool_down planning_tool.
Hypothesis Hagent : agent_answers reply agent_run.
Hypothesis Hllm : llm_answers summary llm_ask.
Hypothesis Hstate : forall a e, agent_state a e <> Agent.FINISHED.
Hypothesis Hprimary : is_Some (primary_agent flow).
Hypothesis Hid : active_plan_id flow <> "".

Lemma _get_plan_text_stored (w : World) (plan : PlanData) :
  plans w !! active_plan_id flow = Some plan ->
  exists text,
    _get_plan_text flow planning_tool w
    = (Return text,
       {| plans := <[active_plan_id flow := padded plan]> (plans w);
          current_step_index := current_step_index w;
          env := env w |}).
Proof.
  intros Hplan. unfold _get_plan_text, try_except.
  destruct (Htool (get_args (active_plan_id flow)) w) as (e & -> & Hcatch).
  unfold catches_Exception. rewrite Hcatch.
  destruct (plan_text_is_always_produced_aux E flow w) as (text & ->).
  rewrite Hplan. eauto.
Qed.

(** With the agents answering, a step returns the answer and is stored
    as completed. *)
Lemma _execute_step_working (a : nat) (info : StepInfo) (w : World)
    (i : nat) (plan : PlanData) :
  current_step_index w = Some i ->
  plans w !! active_plan_id flow = Some plan ->
  _execute_step flow planning_tool agent_run (Some a) (Some info) w
  = (Return reply,
     {| plans :=
          <[active_plan_id flow := mark_completed_directly i (padded plan)]>
            (<[active_plan_id flow := padded plan]> (plans w));
        current_step_index := Some i;
        env := env w |}).
Proof.
  intros Hindex Hplan. unfold _execute_step. unfold bind at 1.
  destruct (_get_plan_text_stored w plan Hplan) as (text & ->).
  unfold bind at 1, get. cbn [fst snd]. unfold try_except, bind at 1.
  rewrite Hagent. unfold bind at 1.
  rewrite (_mark_step_completed_down flow planning_tool Htool _ i
             (padded plan)); [reflexivity|exact Hindex|].
  apply lookup_insert_eq.
Qed.

Lemma _finalize_plan_working (w : World) (plan : PlanData) :
  plans w !! active_plan_id flow = Some plan ->
  _finalize_plan flow planning_tool llm_ask agent_run w
  = (Return ("Plan completed:" +:+ nl +:+ nl +:+ summary),
     {| plans := <[active_plan_id flow := padded plan]> (plans w);
        current_step_index := current_step_index w;
        env := env w |}).
Proof.
  intros Hplan. unfold _finalize_plan. unfold bind at 1.
  destruct (_get_plan_text_stored w plan Hplan) as (text & ->).
  unfold try_except, bind. rewrite Hllm. reflexivity.
Qed.

(** The loop, from a plan whose steps below [frontier] are not active,
    with fuel for the steps from [frontier] on and for the end. *)
Lemma execute_loop_runs_to_the_end (fuel : nat) :
  forall (frontier : nat) (result : string) (w : World) (plan : PlanData),
    plans w !! active_plan_id flow = Some plan ->
    (forall k, (k < frontier)%nat -> ~ is_active (status_at plan k)) ->
    (length (default [] (steps plan)) - frontier < fuel)%nat ->
    exists n w' plan',
      execute_loop flow planning_tool llm_ask agent_run agent_state fuel
        result w
      = (Return (result +:+ repeat_str (reply +:+ nl) n
                 +:+ "Plan completed:" +:+ nl +:+ nl +:+ summary), w')
      /\ plans w' !! active_plan_id flow = Some plan'
      /\ Z.of_nat n = active_steps_from frontier plan
      /\ advanced plan plan'
      /\ (forall k, (k < length (default [] (steps plan)))%nat ->
                    ~ is_active (status_at plan' k)).
Proof.
  induction fuel as [|fuel IH]; intros frontier result w plan Hplan Hbelow
    Hfuel.
  - lia.
  - cbn [execute_loop]. unfold bind at 1.
    destruct (_get_current_step_info_down flow planning_tool Htool w plan Hid
                Hplan) as (info & Hrun & Hinfo).
    cbv zeta in Hrun, Hinfo. rewrite Hrun.
    destruct (first_active 0 (default [] (steps plan))
                (default [] (step_statuses plan))) as [i|] eqn:Hselected.
    + destruct (Hinfo ltac:(eauto)) as [step_info ->].
      unfold bind at 1, set_current_step_index, modify. cbn [fst snd].
      cbn [plans current_step_index env].
      set (plan1 := set_step_statuses
                      (Some (mark_in_progress_directly i
                               (default [] (step_statuses plan)))) plan).
      destruct (get_executor_with_primary flow (info_type step_info) Hprimary)
        as [a ->].
      unfold bind at 1.
      match goal with
      | |- context [_execute_step _ _ _ _ _ ?w1] =>
          rewrite (_execute_step_working a step_info w1 i plan1 eq_refl
                     (lookup_insert_eq _ _ _))
      end.
      cbn [plans current_step_index env]. unfold bind at 1, get.
      cbn [fst snd env].
      rewrite bool_decide_eq_false_2 by apply Hstate.
      set (plan2 := mark_completed_directly i (padded plan1)).
      apply first_active_some in Hselected as (Hrange & Hactive & Hbefore).
      assert (Hstatus : forall k,
                status_at plan2 k
                = if decide (k = i) then COMPLETED else status_at plan k).
      { intros k. unfold plan2. rewrite status_at_completed.
        destruct (decide (k = i)); [reflexivity|].
        rewrite status_at_padded. unfold plan1.
        rewrite status_at_in_progress.
        destruct (decide (k = i)); [contradiction|reflexivity]. }
      assert (Hfrontier : (frontier <= i)%nat).
      { destruct (decide (frontier <= i)%nat) as [Hle|Hgt]; [exact Hle|].
        exfalso. apply (Hbelow i); [lia|exact Hactive]. }
      match goal with
      | |- context [execute_loop _ _ _ _ _ fuel ?r ?w1] =>
          destruct (IH (S i) r w1 plan2) as (n & w' & plan' & Hloop & Hplan'
                                             & Hcount & Hadvanced & Hdone)
      end.
      * apply lookup_insert_eq.
      * intros k Hk. rewrite Hstatus.
        destruct (decide (k = i)); [intros [H|H]; discriminate|].
        apply Hbefore. lia.
      * change (steps plan2) with (steps plan). lia.
      * change (steps plan2) with (steps plan) in Hcount, Hdone.
        exists (S n), w', plan'. rewrite Hloop.
        split; [|split; [exact Hplan'|split; [|split]]].
        -- f_equal. cbn [repeat_str]. rewrite !str_app_assoc. reflexivity.
        -- rewrite (active_steps_from_first frontier i plan plan2);
             [lia|lia|exact Hactive| |reflexivity|].
           ++ intros k Hk. apply Hbefore. lia.
           ++ intros k Hk. rewrite Hstatus.
              destruct (decide (k = i)); [lia|reflexivity].
        -- destruct Hadvanced as [Hsteps Hevolved].
           split; [exact Hsteps|]. intros k.
           destruct (Hevolved k) as [Hsame|[Hwas Hnow]];
             rewrite Hstatus in *;
             destruct (decide (k = i)) as [->|Hne].
           ++ right. split; [exact Hactive|congruence].
           ++ left. exact Hsame.
           ++ destruct Hwas; discriminate.
           ++ right. split; assumption.
        -- exact Hdone.
    + unfold bind at 1, set_current_step_index, modify. cbn [fst snd].
      unfold bind at 1.
      match goal with
      | |- context [_finalize_plan _ _ _ _ ?w1] =>
          rewrite (_finalize_plan_working w1 plan Hplan)
      end.
      exists 0%nat. eexists _, (padded plan).
      split; [reflexivity|].
      split; [apply lookup_insert_eq|]. split; [|split].
      * symmetry. apply active_steps_from_none. intros k Hk.
        apply (proj1 (first_active_none _ _ 0%nat) Hselected). lia.
      * split; [reflexivity|]. intros k. left. apply status_at_padded.
      * intros k Hk. rewrite status_at_padded.
        apply (proj1 (first_active_none _ _ 0%nat) Hselected). lia.
Qed.

End Working.

(** X30: with agents and a gateway that answer (and the planning tool
    out of order, so that the flow updates the storage itself), for a
    stored plan and fuel for one iteration more than it has steps,
    [execute] on an empty input returns one answer for each active step
    followed by the summary; afterwards no step is active, the active
    ones are [COMPLETED] and the others keep their status. *)
Theorem every_active_step_is_executed_once :
  forall (E : Type) (flow : PlanningFlow)
         (planning_tool : ToolArgs -> M (@World E) string)
         (llm_ask_tool :
            string -> string -> M (@World E) (option (list ToolCall)))
         (llm_ask : string -> string -> M (@World E) string)
         (json_loads : string -> Json)
         (agent_run : nat -> string -> M (@World E) string)
         (agent_state : nat -> E -> Agent.AgentState)
         (reply summary : string) (w : @World E) (plan : PlanData)
         (fuel : nat),
    tool_down planning_tool ->
    agent_answers reply agent_run ->
    llm_answers summary llm_ask ->
    (forall a e, agent_state a e <> Agent.FINISHED) ->
    is_Some (primary_agent flow) ->
    active_plan_id flow <> "" ->
    plans w !! active_plan_id flow = Some plan ->
    (length (default [] (steps plan)) < fuel)%nat ->
    exists n w' plan',
      execute flow planning_tool llm_ask_tool llm_ask json_loads agent_run
        agent_state fuel "" w
      = (Return (repeat_str (reply +:+ nl) n
                 +:+ "Plan completed:" +:+ nl +:+ nl +:+ summary), w')
      /\ Z.of_nat n = active_steps_from 0 plan
      /\ plans w' !! active_plan_id flow = Some plan'
      /\ advanced plan plan'
      /\ (forall k, (k < length (default [] (steps plan)))%nat ->
                    status_at plan' k = COMPLETED
                    \/ status_at plan' k = BLOCKED).
Proof.
  intros E flow planning_tool llm_ask_tool llm_ask json_loads agent_run
    agent_state reply summary w plan fuel Htool Hagent Hllm Hstate Hprimary
    Hid Hplan Hfuel.
  destruct (execute_loop_runs_to_the_end flow planning_tool llm_ask agent_run
              agent_state reply summary Htool Hagent Hllm Hstate Hprimary Hid
              fuel 0%nat "" w plan Hplan)
    as (n & w' & plan' & Hloop & Hplan' & Hcount & Hadvanced & Hdone).
  - intros k Hk. lia.
  - lia.
  - exists n, w', plan'. split; [|split; [exact Hcount|split;
      [exact Hplan'|split; [exact Hadvanced|]]]].
    + unfold execute, try_except. destruct Hprimary as [primary ->].
      unfold bind at 1. cbn [truthy String.eqb negb ret fst snd].
      rewrite Hloop. reflexivity.
    + intros k Hk. apply not_active_iff. apply Hdone. exact Hk.
Qed.

Lemma every_active_step_is_executed_once_witness :
  exists n w' plan',
    execute flow_one_agent failing_tool (fun _ _ => ret None)
      (fun _ _ => ret "all good") (fun _ => JsonOther)
      (fun _ _ => ret "done") (fun _ _ => Agent.IDLE) 4 "" world_abc
    = (Return (repeat_str ("done" +:+ nl) n
               +:+ "Plan completed:" +:+ nl +:+ nl +:+ "all good"), w')
    /\ Z.of_nat n = active_steps_from 0 plan_abc
    /\ plans w' !! active_plan_id flow_one_agent = Some plan'
    /\ advanced plan_abc plan'
    /\ (forall k, (k < length (default [] (steps plan_abc)))%nat ->
                  status_at plan' k = COMPLETED
                  \/ status_at plan' k = BLOCKED).
Proof.
  apply (every_active_step_is_executed_once unit flow_one_agent failing_tool
           (fun _ _ => ret None) (fun _ _ => ret "all good")
           (fun _ => JsonOther) (fun _ _ => ret "done")
           (fun _ _ => Agent.IDLE) "done" "all good" world_abc plan_abc 4).
  - exact failing_tool_down.
  - intros a prompt w. reflexivity.
  - intros user_text system_text w. reflexivity.
  - intros a e. discriminate.
  - eexists. reflexivity.
  - discriminate.
  - reflexivity.
  - simpl. lia.
Defined.

End PlanningEdgeProperties.
